(** * VidParse-Pro: the input-resolution pipeline and the player's
      buffering state machine

    A shallow embedding of [services/parserService.ts] (both revisions of
    [parseVideoInput] and [formatDuration]) and of the download effect of
    [components/VideoPlayer.tsx], with the properties the specification
    states about them. *)

From Stdlib Require Import List Bool Arith ZArith NArith QArith Qminmax.
From Stdlib Require Import Ascii String Lia.
Import ListNotations.

Set Implicit Arguments.
Set Warnings "-register-all".
Close Scope Q_scope.

(** ** JavaScript strings

    A JavaScript string is a sequence of UTF-16 code units; every string
    operation of the program ([trim], [includes], [match], [split],
    template concatenation) works on code units. *)

Definition jsstr := list N.

(** ASCII literal of the source, as code units. *)
Definition lit (s : string) : jsstr :=
  map N_of_ascii (list_ascii_of_string s).

Fixpoint jsstr_eqb (a b : jsstr) : bool :=
  match a, b with
  | [], [] => true
  | x :: a', y :: b' => N.eqb x y && jsstr_eqb a' b'
  | _, _ => false
  end.

(** *** Number to string

    [Number.prototype.toString] on an integer-valued double below
    [10^21] in magnitude: the decimal digits, a minus sign in front of a
    negative one.  Numbers are modelled as [Z]; double arithmetic is
    exact on integers up to [2^53]. *)

Fixpoint uint_chars (u : Decimal.uint) : jsstr :=
  match u with
  | Decimal.Nil => []
  | Decimal.D0 u => 48%N :: uint_chars u
  | Decimal.D1 u => 49%N :: uint_chars u
  | Decimal.D2 u => 50%N :: uint_chars u
  | Decimal.D3 u => 51%N :: uint_chars u
  | Decimal.D4 u => 52%N :: uint_chars u
  | Decimal.D5 u => 53%N :: uint_chars u
  | Decimal.D6 u => 54%N :: uint_chars u
  | Decimal.D7 u => 55%N :: uint_chars u
  | Decimal.D8 u => 56%N :: uint_chars u
  | Decimal.D9 u => 57%N :: uint_chars u
  end.

Definition numberToString (z : Z) : jsstr :=
  match z with
  | Z0 => [48%N]
  | Zpos p => uint_chars (Pos.to_uint p)
  | Zneg p => 45%N :: uint_chars (Pos.to_uint p)
  end.

(** *** [formatDuration]  (parserService.ts, lines 182-186)

<<
  function formatDuration(seconds: number): string {
    const m = Math.floor(seconds / 60);
    const s = seconds % 60;
    return `${m}:${s < 10 ? '0' : ''}${s}`;
  }
>>
    [Math.floor (x / 60)] is [Z.div] (rounds down); [%] keeps the sign of
    the dividend and is [Z.rem].  Numbers are the integers a double
    holds exactly: below 2^53 in size the quotient rounds down to the
    same integer and numbers print in plain decimal; what the code does
    beyond that is not described. *)

Definition formatDuration (seconds : Z) : jsstr :=
  let m := (seconds / 60)%Z in
  let s := Z.rem seconds 60%Z in
  numberToString m ++ lit ":" ++ (if (s <? 10)%Z then lit "0" else lit "")
    ++ numberToString s.

(** The digit character of [d], for [d] in [0..9]. *)
Definition digitChar (d : Z) : N := (48 + Z.to_N d)%N.

(** The residual seconds, written with exactly two digits. *)
Definition twoDigits (s : Z) : jsstr :=
  [digitChar (s / 10)%Z; digitChar (s mod 10)%Z].

(** ** String operations of the standard library used by the program *)

(** [WhiteSpace] and [LineTerminator] code units: what [trim] strips and
    what [\s] matches. *)
Definition isWhiteSpace (c : N) : bool :=
  ((9 <=? c) && (c <=? 13) || (c =? 32) || (c =? 160) || (c =? 5760)
   || (8192 <=? c) && (c <=? 8202) || (c =? 8232) || (c =? 8233)
   || (c =? 8239) || (c =? 8287) || (c =? 12288) || (c =? 65279))%N.

Definition isLineTerminator (c : N) : bool :=
  ((c =? 10) || (c =? 13) || (c =? 8232) || (c =? 8233))%N.

Fixpoint trimStart (s : jsstr) : jsstr :=
  match s with
  | c :: s' => if isWhiteSpace c then trimStart s' else s
  | [] => []
  end.

Definition trimEnd (s : jsstr) : jsstr := rev (trimStart (rev s)).

(** [String.prototype.trim] *)
Definition trim (s : jsstr) : jsstr := trimEnd (trimStart s).

Fixpoint startsWith (p s : jsstr) : bool :=
  match p, s with
  | [], _ => true
  | a :: p', b :: s' => N.eqb a b && startsWith p' s'
  | _ :: _, [] => false
  end.

(** [String.prototype.includes]: [p] occurs in [s]. *)
Fixpoint includes (s p : jsstr) : bool :=
  startsWith p s || match s with [] => false | _ :: s' => includes s' p end.

(** [s.split(sep)] for a one-character separator. *)
Fixpoint split (sep : N) (s : jsstr) : list jsstr :=
  match s with
  | [] => [[]]
  | c :: s' =>
      match split sep s' with
      | seg :: rest => if N.eqb c sep then [] :: seg :: rest
                       else (c :: seg) :: rest
      | [] => [[c]]
      end
  end.

(** [Array.prototype.pop] on a fresh array: its last element, if any. *)
Definition pop (l : list jsstr) : option jsstr :=
  match rev l with x :: _ => Some x | [] => None end.

(** ** Regular expressions

    The program's patterns use literals, classes, concatenation,
    alternation, greedy repetition, the end anchor and one capture group
    each.  [exec] is the backtracking matcher of the language: the
    alternatives are tried left to right, a repetition takes as many
    iterations as it can before it gives one back (an iteration that
    consumes nothing is refused), and the first success is the result. *)

Inductive regex :=
| Empty
| Char (c : N)
| Class (p : N -> bool)
| Cat (r1 r2 : regex)
| Alt (r1 r2 : regex)
| Star (r : regex)
| End.

Fixpoint exec (R : Type) (r : regex) (s : jsstr) (k : jsstr -> option R)
  {struct r} : option R :=
  match r with
  | Empty => k s
  | Char c =>
      match s with
      | x :: s' => if N.eqb x c then k s' else None
      | [] => None
      end
  | Class p =>
      match s with
      | x :: s' => if p x then k s' else None
      | [] => None
      end
  | Cat r1 r2 => exec r1 s (fun s' => exec r2 s' k)
  | Alt r1 r2 =>
      match exec r1 s k with
      | Some x => Some x
      | None => exec r2 s k
      end
  | Star r1 =>
      (fix loop (n : nat) (s : jsstr) {struct n} : option R :=
         match n with
         | O => k s
         | S n' =>
             match exec r1 s (fun s' =>
                     if (List.length s' <? List.length s)%nat
                     then loop n' s' else None) with
             | Some x => Some x
             | None => k s
             end
         end) (List.length s) s
  | End => match s with [] => k s | _ :: _ => None end
  end.

(** A pattern [/before(captured)after/]: the one capture group of the
    pattern always takes part in a match. *)
Record pattern := {
  before : regex;
  captured : regex;
  after : regex
}.

(** The text consumed between the input [s] and what is left of it. *)
Definition consumed (s rest : jsstr) : jsstr :=
  firstn (List.length s - List.length rest) s.

(** One attempt at the start of [s]: the whole match and group 1. *)
Definition matchHere (p : pattern) (s : jsstr) : option (jsstr * jsstr) :=
  exec (before p) s (fun s1 =>
    exec (captured p) s1 (fun s2 =>
      exec (after p) s2 (fun s3 =>
        Some (consumed s s3, consumed s1 s2)))).

(** [s.match(p)] without the [g] flag: the leftmost position at which
    the pattern matches; the result holds [match[0]] and [match[1]]. *)
Fixpoint jsmatch (p : pattern) (s : jsstr) : option (jsstr * jsstr) :=
  match matchHere p s with
  | Some m => Some m
  | None => match s with [] => None | _ :: s' => jsmatch p s' end
  end.

Definition str (s : string) : regex :=
  fold_right (fun a r => Cat (Char (N_of_ascii a)) r) Empty
    (list_ascii_of_string s).

Definition plus (r : regex) : regex := Cat r (Star r).
Definition opt (r : regex) : regex := Alt r Empty.

Fixpoint times (n : nat) (r : regex) : regex :=
  match n with O => Empty | S n' => Cat r (times n' r) end.

Definition inRange (lo hi : string) (c : N) : bool :=
  match lo, hi with
  | String a EmptyString, String b EmptyString =>
      ((N_of_ascii a <=? c) && (c <=? N_of_ascii b))%N
  | _, _ => false
  end.

Definition oneOf (set : string) (c : N) : bool :=
  existsb (N.eqb c) (lit set).

(** [[a-zA-Z0-9]] *)
Definition alnum (c : N) : bool :=
  inRange "a" "z" c || inRange "A" "Z" c || inRange "0" "9" c.

(** [[0-9]] *)
Definition digit (c : N) : bool := inRange "0" "9" c.

(** [.]: anything but a line terminator. *)
Definition dot : regex := Class (fun c => negb (isLineTerminator c)).

(** A letter under the [i] flag: the letter in either case.  (Without
    the [u] flag no code unit above 127 canonicalizes to an ASCII
    letter.) *)
Definition ci (lower upper : string) : regex :=
  Class (fun c => oneOf lower c || oneOf upper c).

(** [/(BV[a-zA-Z0-9]{10})/] *)
Definition bvRegex : pattern :=
  {| before := Empty;
     captured := Cat (str "BV") (times 10 (Class alnum));
     after := Empty |}.

(** [/(?:av)([0-9]+)/] *)
Definition avRegex : pattern :=
  {| before := str "av";
     captured := plus (Class digit);
     after := Empty |}.

(** [/(?:youtube\.com\/(?:[^\/]+\/.+\/|(?:v|e(?:mbed)?)\/|.*[?&]v=)|youtu\.be\/)([^Q&?\/\s]{11})/]
    where [Q] stands for the double-quote character (code unit 34). *)
Definition ytRegex : pattern :=
  {| before :=
       Alt (Cat (str "youtube.com/")
              (Alt (Cat (plus (Class (fun c => negb (oneOf "/" c))))
                      (Cat (Char 47) (Cat (plus dot) (Char 47))))
                 (Alt (Cat (Alt (str "v") (Cat (str "e") (opt (str "mbed"))))
                         (Char 47))
                    (Cat (Star dot) (Cat (Class (oneOf "?&")) (str "v="))))))
           (str "youtu.be/");
     captured :=
       times 11 (Class (fun c => negb (N.eqb c 34 || oneOf "&?/" c
                                       || isWhiteSpace c)));
     after := Empty |}.

(** [/\.(mp4|webm|ogg|mov)$/i] *)
Definition directRegex : pattern :=
  {| before := Char 46;
     captured :=
       Alt (Cat (ci "m" "M") (Cat (ci "p" "P") (Char 52)))
         (Alt (Cat (ci "w" "W") (Cat (ci "e" "E") (Cat (ci "b" "B") (ci "m" "M"))))
            (Alt (Cat (ci "o" "O") (Cat (ci "g" "G") (ci "g" "G")))
               (Cat (ci "m" "M") (Cat (ci "o" "O") (ci "v" "V")))));
     after := End |}.

(** [/https?:\/\/(?:www|m)\.bilibili\.com\/video\/(BV[a-zA-Z0-9]{10})/]
    (second revision only) *)
Definition bilibiliUrlRegex : pattern :=
  {| before :=
       Cat (str "http") (Cat (opt (str "s")) (Cat (str "://")
         (Cat (Alt (str "www") (str "m")) (str ".bilibili.com/video/"))));
     captured := Cat (str "BV") (times 10 (Class alnum));
     after := Empty |}.

(** ** Exceptions

    What a JavaScript computation completes with: a value, or a thrown
    error.  Every [catch] of the program absorbs all kinds alike; the
    kind only shows in a rejection of the returned promise. *)

Inductive JsError :=
| TypeError
| URIError
| SyntaxError
| Error (message : jsstr).

Inductive completion (A : Type) :=
| Normal (a : A)
| Throw (e : JsError).
Arguments Normal {A} a.
Arguments Throw {A} e.

(** ** [encodeURIComponent] and [decodeURIComponent] *)

(** [A-Z a-z 0-9 - _ . ! ~ * ' ( )] are left as they are. *)
Definition uriUnreserved (c : N) : bool :=
  alnum c || oneOf "-_.!~*'()" c.

Definition hexDigit (d : N) : N :=
  if (d <? 10)%N then (48 + d)%N else (55 + d)%N.

(** [%XX], upper-case hexadecimal. *)
Definition pctEncode (octet : N) : jsstr :=
  [37%N; hexDigit (octet / 16); hexDigit (octet mod 16)].

Definition utf8 (cp : N) : list N :=
  if (cp <? 128)%N then [cp]
  else if (cp <? 2048)%N then [192 + cp / 64; 128 + cp mod 64]%N
  else if (cp <? 65536)%N then
    [224 + cp / 4096; 128 + (cp / 64) mod 64; 128 + cp mod 64]%N
  else
    [240 + cp / 262144; 128 + (cp / 4096) mod 64;
     128 + (cp / 64) mod 64; 128 + cp mod 64]%N.

Definition isHighSurrogate (c : N) : bool := ((55296 <=? c) && (c <=? 56319))%N.
Definition isLowSurrogate (c : N) : bool := ((56320 <=? c) && (c <=? 57343))%N.

Definition pctEncodeAll (octets : list N) : jsstr :=
  flat_map pctEncode octets.

(** [encodeURIComponent]: an unpaired surrogate throws [URIError]. *)
Fixpoint encodeURIComponent (s : jsstr) : completion jsstr :=
  let cont (out : jsstr) (rest : completion jsstr) :=
    match rest with
    | Normal r => Normal (out ++ r)
    | Throw e => Throw e
    end in
  match s with
  | [] => Normal []
  | c :: s' =>
      if uriUnreserved c then cont [c] (encodeURIComponent s')
      else if isHighSurrogate c then
        match s' with
        | d :: s'' =>
            if isLowSurrogate d then
              cont (pctEncodeAll
                      (utf8 ((c - 55296) * 1024 + (d - 56320) + 65536)%N))
                   (encodeURIComponent s'')
            else Throw URIError
        | [] => Throw URIError
        end
      else if isLowSurrogate c then Throw URIError
      else cont (pctEncodeAll (utf8 c)) (encodeURIComponent s')
  end.

Definition hexVal (c : N) : option N :=
  if digit c then Some (c - 48)%N
  else if inRange "A" "F" c then Some (c - 55)%N
  else if inRange "a" "f" c then Some (c - 87)%N
  else None.

(** The escapes of a string: every [%] must be followed by two
    hexadecimal digits. *)
Inductive token :=
| Lit (c : N)
| Octet (b : N).

Fixpoint tokens (s : jsstr) : option (list token) :=
  match s with
  | [] => Some []
  | c :: s' =>
      if N.eqb c 37 then
        match s' with
        | h1 :: h2 :: s'' =>
            match hexVal h1, hexVal h2, tokens s'' with
            | Some a, Some b, Some ts => Some (Octet (16 * a + b)%N :: ts)
            | _, _, _ => None
            end
        | _ => None
        end
      else
        match tokens s' with
        | Some ts => Some (Lit c :: ts)
        | None => None
        end
  end.

Definition isContinuation (b : N) : bool := ((128 <=? b) && (b <? 192))%N.

(** The code point of a well-formed multi-byte UTF-8 sequence: no
    overlong form, no surrogate, nothing above [U+10FFFF]. *)
Definition utf8Decode (octets : list N) : option N :=
  match octets with
  | [b0; b1] =>
      let cp := ((b0 - 192) * 64 + (b1 - 128))%N in
      if isContinuation b1 && (128 <=? cp)%N then Some cp else None
  | [b0; b1; b2] =>
      let cp := ((b0 - 224) * 4096 + (b1 - 128) * 64 + (b2 - 128))%N in
      if isContinuation b1 && isContinuation b2 && (2048 <=? cp)%N
         && negb (isHighSurrogate cp || isLowSurrogate cp)
      then Some cp else None
  | [b0; b1; b2; b3] =>
      let cp := ((b0 - 240) * 262144 + (b1 - 128) * 4096
                 + (b2 - 128) * 64 + (b3 - 128))%N in
      if isContinuation b1 && isContinuation b2 && isContinuation b3
         && (65536 <=? cp)%N && (cp <=? 1114111)%N
      then Some cp else None
  | _ => None
  end.

Definition utf16 (cp : N) : jsstr :=
  if (cp <? 65536)%N then [cp]
  else [55296 + (cp - 65536) / 1024; 56320 + (cp - 65536) mod 1024]%N.

Fixpoint decodeTokens (ts : list token) : option jsstr :=
  let emit (out : jsstr) (rest : option jsstr) :=
    match rest with Some r => Some (out ++ r) | None => None end in
  let multi (octets : list N) (rest : option jsstr) :=
    match utf8Decode octets with
    | Some cp => emit (utf16 cp) rest
    | None => None
    end in
  match ts with
  | [] => Some []
  | Lit c :: ts' => emit [c] (decodeTokens ts')
  | Octet b :: ts' =>
      if (b <? 128)%N then emit [b] (decodeTokens ts')
      else if (b <? 192)%N then None
      else if (b <? 224)%N then
        match ts' with
        | Octet b1 :: r => multi [b; b1] (decodeTokens r)
        | _ => None
        end
      else if (b <? 240)%N then
        match ts' with
        | Octet b1 :: Octet b2 :: r => multi [b; b1; b2] (decodeTokens r)
        | _ => None
        end
      else if (b <? 248)%N then
        match ts' with
        | Octet b1 :: Octet b2 :: Octet b3 :: r =>
            multi [b; b1; b2; b3] (decodeTokens r)
        | _ => None
        end
      else None
  end.

(** [decodeURIComponent]: a malformed escape or an escape sequence that
    is not UTF-8 throws [URIError]. *)
Definition decodeURIComponent (s : jsstr) : completion jsstr :=
  match tokens s with
  | Some ts =>
      match decodeTokens ts with
      | Some r => Normal r
      | None => Throw URIError
      end
  | None => Throw URIError
  end.

(** ** JavaScript values as [JSON.parse] produces them

    Numbers are the integer-valued ones ([Z]); an object is the list of
    its own properties. *)

Inductive value :=
| VUndefined
| VNull
| VBool (b : bool)
| VNum (n : Z)
| VStr (s : jsstr)
| VArr (items : list value)
| VObj (fields : list (jsstr * value)).

(** [ToBoolean] *)
Definition truthy (v : value) : bool :=
  match v with
  | VUndefined | VNull => false
  | VBool b => b
  | VNum n => negb (n =? 0)%Z
  | VStr s => match s with [] => false | _ :: _ => true end
  | VArr _ | VObj _ => true
  end.

Fixpoint lookupField (k : jsstr) (fields : list (jsstr * value)) : value :=
  match fields with
  | [] => VUndefined
  | (k', v) :: rest => if jsstr_eqb k' k then v else lookupField k rest
  end.

(** [v.k] for the property names the program reads ([status], [url],
    [contents], [code], [data], [title], [pic], [desc], [duration]):
    none of them is a built-in property of a string, number, boolean or
    array, so only objects have them. *)
Definition prop (v : value) (k : string) : value :=
  match v with
  | VObj fields => lookupField (lit k) fields
  | _ => VUndefined
  end.

(** [v.k] where [v] may be [null] or [undefined]: those throw. *)
Definition getProp (v : value) (k : string) : completion value :=
  match v with
  | VUndefined | VNull => Throw TypeError
  | _ => Normal (prop v k)
  end.

(** [v?.k] *)
Definition optProp (v : value) (k : string) : value :=
  match v with
  | VUndefined | VNull => VUndefined
  | _ => prop v k
  end.

(** [v === 0] *)
Definition isZero (v : value) : bool :=
  match v with VNum n => (n =? 0)%Z | _ => false end.

(** [a || b] *)
Definition orElse (a b : value) : value := if truthy a then a else b.

(** [a || b] on strings *)
Definition orElseStr (a b : jsstr) : jsstr :=
  match a with [] => b | _ :: _ => a end.

(** [v.match(p)]: only strings have the method. *)
Definition matchValue (v : value) (p : pattern)
  : completion (option (jsstr * jsstr)) :=
  match v with
  | VStr s => Normal (jsmatch p s)
  | _ => Throw TypeError
  end.

(** [v.includes(s)]: strings search for a substring, arrays for an
    element; nothing else has the method. *)
Definition includesValue (v : value) (s : jsstr) : completion bool :=
  match v with
  | VStr t => Normal (includes t s)
  | VArr items =>
      Normal (existsb (fun x => match x with
                                | VStr t => jsstr_eqb t s
                                | _ => false
                                end) items)
  | _ => Throw TypeError
  end.

(** ** The result record  (types.ts) *)

Inductive Platform := youtube | bilibili | direct | unknown.
Inductive PlayerType := native | iframe.

Module VideoSource.
Record t := {
    url : value;
    format : jsstr;
    quality : jsstr;
    size : option jsstr;
    isDownloadable : option bool
  }.
End VideoSource.

Module AISummary.
Record t := {
    tags : list jsstr;
    summary : jsstr;
    sentiment : jsstr
  }.
End AISummary.

Module ParsedVideoData.
Record t := {
    id : jsstr;
    title : value;
    platform : Platform;
    playerType : PlayerType;
    thumbnailUrl : option value;
    duration : option jsstr;
    sources : list VideoSource.t;
    description : option value;
    aiSummary : option AISummary.t
  }.
End ParsedVideoData.

(** ** What the program runs against

    [now k] is what the [k]-th call of [Date.now()] returns.
    [respond k u] is what happens to the [k]-th [fetch], of URL [u]: the
    request fails, or a body arrives that [JSON.parse] turns into a
    value ([Some]) or refuses ([None]).  [coerced v] is the text
    [formatDuration] builds when it is handed something that is not a
    number (the implicit conversions are left open). *)

Inductive FetchResult :=
| NetworkError
| Response (parsed : option value).

Record Host := {
  now : nat -> Z;
  respond : nat -> jsstr -> FetchResult;
  coerced : value -> jsstr
}.

(** What a run has done so far: how often it read the clock and the URLs
    it fetched, oldest first. *)
Record World := {
  clockReads : nat;
  requests : list jsstr
}.

Definition startWorld : World := {| clockReads := 0; requests := [] |}.

(** Computations that read the clock, fetch and may throw. *)
Definition M (A : Type) : Type := World -> completion A * World.

Definition ret (A : Type) (a : A) : M A := fun w => (Normal a, w).

Definition bind (A B : Type) (c : M A) (f : A -> M B) : M B :=
  fun w =>
    match c w with
    | (Normal a, w') => f a w'
    | (Throw e, w') => (Throw e, w')
    end.

Definition lift (A : Type) (c : completion A) : M A := fun w => (c, w).

(** [try { body } catch { handler }]: what the body did to the world
    before it threw stays done. *)
Definition tryCatch (A : Type) (body handler : M A) : M A :=
  fun w =>
    match body w with
    | (Normal a, w') => (Normal a, w')
    | (Throw _, w') => handler w'
    end.

Declare Scope js_scope.
Delimit Scope js_scope with js.
Notation "x <- c ;; k" := (bind c (fun x => k))
  (at level 61, c at next level, right associativity) : js_scope.
Notation "' p <- c ;; k" := (bind c (fun x => let 'p := x in k))
  (at level 61, p pattern, c at next level, right associativity) : js_scope.

Definition PROXY_RAW : jsstr := lit "https://api.allorigins.win/raw?url=".
Definition PROXY_JSON : jsstr := lit "https://api.allorigins.win/get?url=".
Definition PARSER_API : jsstr := lit "https://api.injahow.cn/bparse/".

Definition nonEmpty (s : jsstr) : bool :=
  match s with [] => false | _ :: _ => true end.

Section Pipeline.

Variable host : Host.

Local Open Scope js_scope.

(** [Date.now()] *)
Definition dateNow : M Z :=
  fun w => (Normal (now host (clockReads w)),
            {| clockReads := S (clockReads w); requests := requests w |}).

(** [await fetch(u)] followed by reading the body: the parsed body, or
    [None] when the body is not JSON. *)
Definition fetch (u : jsstr) : M (option value) :=
  fun w =>
    let w' := {| clockReads := clockReads w;
                 requests := requests w ++ [u] |} in
    match respond host (List.length (requests w)) u with
    | NetworkError => (Throw TypeError, w')
    | Response parsed => (Normal parsed, w')
    end.

(** [await res.json()] *)
Definition json (res : option value) : M value :=
  match res with
  | Some v => ret v
  | None => lift (Throw SyntaxError)
  end.

(** [formatDuration(v)] at the call site, where [v] is untyped. *)
Definition formatDurationOf (v : value) : jsstr :=
  match v with
  | VNum n => formatDuration n
  | _ => coerced host v
  end.

(** *** A. Fetch Metadata  (lines 42-53) *)
Definition fetchMetadata (bvid avid : jsstr) : M value :=
  tryCatch
    (let idParam := if nonEmpty bvid then lit "bvid=" ++ bvid
                    else lit "aid=" ++ avid in
     let metaUrl :=
       lit "https://api.bilibili.com/x/web-interface/view?" ++ idParam in
     enc <- lift (encodeURIComponent metaUrl) ;;
     t <- dateNow ;;
     res <- fetch (PROXY_RAW ++ enc ++ lit "&t=" ++ numberToString t) ;;
     j <- json res ;;
     code <- lift (getProp j "code") ;;
     if isZero code then ret (prop j "data") else ret (VObj []))
    (ret (VObj [])).

(** The target of the stream request (line 62). *)
Definition parseUrl (bvid avid : jsstr) : jsstr :=
  let idParam := if nonEmpty bvid then lit "bv=" ++ bvid
                 else lit "av=" ++ avid in
  PARSER_API ++ lit "?" ++ idParam ++ lit "&p=1&q=80&format=mp4&otype=json".

(** *** B. Fetch Direct Stream URL  (lines 57-86): [directUrl] and
    [parseError]. *)
Definition fetchDirectUrl (bvid avid : jsstr) : M (value * bool) :=
  tryCatch
    (enc <- lift (encodeURIComponent (parseUrl bvid avid)) ;;
     t <- dateNow ;;
     let proxyUrl := PROXY_RAW ++ enc ++ lit "&t=" ++ numberToString t in
     res <- fetch proxyUrl ;;
     let j := match res with Some v => v | None => VUndefined end in
     if truthy j && isZero (prop j "code") && truthy (prop j "url")
     then ret (prop j "url", false)
     else ret (VStr [], true))
    (ret (VStr [], true)).

(** *** C. Construct Response  (lines 88-142) *)
Definition constructResponse (bvid avid : jsstr) (metaData directUrl : value)
  : completion ParsedVideoData.t :=
  match getProp metaData "title" with
  | Throw e => Throw e
  | Normal metaTitle =>
      let ident := orElseStr bvid avid in
      let title :=
        orElse metaTitle
          (VStr (lit "Bilibili " ++ [35270; 39057]%N ++ lit " (" ++ ident
                 ++ lit ")")) in
      let cover := orElse (prop metaData "pic") (VStr []) in
      let desc := orElse (prop metaData "desc") (VStr []) in
      let duration :=
        if truthy (prop metaData "duration")
        then formatDurationOf (prop metaData "duration") else [] in
      if truthy directUrl then
        Normal
          {| ParsedVideoData.id := ident;
             ParsedVideoData.title := title;
             ParsedVideoData.platform := bilibili;
             ParsedVideoData.playerType := native;
             ParsedVideoData.thumbnailUrl := Some cover;
             ParsedVideoData.duration := Some duration;
             ParsedVideoData.description := Some desc;
             ParsedVideoData.sources :=
               [ {| VideoSource.url := directUrl;
                    VideoSource.format := lit "MP4 (Direct)";
                    VideoSource.quality := lit "High (q=80)";
                    VideoSource.size := Some (lit "Unknown");
                    VideoSource.isDownloadable := Some true |} ];
             ParsedVideoData.aiSummary := None |}
      else
        Normal
          {| ParsedVideoData.id := ident;
             ParsedVideoData.title := title;
             ParsedVideoData.platform := bilibili;
             ParsedVideoData.playerType := iframe;
             ParsedVideoData.thumbnailUrl := Some cover;
             ParsedVideoData.duration := Some duration;
             ParsedVideoData.description := Some desc;
             ParsedVideoData.sources :=
               [ {| VideoSource.url :=
                      VStr (lit "//player.bilibili.com/player.html?"
                            ++ (if nonEmpty bvid then lit "bvid=" ++ bvid
                                else lit "aid=" ++ avid)
                            ++ lit "&high_quality=1&danmaku=0");
                    VideoSource.format := lit "Embed";
                    VideoSource.quality := lit "Auto";
                    VideoSource.size := Some (lit "N/A");
                    VideoSource.isDownloadable := Some false |} ];
             ParsedVideoData.aiSummary := None |}
  end.

(** The Bilibili branch  (lines 40-143). *)
Definition parseBilibili (bvid avid : jsstr) : M ParsedVideoData.t :=
  metaData <- fetchMetadata bvid avid ;;
  ' (directUrl, _) <- fetchDirectUrl bvid avid ;;
  lift (constructResponse bvid avid metaData directUrl).

(** *** 3. YouTube Parsing  (lines 146-162) *)
Definition youtubeResult (videoId : jsstr) : ParsedVideoData.t :=
  {| ParsedVideoData.id := videoId;
     ParsedVideoData.title := VStr (lit "YouTube " ++ [35270; 39057]%N);
     ParsedVideoData.platform := youtube;
     ParsedVideoData.playerType := iframe;
     ParsedVideoData.thumbnailUrl :=
       Some (VStr (lit "https://img.youtube.com/vi/" ++ videoId
                   ++ lit "/maxresdefault.jpg"));
     ParsedVideoData.duration := None;
     ParsedVideoData.description := None;
     ParsedVideoData.sources :=
       [ {| VideoSource.url :=
              VStr (lit "https://www.youtube.com/embed/" ++ videoId);
            VideoSource.format := lit "Embed";
            VideoSource.quality := lit "Auto";
            VideoSource.size := Some (lit "N/A");
            VideoSource.isDownloadable := Some false |};
         {| VideoSource.url := VStr (lit "https://youtu.be/" ++ videoId);
            VideoSource.format := lit "Source";
            VideoSource.quality := lit "Original";
            VideoSource.size := Some (lit "External");
            VideoSource.isDownloadable := Some true |} ];
     ParsedVideoData.aiSummary := None |}.

(** *** 4. Direct File URL  (lines 165-177) *)
Definition directResult (url : jsstr) : completion ParsedVideoData.t :=
  let fileName :=
    match pop (split 47 url) with
    | Some seg => orElseStr seg [26410; 21629; 21517; 35270; 39057]%N
    | None => [26410; 21629; 21517; 35270; 39057]%N
    end in
  match decodeURIComponent fileName with
  | Throw e => Throw e
  | Normal title =>
      Normal
        {| ParsedVideoData.id := lit "direct_file";
           ParsedVideoData.title := VStr title;
           ParsedVideoData.platform := direct;
           ParsedVideoData.playerType := native;
           ParsedVideoData.thumbnailUrl := None;
           ParsedVideoData.duration := None;
           ParsedVideoData.description := None;
           ParsedVideoData.sources :=
             [ {| VideoSource.url := VStr url;
                  VideoSource.format := lit "Original";
                  VideoSource.quality := lit "Source";
                  VideoSource.size := Some (lit "Unknown");
                  VideoSource.isDownloadable := Some true |} ];
           ParsedVideoData.aiSummary := None |}
  end.

(** Steps 3 and 4 and the final [throw]  (lines 145-179). *)
Definition parseOther (url : value) : completion ParsedVideoData.t :=
  match matchValue url ytRegex with
  | Throw e => Throw e
  | Normal (Some (_, videoId)) => Normal (youtubeResult videoId)
  | Normal None =>
      match url with
      | VStr u =>
          match jsmatch directRegex u with
          | Some _ => directResult u
          | None => Throw (Error (lit "Format not supported"))
          end
      | _ => Throw TypeError
      end
  end.

(** From [if (bvid || avid)] to the end  (lines 40-179). *)
Definition parseIdentified (url : value) (bvid avid : jsstr)
  : M ParsedVideoData.t :=
  if nonEmpty bvid || nonEmpty avid then parseBilibili bvid avid
  else lift (parseOther url).

(** *** 1. Resolve b23.tv short links  (lines 16-31): the new [url]
    and [bvid]. *)
Definition resolveShortLink (url : jsstr) : M (value * jsstr) :=
  if includes url (lit "b23.tv") then
    tryCatch
      (enc <- lift (encodeURIComponent url) ;;
       t <- dateNow ;;
       let resolveUrl := PROXY_JSON ++ enc ++ lit "&t=" ++ numberToString t in
       response <- fetch resolveUrl ;;
       data <- json response ;;
       status <- lift (getProp data "status") ;;
       if truthy (optProp status "url")
       then ret (optProp status "url", [])
       else if truthy (prop data "contents") then
         m <- lift (matchValue (prop data "contents") bvRegex) ;;
         match m with
         | Some (_, g) => ret (VStr url, g)
         | None => ret (VStr url, [])
         end
       else ret (VStr url, []))
      (ret (VStr url, []))
  else ret (VStr url, []).

(** *** 2. Extract IDs  (lines 34-38): [bvid] and [avid]. *)
Definition extractIds (url : value) (bvid : jsstr)
  : completion (jsstr * jsstr) :=
  match matchValue url bvRegex, matchValue url avRegex with
  | Normal bvMatch, Normal avMatch =>
      match bvMatch, avMatch with
      | Some (_, g), _ => Normal (g, [])
      | None, Some (_, g) => Normal (bvid, g)
      | None, None => Normal (bvid, [])
      end
  | Throw e, _ => Throw e
  | _, Throw e => Throw e
  end.

(** *** [parseVideoInput], first revision  (lines 10-180) *)
Definition parseVideoInput (input : jsstr) : M ParsedVideoData.t :=
  ' (url, bvid0) <- resolveShortLink (trim input) ;;
  ' (bvid, avid) <- lift (extractIds url bvid0) ;;
  parseIdentified url bvid avid.

End Pipeline.

(** *** [parseVideoInput], second revision  (lines 196-372)

    Steps A, B, C, 3 and 4 are those of the first revision, line for
    line; the short-link step and the guard around step 2 differ. *)

Module Rev2.
Section Pipeline.

Variable host : Host.

Local Open Scope js_scope.

(** 1. Resolve b23.tv short links  (lines 202-229) *)
Definition resolveShortLink (url : jsstr) : M (value * jsstr) :=
  if includes url (lit "b23.tv") then
    tryCatch
      (enc <- lift (encodeURIComponent url) ;;
       t <- dateNow host ;;
       let resolveUrl := PROXY_JSON ++ enc ++ lit "&t=" ++ numberToString t in
       response <- fetch host resolveUrl ;;
       data <- json response ;;
       status <- lift (getProp data "status") ;;
       followed <-
         (if truthy (optProp status "url") then
            inc <- lift (includesValue (prop status "url") (lit "b23.tv")) ;;
            ret (negb inc)
          else ret false) ;;
       if (followed : bool) then ret (prop status "url", [])
       else if truthy (prop data "contents") then
         urlMatch <- lift (matchValue (prop data "contents")
                             bilibiliUrlRegex) ;;
         match urlMatch with
         | Some (whole, g) => ret (VStr whole, g)
         | None =>
             rawBvMatch <- lift (matchValue (prop data "contents")
                                   bvRegex) ;;
             match rawBvMatch with
             | Some (_, g) => ret (VStr url, g)
             | None => ret (VStr url, [])
             end
         end
       else ret (VStr url, []))
      (ret (VStr url, []))
  else ret (VStr url, []).

(** 2. Extract IDs, unless step 1 found one  (lines 232-238) *)
Definition extractIds (url : value) (bvid : jsstr)
  : completion (jsstr * jsstr) :=
  if negb (nonEmpty bvid) then
    match matchValue url bvRegex, matchValue url avRegex with
    | Normal bvMatch, Normal avMatch =>
        match bvMatch, avMatch with
        | Some (_, g), _ => Normal (g, [])
        | None, Some (_, g) => Normal (bvid, g)
        | None, None => Normal (bvid, [])
        end
    | Throw e, _ => Throw e
    | _, Throw e => Throw e
    end
  else Normal (bvid, []).

Definition parseVideoInput (input : jsstr) : M ParsedVideoData.t :=
  ' (url, bvid0) <- resolveShortLink (trim input) ;;
  ' (bvid, avid) <- lift (extractIds url bvid0) ;;
  parseIdentified host url bvid avid.

End Pipeline.
End Rev2.

(** ** Hosts and inputs used in examples *)

(** No request gets through. *)
Definition offline : Host :=
  {| now := fun k => (1700000000000 + Z.of_nat k)%Z;
     respond := fun _ _ => NetworkError;
     coerced := fun _ => [] |}.

(** The [k]-th request of a run is answered with the [k]-th body of the
    list, later ones fail. *)
Definition scripted (bodies : list (option value)) : Host :=
  {| now := fun k => (1700000000000 + Z.of_nat k)%Z;
     respond := fun k _ => match nth_error bodies k with
                           | Some b => Response b
                           | None => NetworkError
                           end;
     coerced := fun _ => [] |}.

(** [{"code":0,"url":"https://x/y.mp4"}] *)
Definition streamSuccess : value :=
  VObj [(lit "code", VNum 0); (lit "url", VStr (lit "https://x/y.mp4"))].

(** [{"code":0,"data":{"title":"Demo","pic":"https://i/p.jpg","desc":"d","duration":125}}] *)
Definition metaSuccess : value :=
  VObj [(lit "code", VNum 0);
        (lit "data",
         VObj [(lit "title", VStr (lit "Demo"));
               (lit "pic", VStr (lit "https://i/p.jpg"));
               (lit "desc", VStr (lit "d"));
               (lit "duration", VNum 125)])].

(** ** Notions used in the statements *)

(** What the player relies on: a source at index 0, and under an iframe
    player that source is not downloadable. *)
Definition playable (r : ParsedVideoData.t) : Prop :=
  exists s, nth_error (ParsedVideoData.sources r) 0 = Some s
    /\ (ParsedVideoData.playerType r = iframe ->
        VideoSource.isDownloadable s = Some false).

(** What the stream step makes of the outcome of its request:
    [directUrl] and [parseError]. *)
Definition streamOutcome (res : FetchResult) : value * bool :=
  match res with
  | Response (Some j) =>
      if truthy j && isZero (prop j "code") && truthy (prop j "url")
      then (prop j "url", false)
      else (VStr [], true)
  | Response None => (VStr [], true)
  | NetworkError => (VStr [], true)
  end.

(** The URL the stream step fetches at clock reading [t]. *)
Definition proxyUrlOf (enc : jsstr) (t : Z) : jsstr :=
  PROXY_RAW ++ enc ++ lit "&t=" ++ numberToString t.

Definition fileLikeInput : jsstr := lit "https://cdn.example.com/flav123.mp4".

(** What [parseVideoInput] resolves with on [fileLikeInput] when both
    requests are answered. *)
Definition fileLikeResult : ParsedVideoData.t :=
  Eval vm_compute in
    match fst (parseVideoInput (scripted [Some metaSuccess; Some streamSuccess])
                 fileLikeInput startWorld) with
    | Normal r => r
    | Throw _ => youtubeResult []
    end.

(** Every character a match of [r] can consume satisfies [P]. *)
Fixpoint within (P : N -> bool) (r : regex) : Prop :=
  match r with
  | Empty | End => True
  | Char c => P c = true
  | Class p => forall c, p c = true -> P c = true
  | Cat r1 r2 | Alt r1 r2 => within P r1 /\ within P r2
  | Star r1 => within P r1
  end.

(** *** Query parameters of a URL

    What follows the first [?], cut at every [&]; each piece is a name
    and, after its first [=], a value. *)

Fixpoint afterFirst (sep : N) (s : jsstr) : option jsstr :=
  match s with
  | [] => None
  | c :: s' => if N.eqb c sep then Some s' else afterFirst sep s'
  end.

Fixpoint beforeFirst (sep : N) (s : jsstr) : jsstr :=
  match s with
  | [] => []
  | c :: s' => if N.eqb c sep then [] else c :: beforeFirst sep s'
  end.

Definition nameValue (piece : jsstr) : jsstr * jsstr :=
  (beforeFirst 61 piece,
   match afterFirst 61 piece with Some v => v | None => [] end).

Definition queryParams (u : jsstr) : list (jsstr * jsstr) :=
  match afterFirst 63 u with
  | Some q => map nameValue (split 38 q)
  | None => []
  end.

Definition hasParam (name : string) (u : jsstr) : bool :=
  existsb (fun nv => jsstr_eqb (fst nv) (lit name)) (queryParams u).

Fixpoint paramValue (name : string) (params : list (jsstr * jsstr))
  : option jsstr :=
  match params with
  | [] => None
  | (k, v) :: rest => if jsstr_eqb k (lit name) then Some v
                      else paramValue name rest
  end.

(** * The player's download effect  (VideoPlayer.tsx, lines 22-113, 158-161)

    One mounted [VideoPlayer].  Its React state is the first group of
    fields; every run of [fetchVideo] is a transfer, named by its index,
    with its own [isAborted] flag and its place in the code; the browser
    keeps the object URLs that were created and not revoked.  Each event
    is one uninterrupted stretch of the code: a render with its cleanup
    and effect, the unmount, a click on the skip button, or the code of
    [fetchVideo] between two [await]s. *)

Module Player.

(** Where a run of [fetchVideo] is suspended. *)
Inductive Stage :=
| AwaitingResponse
| Reading (total loaded : Z) (chunks : list nat)
| Settled.

Record Transfer := {
  isAborted : bool;
  stage : Stage
}.

Record State := {
  (* React state *)
  isPlaying : bool;
  currentTime : Q;
  downloadProgress : Q;
  isDownloading : bool;
  blobUrl : option nat;
  useDirectStream : bool;
  capturedImage : option jsstr;
  (* the props of the last render, and whether the player is gone *)
  props : option (jsstr * PlayerType);
  unmounted : bool;
  (* the runs of fetchVideo, and the one the pending cleanup aborts *)
  transfers : list Transfer;
  cleanup : option nat;
  (* URL.createObjectURL / URL.revokeObjectURL *)
  objectUrls : list nat;
  created : nat
}.

Definition initial : State :=
  {| isPlaying := false; currentTime := 0%Q; downloadProgress := 0%Q;
     isDownloading := false; blobUrl := None; useDirectStream := false;
     capturedImage := None; props := None; unmounted := false;
     transfers := []; cleanup := None; objectUrls := []; created := 0 |}.

Inductive Event :=
| Render (url : jsstr) (playerType : PlayerType)
| Unmount
| SkipDownload
| Responded (id : nat) (ok hasBody : bool) (contentLength : option Z)
| Chunk (id : nat) (value : option nat)
| Done (id : nat)
| Failed (id : nat) (abortError : bool).

Fixpoint setNth (A : Type) (i : nat) (x : A) (l : list A) : list A :=
  match l, i with
  | [], _ => []
  | _ :: l', O => x :: l'
  | y :: l', S i' => y :: setNth i' x l'
  end.

Definition setTransfer (id : nat) (t : Transfer) (s : State) : State :=
  {| isPlaying := isPlaying s; currentTime := currentTime s;
     downloadProgress := downloadProgress s;
     isDownloading := isDownloading s; blobUrl := blobUrl s;
     useDirectStream := useDirectStream s;
     capturedImage := capturedImage s; props := props s;
     unmounted := unmounted s;
     transfers := setNth id t (transfers s);
     cleanup := cleanup s; objectUrls := objectUrls s;
     created := created s |}.

Definition setDownloadProgress (p : Q) (s : State) : State :=
  {| isPlaying := isPlaying s; currentTime := currentTime s;
     downloadProgress := p;
     isDownloading := isDownloading s; blobUrl := blobUrl s;
     useDirectStream := useDirectStream s;
     capturedImage := capturedImage s; props := props s;
     unmounted := unmounted s; transfers := transfers s;
     cleanup := cleanup s; objectUrls := objectUrls s;
     created := created s |}.

(** [setUseDirectStream(true); setIsDownloading(false);] *)
Definition fallBack (s : State) : State :=
  {| isPlaying := isPlaying s; currentTime := currentTime s;
     downloadProgress := downloadProgress s;
     isDownloading := false; blobUrl := blobUrl s;
     useDirectStream := true;
     capturedImage := capturedImage s; props := props s;
     unmounted := unmounted s; transfers := transfers s;
     cleanup := cleanup s; objectUrls := objectUrls s;
     created := created s |}.

(** The cleanup of the last effect (lines 109-112):
    [isAborted = true; controller.abort();] *)
Definition runCleanup (s : State) : State :=
  match cleanup s with
  | Some id =>
      match nth_error (transfers s) id with
      | Some t =>
          {| isPlaying := isPlaying s; currentTime := currentTime s;
             downloadProgress := downloadProgress s;
             isDownloading := isDownloading s; blobUrl := blobUrl s;
             useDirectStream := useDirectStream s;
             capturedImage := capturedImage s; props := props s;
             unmounted := unmounted s;
             transfers :=
               setNth id {| isAborted := true; stage := stage t |}
                 (transfers s);
             cleanup := None; objectUrls := objectUrls s;
             created := created s |}
      | None => s
      end
  | None => s
  end.

(** The effect (lines 31-107), with the state as the render saw it. *)
Definition runEffect (url : jsstr) (playerType : PlayerType) (s : State)
  : State :=
  let live :=
    match blobUrl s with
    | Some h => remove Nat.eq_dec h (objectUrls s)
    | None => objectUrls s
    end in
  match playerType with
  | iframe =>
      {| isPlaying := false; currentTime := 0%Q; downloadProgress := 0%Q;
         isDownloading := isDownloading s; blobUrl := None;
         useDirectStream := false; capturedImage := None;
         props := Some (url, playerType); unmounted := unmounted s;
         transfers := transfers s; cleanup := None;
         objectUrls := live; created := created s |}
  | native =>
      {| isPlaying := false; currentTime := 0%Q; downloadProgress := 0%Q;
         isDownloading := true; blobUrl := None;
         useDirectStream := false; capturedImage := None;
         props := Some (url, playerType); unmounted := unmounted s;
         transfers :=
           transfers s ++ [ {| isAborted := false;
                               stage := AwaitingResponse |} ];
         cleanup := Some (List.length (transfers s));
         objectUrls := live; created := created s |}
  end.

Definition sameProps (a : option (jsstr * PlayerType))
  (url : jsstr) (playerType : PlayerType) : bool :=
  match a with
  | Some (u, native) =>
      match playerType with native => jsstr_eqb u url | iframe => false end
  | Some (u, iframe) =>
      match playerType with iframe => jsstr_eqb u url | native => false end
  | None => false
  end.

(** [Math.min((loaded / total) * 100, 99)] *)
Definition progressOf (loaded total : Z) : Q :=
  Qmin (inject_Z loaded / inject_Z total * 100) 99.

(** The [catch] of [fetchVideo] (lines 93-104). *)
Definition caught (id : nat) (t : Transfer) (abortError : bool) (s : State)
  : State :=
  let s' := setTransfer id {| isAborted := isAborted t; stage := Settled |} s in
  if abortError then s'
  else if negb (isAborted t) then fallBack s' else s'.

(** The code run when the blob is complete (lines 85-92). *)
Definition finish (id : nat) (t : Transfer) (s : State) : State :=
  let h := created s in
  if negb (isAborted t) then
    {| isPlaying := isPlaying s; currentTime := currentTime s;
       downloadProgress := 100%Q;
       isDownloading := false; blobUrl := Some h;
       useDirectStream := useDirectStream s;
       capturedImage := capturedImage s; props := props s;
       unmounted := unmounted s;
       transfers :=
         setNth id {| isAborted := isAborted t; stage := Settled |}
           (transfers s);
       cleanup := cleanup s; objectUrls := h :: objectUrls s;
       created := S h |}
  else
    {| isPlaying := isPlaying s; currentTime := currentTime s;
       downloadProgress := downloadProgress s;
       isDownloading := isDownloading s; blobUrl := blobUrl s;
       useDirectStream := useDirectStream s;
       capturedImage := capturedImage s; props := props s;
       unmounted := unmounted s;
       transfers :=
         setNth id {| isAborted := isAborted t; stage := Settled |}
           (transfers s);
       cleanup := cleanup s; objectUrls := h :: objectUrls s;
       created := S h |}.

Definition step (s : State) (e : Event) : State :=
  match e with
  | Render url playerType =>
      if unmounted s || sameProps (props s) url playerType then s
      else runEffect url playerType (runCleanup s)
  | Unmount =>
      if unmounted s then s
      else
        let s' := runCleanup s in
        {| isPlaying := isPlaying s'; currentTime := currentTime s';
           downloadProgress := downloadProgress s';
           isDownloading := isDownloading s'; blobUrl := blobUrl s';
           useDirectStream := useDirectStream s';
           capturedImage := capturedImage s'; props := props s';
           unmounted := true; transfers := transfers s';
           cleanup := cleanup s'; objectUrls := objectUrls s';
           created := created s' |}
  | SkipDownload => fallBack s
  | Responded id ok hasBody contentLength =>
      match nth_error (transfers s) id with
      | Some t =>
          match stage t with
          | AwaitingResponse =>
              if ok && hasBody then
                let total := match contentLength with
                             | Some n => n
                             | None => 0%Z
                             end in
                setTransfer id {| isAborted := isAborted t;
                                  stage := Reading total 0 [] |} s
              else caught id t false s
          | _ => s
          end
      | None => s
      end
  | Chunk id value =>
      match nth_error (transfers s) id with
      | Some t =>
          match stage t, value with
          | Reading total loaded chunks, Some len =>
              let loaded' := (loaded + Z.of_nat len)%Z in
              let s' := setTransfer id
                          {| isAborted := isAborted t;
                             stage := Reading total loaded'
                                        (chunks ++ [len]) |} s in
              if (0 <? total)%Z
              then setDownloadProgress (progressOf loaded' total) s'
              else s'
          | _, _ => s
          end
      | None => s
      end
  | Done id =>
      match nth_error (transfers s) id with
      | Some t =>
          match stage t with
          | Reading _ _ _ => finish id t s
          | _ => s
          end
      | None => s
      end
  | Failed id abortError =>
      match nth_error (transfers s) id with
      | Some t =>
          match stage t with
          | Settled => s
          | _ => caught id t abortError s
          end
      | None => s
      end
  end.

Fixpoint run (s : State) (events : list Event) : State :=
  match events with
  | [] => s
  | e :: rest => run (step s e) rest
  end.

(** The states after each event, in order. *)
Fixpoint trace (s : State) (events : list Event) : list State :=
  match events with
  | [] => []
  | e :: rest => step s e :: trace (step s e) rest
  end.

(** The transfer an event belongs to. *)
Definition transferOf (e : Event) : option nat :=
  match e with
  | Responded id _ _ _ | Chunk id _ | Done id | Failed id _ => Some id
  | Render _ _ | Unmount | SkipDownload => None
  end.

(** A fetch failure that is not a cancellation: a rejection other than
    [AbortError], or a response that is not ok or has no body (lines
    62-63 throw). *)
Definition isFailure (e : Event) : bool :=
  match e with
  | Failed _ abortError => negb abortError
  | Responded _ ok hasBody _ => negb (ok && hasBody)
  | _ => false
  end.

(** The event is the outcome of the [await] the transfer is suspended
    at: the response or the rejection of [fetch], a chunk, the end or
    the rejection of [reader.read()]. *)
Definition awaited (e : Event) (t : Transfer) : bool :=
  match e, stage t with
  | Responded _ _ _ _, AwaitingResponse => true
  | Chunk _ _, Reading _ _ _ => true
  | Done _, Reading _ _ _ => true
  | Failed _ _, AwaitingResponse => true
  | Failed _ _, Reading _ _ _ => true
  | _, _ => false
  end.

(** The React state, without the bookkeeping of the model. *)
Definition view (s : State)
  : bool * Q * Q * bool * option nat * bool * option jsstr :=
  (isPlaying s, currentTime s, downloadProgress s, isDownloading s,
   blobUrl s, useDirectStream s, capturedImage s).

(** A successful full download of [url] by a player in state [s]:
    the render that starts it, the response, the chunks, the end. *)
Definition download (s : State) (url : jsstr) (contentLength : option Z)
  (values : list (option nat)) : list Event :=
  let id := List.length (transfers s) in
  Render url native :: Responded id true true contentLength
    :: map (Chunk id) values ++ [Done id].

Fixpoint nonDecreasing (l : list Q) : Prop :=
  match l with
  | [] => True
  | p :: rest =>
      match rest with
      | [] => True
      | q :: _ => (p <= q)%Q /\ nonDecreasing rest
      end
  end.

(** After the events [events], delivered to [s], nothing the transfer
    [id] did has set the blob handle, switched to the direct stream or
    written a progress of 100. *)
Fixpoint silent (id : nat) (s : State) (events : list Event) : Prop :=
  match events with
  | [] => True
  | e :: rest =>
      (transferOf e = Some id ->
       blobUrl (step s e) = blobUrl s
       /\ useDirectStream (step s e) = useDirectStream s
       /\ isDownloading (step s e) = isDownloading s
       /\ (downloadProgress (step s e) = downloadProgress s
           \/ (downloadProgress (step s e) <= 99)%Q))
      /\ silent id (step s e) rest
  end.

(** Nothing the transfer [id] does while [events] are delivered to
    [s] changes what the player shows. *)
Fixpoint unseen (id : nat) (s : State) (events : list Event) : Prop :=
  match events with
  | [] => True
  | e :: rest =>
      (transferOf e = Some id -> view (step s e) = view s)
      /\ unseen id (step s e) rest
  end.

End Player.

(** Notions used in the statements about the player. *)

(** The transfer [id] exists and its [isAborted] flag is set. *)
Definition aborted (id : nat) (s : Player.State) : Prop :=
  exists t, nth_error (Player.transfers s) id = Some t
            /\ Player.isAborted t = true.

(** The transfer [id] exists and [fetchVideo] has returned. *)
Definition settled (id : nat) (s : Player.State) : Prop :=
  exists t, nth_error (Player.transfers s) id = Some t
            /\ Player.stage t = Player.Settled.

(** In every state the player can reach, a progress above 99 is the 100
    written together with the blob handle. *)
Definition progressHonest (s : Player.State) : Prop :=
  (Player.downloadProgress s <= 99)%Q
  \/ (Player.downloadProgress s = 100%Q /\ Player.blobUrl s <> None).

(** The pending cleanup names a transfer that exists. *)
Definition cleanupBound (s : Player.State) : Prop :=
  forall id, Player.cleanup s = Some id ->
             (id < List.length (Player.transfers s))%nat.

(** A player that buffered a file and was then unmounted. *)
Definition bufferedThenUnmounted : list Player.Event :=
  [ Player.Render (lit "https://x/y.mp4") native;
    Player.Responded 0 true true (Some 4%Z);
    Player.Chunk 0 (Some 4);
    Player.Done 0;
    Player.Unmount ].

(** A player that buffered a file and was then given another source. *)
Definition bufferedThenReloaded : list Player.Event :=
  [ Player.Render (lit "https://x/y.mp4") native;
    Player.Responded 0 true true (Some 4%Z);
    Player.Chunk 0 (Some 4);
    Player.Done 0;
    Player.Render (lit "https://x/z.mp4") native ].


(** * Further notions, for the properties of the rest of the code *)

From Stdlib Require Import Qround.
Close Scope Q_scope.

Unset Implicit Arguments.

(** What the greedy repetition of a character class does, written as a
    recursion on the input: take the character if the class has it, try
    the rest, and on failure give the character back. *)
Fixpoint starClass {R : Type} (p : N -> bool) (s : jsstr)
  (k : jsstr -> option R) : option R :=
  match s with
  | c :: s' =>
      if p c then
        match starClass p s' k with
        | Some x => Some x
        | None => k s
        end
      else k s
  | [] => k s
  end.

(** The identifiers step 2 of [parseVideoInput] settles on, for a URL
    that is a string: the BV id if there is one, else the av id. *)
Definition idsOf (url : jsstr) : jsstr * jsstr :=
  match jsmatch bvRegex url, jsmatch avRegex url with
  | Some (_, g), _ => (g, [])
  | None, Some (_, g) => ([], g)
  | None, None => ([], [])
  end.


(** An expression that cannot match without consuming a character. *)
Fixpoint consuming (r : regex) : Prop :=
  match r with
  | Char _ | Class _ => True
  | Cat r1 r2 => consuming r1 \/ consuming r2
  | Alt r1 r2 => consuming r1 /\ consuming r2
  | Empty | Star _ | End => False
  end.

(** A computation that leaves the world as it found it. *)
Definition pure {A : Type} (c : M A) : Prop := forall w, snd (c w) = w.

(** [u] is a request through one of the two proxies for some encoded
    target, with [t] as its timestamp: its parameters are [url] and
    [t] and nothing else. *)
Definition throughProxy (u : jsstr) (t : Z) : Prop :=
  exists proxy target enc,
    (proxy = PROXY_RAW \/ proxy = PROXY_JSON)
    /\ encodeURIComponent target = Normal enc
    /\ u = proxy ++ enc ++ lit "&t=" ++ numberToString t
    /\ queryParams u = [(lit "url", enc); (lit "t", numberToString t)].

(** The requests [urls] carry, in order, the clock readings from the
    [k]-th on. *)
Fixpoint stampedFrom (host : Host) (k : nat) (urls : list jsstr) : Prop :=
  match urls with
  | [] => True
  | u :: rest => throughProxy u (now host k) /\ stampedFrom host (S k) rest
  end.

(** From [w] to [w'] at most [bound] requests were added, each with a
    clock reading of its own as timestamp, and the clock was read for
    nothing else. *)
Definition accounted (host : Host) (w w' : World) (bound : nat) : Prop :=
  exists added,
    requests w' = requests w ++ added
    /\ clockReads w' = (clockReads w + List.length added)%nat
    /\ (List.length added <= bound)%nat
    /\ stampedFrom host (clockReads w) added.

(** The target of the metadata request (lines 44-45). *)
Definition metaUrlOf (bvid avid : jsstr) : jsstr :=
  lit "https://api.bilibili.com/x/web-interface/view?"
  ++ (if nonEmpty bvid then lit "bvid=" ++ bvid else lit "aid=" ++ avid).

(** What the metadata step makes of the outcome of its request. *)
Definition metadataOutcome (res : FetchResult) : value :=
  match res with
  | Response (Some j) =>
      match getProp j "code" with
      | Normal code => if isZero code then prop j "data" else VObj []
      | Throw _ => VObj []
      end
  | Response None => VObj []
  | NetworkError => VObj []
  end.

(** The metadata request failed: no response, a body that is not JSON,
    or JSON whose [code] is not the number 0 (which includes [null]). *)
Definition metadataFailed (res : FetchResult) : Prop :=
  match res with
  | NetworkError => True
  | Response None => True
  | Response (Some j) => isZero (optProp j "code") = false
  end.

(** The title synthesized when the metadata has none (line 88). *)
Definition placeholderTitle (ident : jsstr) : value :=
  VStr (lit "Bilibili " ++ [35270; 39057]%N ++ lit " (" ++ ident ++ lit ")").

(** A character of a YouTube id, as the pattern has it: anything but a
    double quote, [&], [?], [/] and white space. *)
Definition ytIdChar (c : N) : bool :=
  negb (N.eqb c 34 || oneOf "&?/" c || isWhiteSpace c).

(** No [/] in the string. *)
Definition noSlash (s : jsstr) : bool :=
  forallb (fun c => negb (oneOf "/" c)) s.

(** The first alternative of [ytRegex] after [youtube.com/]:
    [[^\/]+\/.+\/]. *)
Definition ytA1 : regex :=
  Cat (plus (Class (fun c => negb (oneOf "/" c))))
    (Cat (Char 47%N) (Cat (plus dot) (Char 47%N))).

(** The three usual forms of a YouTube link, up to the video id. *)
Definition ytForms : list jsstr :=
  [ lit "https://www.youtube.com/watch?v=";
    lit "https://youtu.be/";
    lit "https://www.youtube.com/embed/" ].

(** ** Direct files *)

(** The lower-case form of an ASCII letter; other code units are left
    as they are. *)
Definition lowerAscii (c : N) : N :=
  if ((65 <=? c) && (c <=? 90))%N then (c + 32)%N else c.

Definition mediaExtensions : list jsstr :=
  [lit "mp4"; lit "webm"; lit "ogg"; lit "mov"].

(** The string ends in a dot and one of the four extensions, in any
    case. *)
Definition hasMediaExtension (s : jsstr) : Prop :=
  exists base ext,
    s = base ++ 46%N :: ext /\ In (map lowerAscii ext) mediaExtensions.

(** ** Short links *)

(** The URL step 1 fetches at clock reading [t]  (lines 19 and 205). *)
Definition resolveUrlOf (enc : jsstr) (t : Z) : jsstr :=
  PROXY_JSON ++ enc ++ lit "&t=" ++ numberToString t.

(** The world after the one request of step 1. *)
Definition afterResolve (host : Host) (enc : jsstr) (w : World) : World :=
  {| clockReads := S (clockReads w);
     requests := requests w ++ [resolveUrlOf enc (now host (clockReads w))] |}.

(** What the proxy answered to the request of step 1. *)
Definition resolveAnswer (host : Host) (enc : jsstr) (w : World)
  : FetchResult :=
  respond host (List.length (requests w))
    (resolveUrlOf enc (now host (clockReads w))).

(** The short link was not resolved: no response, a body that is not
    JSON, or JSON with neither a [status.url] nor [contents]. *)
Definition unresolved (res : FetchResult) : Prop :=
  match res with
  | NetworkError => True
  | Response None => True
  | Response (Some data) =>
      truthy (optProp (prop data "status") "url") = false
      /\ truthy (prop data "contents") = false
  end.

(** The proxy followed the redirect to [final]. *)
Definition redirectedTo (res : FetchResult) (final : jsstr) : Prop :=
  match res with
  | Response (Some data) =>
      optProp (prop data "status") "url" = VStr final
      /\ nonEmpty final = true
      /\ includes final (lit "b23.tv") = false
  | _ => False
  end.

(** The proxy did not follow the redirect: it reports no [status.url],
    or one that is still a short link. *)
Definition notFollowed (data : value) : Prop :=
  truthy (optProp (prop data "status") "url") = false
  \/ exists s, optProp (prop data "status") "url" = VStr s
               /\ includes s (lit "b23.tv") = true.

(** A proxy that follows the redirect to a YouTube link. *)
Definition followingProxy : Host :=
  scripted
    [ Some (VObj [(lit "status",
                   VObj [(lit "url",
                          VStr (lit "https://www.youtube.com/watch?v=dQw4w9WgXcQ"))])]) ].

(** A proxy that hands back the short link and the page behind it. *)
Definition pageProxy : Host :=
  scripted
    [ Some (VObj [(lit "status",
                   VObj [(lit "url", VStr (lit "https://b23.tv/abc123"))]);
                  (lit "contents",
                   VStr (lit "<a href=https://www.bilibili.com/video/BV1xx411c7mD>"))]) ].

(** ** What the player shows  (VideoPlayer.tsx, lines 222-223, 249, 266) *)

(** [blobUrl || (useDirectStream ? url : undefined)] *)
Inductive Src :=
| BlobSrc (handle : nat)
| UrlSrc (url : jsstr)
| NoSrc.

Definition activeSrc (url : jsstr) (s : Player.State) : Src :=
  match Player.blobUrl s with
  | Some h => BlobSrc h
  | None => if Player.useDirectStream s then UrlSrc url else NoSrc
  end.

(** [activeSrc && <video .../>]: an object URL is never empty. *)
Definition videoShown (src : Src) : bool :=
  match src with
  | BlobSrc _ => true
  | UrlSrc u => nonEmpty u
  | NoSrc => false
  end.

(** [isDownloading && !blobUrl && !useDirectStream] *)
Definition showLoadingOverlay (s : Player.State) : bool :=
  Player.isDownloading s
  && negb (match Player.blobUrl s with Some _ => true | None => false end)
  && negb (Player.useDirectStream s).

(** The handle the player holds is an object URL that is still live. *)
Definition liveHandle (s : Player.State) : Prop :=
  forall h, Player.blobUrl s = Some h -> In h (Player.objectUrls s).

(** Every live object URL was created before now. *)
Definition freshHandles (s : Player.State) : Prop :=
  forall h, In h (Player.objectUrls s) -> (h < Player.created s)%nat.

(** A transfer that is not aborted is the one the pending cleanup names,
    it is the last one started, and the player is still mounted. *)
Definition oneLive (s : Player.State) : Prop :=
  forall id t,
    nth_error (Player.transfers s) id = Some t ->
    Player.isAborted t = false ->
    Player.cleanup s = Some id
    /\ S id = List.length (Player.transfers s)
    /\ Player.unmounted s = false.

(** A native player is loading, or has a blob, or streams directly. *)
Definition sourceOrOverlay (s : Player.State) : Prop :=
  forall url, Player.props s = Some (url, native) ->
    Player.isDownloading s = true \/ Player.blobUrl s <> None
    \/ Player.useDirectStream s = true.

(** A player that is reading the body of its first download. *)
Definition readingPlayer : Player.State :=
  Player.run Player.initial
    [ Player.Render (lit "https://x/y.mp4") native;
      Player.Responded 0 true true (Some 4%Z) ].

(** ** What the player commits

    A render runs the component with the props it is given and the
    state as it is, and commits the result.  When [url] or [playerType]
    changed (and on mount), the cleanup and the effect run after that
    commit, and what they write is committed by the render that follows.
    Every other event writes state and is followed by one render (the
    writes of one stretch of code make one update).  No other event is
    taken to arrive between a commit and the effect that follows it.  A
    frame is one commit: the props and the state it was rendered from,
    and whether the effect for these props had yet to run. *)
Record Frame := {
  frameUrl : jsstr;
  frameType : PlayerType;
  frameState : Player.State;
  beforeEffect : bool
}.

Definition framesOf (s : Player.State) (e : Player.Event) : list Frame :=
  if Player.unmounted s then []
  else
    match e with
    | Player.Render url playerType =>
        if Player.sameProps (Player.props s) url playerType
        then [ {| frameUrl := url; frameType := playerType;
                  frameState := s; beforeEffect := false |} ]
        else [ {| frameUrl := url; frameType := playerType;
                  frameState := s; beforeEffect := true |};
               {| frameUrl := url; frameType := playerType;
                  frameState := Player.step s e; beforeEffect := false |} ]
    | Player.Unmount => []
    | _ =>
        match Player.props s with
        | Some (url, playerType) =>
            [ {| frameUrl := url; frameType := playerType;
                 frameState := Player.step s e; beforeEffect := false |} ]
        | None => []
        end
    end.

(** The frames committed while [events] are delivered to [s], in
    order. *)
Fixpoint frames (s : Player.State) (events : list Player.Event)
  : list Frame :=
  match events with
  | [] => []
  | e :: rest => framesOf s e ++ frames (Player.step s e) rest
  end.

(** The props of the last effect are those of the frame. *)
Definition propsOf (f : Frame) : option (jsstr * PlayerType) :=
  Some (frameUrl f, frameType f).

(** A player that buffered a file. *)
Definition buffered : list Player.Event :=
  [ Player.Render (lit "https://x/y.mp4") native;
    Player.Responded 0 true true (Some 4%Z);
    Player.Chunk 0 (Some 4);
    Player.Done 0 ].

(** A player given a new file while it was reading the body of the
    first. *)
Definition reloadedWhileReading : list Player.Event :=
  [ Player.Render (lit "https://x/y.mp4") native;
    Player.Responded 0 true true (Some 4%Z);
    Player.Render (lit "https://x/z.mp4") native ].

(** ** Escaping and unescaping *)

(** [e] unescapes to [s]. *)
Definition decodesTo (e s : jsstr) : Prop :=
  exists ts, tokens e = Some ts /\ decodeTokens ts = Some s.

(** Code units are 16 bits wide. *)
Definition codeUnits (s : jsstr) : Prop := Forall (fun c => (c < 65536)%N) s.

(** * The application  (App.tsx)

    The state of [App] that [handleParse] and [handleDemoClick] read and
    write.  [DEMO_VIDEO_URL] comes from [./constants], a module outside
    the files modelled here, and is left open; so is the title of the
    demo entry, in which the two revisions of the file differ.  [parse]
    is the imported [parseVideoInput]. *)

Module App.

(** [AppStatus]  (types.ts) *)
Inductive AppStatus := IDLE | PARSING | SUCCESS | ERROR.

Record State := {
  darkMode : bool;
  inputUrl : jsstr;
  status : AppStatus;
  data : option ParsedVideoData.t;
  errorMsg : jsstr;
  downloadingUrl : option jsstr
}.

Definition initial : State :=
  {| darkMode := true; inputUrl := []; status := IDLE; data := None;
     errorMsg := []; downloadingUrl := None |}.

(** The titles of the demo entry (line 42, and line 348 of the later
    revision). *)
Definition demoTitle1 : jsstr :=
  [28436; 31034; 35270; 39057]%N ++ lit ": Big Buck Bunny (1080P High Quality)".
Definition demoTitle2 : jsstr :=
  [28436; 31034; 35270; 39057]%N ++ lit ": Big Buck Bunny".

(** The message of line 50. *)
Definition unsupportedMessage : jsstr :=
  [26080; 27861; 35299; 26512; 35813; 38142; 25509; 65292; 35831; 30830;
   35748; 26684; 24335; 27491; 30830]%N
  ++ lit " (" ++ [25903; 25345]%N ++ lit ": B" ++ [31449]%N
  ++ lit " BV/av/b23.tv, YouTube, " ++ [30452; 38142]%N ++ lit "MP4)".

Section Handlers.

Variable parse : jsstr -> M ParsedVideoData.t.
Variable DEMO_VIDEO_URL : jsstr.
Variable demoTitle : jsstr.

(** The entry of lines 40-46. *)
Definition demoData : ParsedVideoData.t :=
  {| ParsedVideoData.id := lit "demo_123";
     ParsedVideoData.title := VStr demoTitle;
     ParsedVideoData.platform := direct;
     ParsedVideoData.playerType := native;
     ParsedVideoData.thumbnailUrl := None;
     ParsedVideoData.duration := None;
     ParsedVideoData.sources :=
       [ {| VideoSource.url := VStr DEMO_VIDEO_URL;
            VideoSource.format := lit "MP4";
            VideoSource.quality := lit "1080P";
            VideoSource.size := Some (lit "24MB");
            VideoSource.isDownloadable := Some true |} ];
     ParsedVideoData.description := None;
     ParsedVideoData.aiSummary := None |}.

(** [setStatus(st); setData(d); setErrorMsg(msg)] *)
Definition settle (a : State) (st : AppStatus)
  (d : option ParsedVideoData.t) (msg : jsstr) : State :=
  {| darkMode := darkMode a; inputUrl := inputUrl a; status := st;
     data := d; errorMsg := msg; downloadingUrl := downloadingUrl a |}.

(** What the page shows while [parseVideoInput] is awaited
    (lines 29-31). *)
Definition parsing (a : State) : State := settle a PARSING None [].

(** [handleParse]  (lines 26-53): the state when the handler is done.
    The input is the one of the render the handler belongs to; every
    write after the [await] sets a field outright. *)
Definition handleParse (a : State) : World -> State * World :=
  fun w =>
    if negb (nonEmpty (trim (inputUrl a))) then (a, w)
    else
      match parse (inputUrl a) w with
      | (Normal result, w') => (settle a SUCCESS (Some result) [], w')
      | (Throw _, w') =>
          if includes (inputUrl a) (lit "demo")
          then (settle a SUCCESS (Some demoData) [], w')
          else (settle a ERROR None unsupportedMessage, w')
      end.

(** [handleDemoClick]  (lines 55-57) *)
Definition handleDemoClick (a : State) : State :=
  {| darkMode := darkMode a;
     inputUrl := lit "https://www.bilibili.com/video/BV1GJ411x7h7";
     status := status a; data := data a; errorMsg := errorMsg a;
     downloadingUrl := downloadingUrl a |}.

(** The props the page hands to [VideoPlayer]  (lines 181-192):
    [url={data.sources[0].url}] throws on an empty [sources]. *)
Definition playerProps (a : State)
  : option (completion (value * PlayerType)) :=
  match status a, data a with
  | SUCCESS, Some d =>
      Some match ParsedVideoData.sources d with
           | s :: _ => Normal (VideoSource.url s, ParsedVideoData.playerType d)
           | [] => Throw TypeError
           end
  | _, _ => None
  end.

End Handlers.

(** The page after [s] was typed into the input field. *)
Definition typed (s : jsstr) : State :=
  {| darkMode := true; inputUrl := s; status := IDLE; data := None;
     errorMsg := []; downloadingUrl := None |}.

End App.

(** ** The clock of the player  (VideoPlayer.tsx, lines 213-217)

    Times are the finite values of [currentTime] and [duration], taken
    as exact rationals.  [%] on numbers keeps the sign of the dividend:
    [a % n] is [a - n * trunc (a / n)]. *)

Definition Qtrunc (q : Q) : Z :=
  if Qlt_le_dec q 0 then Qceiling q else Qfloor q.

Definition jsRem (a n : Q) : Q := (a - n * inject_Z (Qtrunc (a / n)))%Q.

Definition formatTime (time : Q) : jsstr :=
  let minutes := Qfloor (time / 60) in
  let seconds := Qfloor (jsRem time 60) in
  numberToString minutes ++ lit ":"
    ++ (if (seconds <? 10)%Z then lit "0" else lit "")
    ++ numberToString seconds.

(** ** The request of the player  (VideoPlayer.tsx, line 55)

    [url.includes('?') ? `${url}&t=${Date.now()}` : `${url}?t=${Date.now()}`] *)
Definition fetchUrl (url : jsstr) (t : Z) : jsstr :=
  if includes url (lit "?") then url ++ lit "&t=" ++ numberToString t
  else url ++ lit "?t=" ++ numberToString t.

(** What [Date.now()] returns: a whole number of milliseconds in the
    range of time values, 8.64e15 on either side of the epoch, which a
    template literal prints in plain decimal. *)
Definition timeValue (t : Z) : Prop := (Z.abs t <= 8640000000000000)%Z.

(** The query parameters a request for [u] carries: what stands between
    the first [?] and the fragment.  The fragment, from the first [#]
    on, is not part of the request. *)
Definition sentParams (u : jsstr) : list (jsstr * jsstr) :=
  queryParams (beforeFirst 35 u).

(** The [duration] field of the metadata needs no conversion: it is
    missing or otherwise falsy, or it is a second count that a number
    holds exactly. *)
Definition plainDuration (v : value) : Prop :=
  match v with
  | VNum n => (0 <= n < 2 ^ 53)%Z
  | _ => truthy v = false
  end.

(** What line 91 shows for such a field. *)
Definition shownDuration (v : value) : jsstr :=
  match v with
  | VNum n => if (n =? 0)%Z then [] else formatDuration n
  | _ => []
  end.


Set Implicit Arguments.
(** * Properties of the input-resolution pipeline *)

(** ** Properties of [formatDuration] *)

Lemma numberToString_below_60 (s : Z) :
  (0 <= s < 60)%Z ->
  (if (s <? 10)%Z then lit "0" else lit "") ++ numberToString s = twoDigits s.
Proof.
  intros Hs.
  assert (Hn : s = Z.of_nat (Z.to_nat s)) by lia.
  assert (Hb : (Z.to_nat s < 60)%nat) by lia.
  rewrite Hn. generalize dependent (Z.to_nat s). clear Hs. intros n _ Hb.
  do 60 (destruct n as [|n]; [reflexivity|]).
  lia.
Qed.

Example formatDuration_125 : formatDuration 125%Z = lit "2:05".
Proof. reflexivity. Qed.

Example formatDuration_59 : formatDuration 59%Z = lit "0:59".
Proof. reflexivity. Qed.

Example formatDuration_3605 : formatDuration 3605%Z = lit "60:05".
Proof. reflexivity. Qed.

(** C8. [formatDuration] of a second count is the minute count in plain
    decimal (no padding, no hour field), a colon, and the residual
    seconds as exactly two digits, for every second count that a number
    holds exactly (from 0 to below 2^53, where the division and the
    printing of the code are those of the integers); and
    [formatDuration 125], [formatDuration 59], [formatDuration 3605] are
    ["2:05"], ["0:59"], ["60:05"]. *)
Theorem formatDuration_minutes_colon_two_digits :
  (forall seconds : Z, (0 <= seconds < 2 ^ 53)%Z ->
     formatDuration seconds =
       numberToString (seconds / 60)%Z ++ lit ":"
         ++ twoDigits (seconds mod 60)%Z
     /\ List.length (twoDigits (seconds mod 60)%Z) = 2%nat
     /\ (0 <= seconds / 60 < 10 ^ 21)%Z)
  /\ formatDuration 125%Z = lit "2:05"
  /\ formatDuration 59%Z = lit "0:59"
  /\ formatDuration 3605%Z = lit "60:05".
Proof.
  split; [|repeat split; reflexivity].
  intros seconds Hs. split; [|split; [reflexivity|]].
  - unfold formatDuration. cbv zeta.
    rewrite Z.rem_mod_nonneg by lia.
    rewrite <- numberToString_below_60 by (apply Z.mod_pos_bound; lia).
    reflexivity.
  - change (2 ^ 53)%Z with 9007199254740992%Z in Hs.
    change (10 ^ 21)%Z with 1000000000000000000000%Z.
    split; [apply Z.div_pos; lia|].
    apply Z.div_lt_upper_bound; lia.
Qed.

Lemma formatDuration_witness :
  formatDuration 7384%Z =
    numberToString (7384 / 60)%Z ++ lit ":" ++ twoDigits (7384 mod 60)%Z
  /\ List.length (twoDigits (7384 mod 60)%Z) = 2%nat
  /\ (0 <= 7384 / 60 < 10 ^ 21)%Z.
Proof.
  apply (proj1 formatDuration_minutes_colon_two_digits 7384%Z).
  change (2 ^ 53)%Z with 9007199254740992%Z. lia.
Defined.

(** ** Substrings and trimming *)

Lemma startsWith_prefix (p s : jsstr) :
  startsWith p s = true <-> exists b, s = p ++ b.
Proof.
  revert s. induction p as [|a p IH]; intros s; simpl.
  - split; [exists s; reflexivity | reflexivity].
  - destruct s as [|c s].
    + split; [discriminate | intros [b Hb]; discriminate].
    + rewrite andb_true_iff, N.eqb_eq, IH. split.
      * intros [-> [b ->]]. exists b. reflexivity.
      * intros [b Hb]. injection Hb as -> ->. split; [reflexivity|].
        exists b. reflexivity.
Qed.

Lemma includes_infix (s p : jsstr) :
  includes s p = true <-> exists a b, s = a ++ p ++ b.
Proof.
  induction s as [|c s IH].
  - simpl. rewrite orb_false_r, startsWith_prefix. split.
    + intros [b Hb]. exists [], b. exact Hb.
    + intros [a [b Hab]]. destruct a; [exists b; exact Hab | discriminate].
  - cbn [includes]. rewrite orb_true_iff, startsWith_prefix, IH. split.
    + intros [[b Hb] | [a [b Hab]]].
      * exists [], b. exact Hb.
      * exists (c :: a), b. rewrite Hab. reflexivity.
    + intros [a [b Hab]]. destruct a as [|c' a].
      * left. exists b. exact Hab.
      * right. injection Hab as _ Hab. exists a, b. exact Hab.
Qed.

Lemma trimStart_suffix (s : jsstr) : exists a, s = a ++ trimStart s.
Proof.
  induction s as [|c s [a Ha]]; simpl.
  - exists []. reflexivity.
  - destruct (isWhiteSpace c).
    + exists (c :: a). simpl. f_equal. exact Ha.
    + exists []. reflexivity.
Qed.

Lemma trimEnd_prefix (s : jsstr) : exists b, s = trimEnd s ++ b.
Proof.
  unfold trimEnd. destruct (trimStart_suffix (rev s)) as [a Ha].
  exists (rev a). rewrite <- rev_app_distr, <- Ha, rev_involutive.
  reflexivity.
Qed.

Lemma trim_infix (s : jsstr) : exists a b, s = a ++ trim s ++ b.
Proof.
  unfold trim. destruct (trimStart_suffix s) as [a Ha].
  destruct (trimEnd_prefix (trimStart s)) as [b Hb].
  exists a, b. rewrite <- Hb. exact Ha.
Qed.

(** What the trimmed input contains, the input contains. *)
Lemma includes_trim (s p : jsstr) :
  includes (trim s) p = true -> includes s p = true.
Proof.
  rewrite !includes_infix. intros [a [b Hab]].
  destruct (trim_infix s) as [a' [b' Hs]].
  exists (a' ++ a), (b ++ b'). rewrite Hs at 1. rewrite Hab.
  rewrite <- !app_assoc. reflexivity.
Qed.

Lemma not_includes_trim (s p : jsstr) :
  includes s p = false -> includes (trim s) p = false.
Proof.
  intros H. destruct (includes (trim s) p) eqn:E; [|reflexivity].
  apply includes_trim in E. congruence.
Qed.

(** ** Running the monad *)

Lemma bind_run (A B : Type) (c : M A) (f : A -> M B) (w : World) :
  bind c f w =
    match c w with
    | (Normal a, w') => f a w'
    | (Throw e, w') => (Throw e, w')
    end.
Proof. reflexivity. Qed.

Lemma bind_normal (A B : Type) (c : M A) (f : A -> M B) (w w' : World)
  (b : B) :
  bind c f w = (Normal b, w') ->
  exists a w1, c w = (Normal a, w1) /\ f a w1 = (Normal b, w').
Proof.
  rewrite bind_run. destruct (c w) as [[a|e] w1]; [|discriminate].
  intros H. exists a, w1. split; [reflexivity | exact H].
Qed.

Lemma lift_normal (A : Type) (c : completion A) (w w' : World) (a : A) :
  lift c w = (Normal a, w') -> c = Normal a /\ w' = w.
Proof. unfold lift. intros H. injection H as -> ->. split; reflexivity. Qed.

(** The metadata step absorbs every failure: it never throws. *)
Lemma fetchMetadata_never_throws (host : Host) (bvid avid : jsstr)
  (w : World) :
  exists metaData w', fetchMetadata host bvid avid w = (Normal metaData, w').
Proof.
  unfold fetchMetadata, tryCatch.
  match goal with |- context [match ?c w with _ => _ end] =>
    destruct (c w) as [[a|e] w'] end.
  - exists a, w'. reflexivity.
  - exists (VObj []), w'. reflexivity.
Qed.

(** So does the stream step. *)
Lemma fetchDirectUrl_never_throws (host : Host) (bvid avid : jsstr)
  (w : World) :
  exists r w', fetchDirectUrl host bvid avid w = (Normal r, w').
Proof.
  unfold fetchDirectUrl, tryCatch.
  match goal with |- context [match ?c w with _ => _ end] =>
    destruct (c w) as [[a|e] w'] end.
  - exists a, w'. reflexivity.
  - exists (VStr [], true), w'. reflexivity.
Qed.

(** ** The shape of every result *)

Lemma constructResponse_playable (host : Host) (bvid avid : jsstr)
  (metaData directUrl : value) (r : ParsedVideoData.t) :
  constructResponse host bvid avid metaData directUrl = Normal r ->
  playable r.
Proof.
  unfold constructResponse.
  destruct (getProp metaData "title"); [|discriminate].
  destruct (truthy directUrl); intros H; injection H as <-;
    eexists; (split; [reflexivity|]); simpl; intros Hp;
    [discriminate | reflexivity].
Qed.

Lemma parseOther_playable (url : value) (r : ParsedVideoData.t) :
  parseOther url = Normal r -> playable r.
Proof.
  unfold parseOther.
  destruct (matchValue url ytRegex) as [[[whole videoId]|]|]; [| |discriminate].
  - intros H. injection H as <-. eexists. split; [reflexivity|].
    reflexivity.
  - destruct url; try discriminate.
    destruct (jsmatch directRegex s); [|discriminate].
    unfold directResult. destruct (decodeURIComponent _); [|discriminate].
    intros H. injection H as <-. eexists. split; [reflexivity|].
    simpl. discriminate.
Qed.

Lemma parseIdentified_playable (host : Host) (url : value)
  (bvid avid : jsstr) (w w' : World) (r : ParsedVideoData.t) :
  parseIdentified host url bvid avid w = (Normal r, w') -> playable r.
Proof.
  unfold parseIdentified. destruct (nonEmpty bvid || nonEmpty avid).
  - unfold parseBilibili. intros H.
    apply bind_normal in H. destruct H as [metaData [w1 [_ H]]].
    apply bind_normal in H. destruct H as [[directUrl pe] [w2 [_ H]]].
    apply lift_normal in H. destruct H as [H _].
    exact (constructResponse_playable _ _ _ _ _ H).
  - intros H. apply lift_normal in H. destruct H as [H _].
    exact (parseOther_playable _ H).
Qed.

(** C7. Whenever [parseVideoInput] resolves, the result has a source at
    index 0 (its [sources] array is not empty), and if its player type
    is [iframe] that source has [isDownloadable] false. *)
Theorem parseVideoInput_resolves_playable (host : Host) (input : jsstr)
  (w w' : World) (r : ParsedVideoData.t) :
  parseVideoInput host input w = (Normal r, w') ->
  ParsedVideoData.sources r <> []
  /\ exists s, nth_error (ParsedVideoData.sources r) 0 = Some s
       /\ (ParsedVideoData.playerType r = iframe ->
           VideoSource.isDownloadable s = Some false).
Proof.
  unfold parseVideoInput. intros H.
  apply bind_normal in H. destruct H as [[url bvid0] [w1 [_ H]]].
  apply bind_normal in H. destruct H as [[bvid avid] [w2 [_ H]]].
  apply parseIdentified_playable in H. destruct H as [s [Hs Hd]].
  split.
  - intros Hnil. rewrite Hnil in Hs. discriminate.
  - exists s. split; assumption.
Qed.

Lemma parseVideoInput_resolves_playable_witness :
  let r := youtubeResult (lit "dQw4w9WgXcQ") in
  ParsedVideoData.sources r <> []
  /\ exists s, nth_error (ParsedVideoData.sources r) 0 = Some s
       /\ (ParsedVideoData.playerType r = iframe ->
           VideoSource.isDownloadable s = Some false).
Proof.
  apply (@parseVideoInput_resolves_playable offline
           (lit "https://youtu.be/dQw4w9WgXcQ") startWorld startWorld).
  vm_compute. reflexivity.
Defined.


(** ** The two revisions *)

Lemma same_run_without_short_link (host : Host) (input : jsstr)
  (w : World) :
  includes (trim input) (lit "b23.tv") = false ->
  parseVideoInput host input w = Rev2.parseVideoInput host input w.
Proof.
  intros H.
  unfold parseVideoInput, Rev2.parseVideoInput,
    resolveShortLink, Rev2.resolveShortLink.
  rewrite H. reflexivity.
Qed.

(** C10. On an input that does not contain ["b23.tv"] the two revisions
    of [parseVideoInput] do the same: against the same clock and the
    same responses they issue the same requests and complete alike. *)
Theorem revisions_agree_without_short_link (host : Host) (input : jsstr)
  (w : World) :
  includes input (lit "b23.tv") = false ->
  parseVideoInput host input w = Rev2.parseVideoInput host input w.
Proof.
  intros H. apply same_run_without_short_link.
  apply not_includes_trim. exact H.
Qed.

Lemma revisions_agree_without_short_link_witness :
  parseVideoInput (scripted [Some metaSuccess; Some streamSuccess])
    (lit " https://www.bilibili.com/video/BV1xx411c7mD ") startWorld
  = Rev2.parseVideoInput (scripted [Some metaSuccess; Some streamSuccess])
      (lit " https://www.bilibili.com/video/BV1xx411c7mD ") startWorld.
Proof.
  apply revisions_agree_without_short_link. vm_compute. reflexivity.
Defined.

(** ** The Bilibili branch *)

Lemma fetchDirectUrl_run (host : Host) (bvid avid : jsstr) (w : World) :
  fetchDirectUrl host bvid avid w =
    match encodeURIComponent (parseUrl bvid avid) with
    | Normal enc =>
        let u := proxyUrlOf enc (now host (clockReads w)) in
        (Normal (streamOutcome (respond host (List.length (requests w)) u)),
         {| clockReads := S (clockReads w); requests := requests w ++ [u] |})
    | Throw _ => (Normal (VStr [], true), w)
    end.
Proof.
  unfold fetchDirectUrl, tryCatch. rewrite bind_run. unfold lift.
  destruct (encodeURIComponent (parseUrl bvid avid)) as [enc|e];
    [|reflexivity].
  rewrite bind_run. unfold dateNow. rewrite bind_run. unfold fetch.
  cbn [requests clockReads]. unfold proxyUrlOf, streamOutcome.
  destruct (respond host _ _) as [|[j|]]; try reflexivity.
  destruct (truthy j && isZero (prop j "code") && truthy (prop j "url"));
    reflexivity.
Qed.

(** With a metadata record in hand, the stream outcome alone decides the
    player: a direct URL gives the native player with that URL as the
    one, downloadable, source; no direct URL gives the iframe player
    with one source that is not downloadable. *)
Lemma constructResponse_by_stream (host : Host) (bvid avid : jsstr)
  (metaData directUrl : value) :
  metaData <> VNull -> metaData <> VUndefined ->
  exists r, constructResponse host bvid avid metaData directUrl = Normal r
    /\ ParsedVideoData.platform r = bilibili
    /\ if truthy directUrl
       then ParsedVideoData.playerType r = native
            /\ exists s, ParsedVideoData.sources r = [s]
                 /\ VideoSource.url s = directUrl
                 /\ VideoSource.isDownloadable s = Some true
       else ParsedVideoData.playerType r = iframe
            /\ exists s, ParsedVideoData.sources r = [s]
                 /\ VideoSource.isDownloadable s = Some false.
Proof.
  intros Hn Hu. unfold constructResponse.
  destruct metaData; try congruence;
    cbn [getProp]; destruct (truthy directUrl);
    eexists; (split; [reflexivity|]); (split; [reflexivity|]);
    (split; [reflexivity|]); eexists; repeat split.
Qed.

Lemma parseBilibili_by_stream (host : Host) (bvid avid : jsstr)
  (w w1 w2 : World) (metaData directUrl : value) (parseError : bool) :
  fetchMetadata host bvid avid w = (Normal metaData, w1) ->
  metaData <> VNull -> metaData <> VUndefined ->
  fetchDirectUrl host bvid avid w1 = (Normal (directUrl, parseError), w2) ->
  exists r, parseBilibili host bvid avid w = (Normal r, w2)
    /\ if truthy directUrl
       then ParsedVideoData.playerType r = native
            /\ exists s, ParsedVideoData.sources r = [s]
                 /\ VideoSource.url s = directUrl
                 /\ VideoSource.isDownloadable s = Some true
       else ParsedVideoData.playerType r = iframe
            /\ exists s, ParsedVideoData.sources r = [s]
                 /\ VideoSource.isDownloadable s = Some false.
Proof.
  intros Hm Hn Hu Hs.
  destruct (constructResponse_by_stream host bvid avid directUrl Hn Hu)
    as [r [Hr [_ Hshape]]].
  exists r. split; [|exact Hshape].
  unfold parseBilibili. rewrite bind_run, Hm, bind_run, Hs. unfold lift.
  rewrite Hr. reflexivity.
Qed.

Lemma parseBilibili_platform (host : Host) (bvid avid : jsstr)
  (w w' : World) (r : ParsedVideoData.t) :
  parseBilibili host bvid avid w = (Normal r, w') ->
  ParsedVideoData.platform r = bilibili
  /\ ParsedVideoData.id r = orElseStr bvid avid.
Proof.
  unfold parseBilibili. intros H.
  apply bind_normal in H. destruct H as [metaData [w1 [_ H]]].
  apply bind_normal in H. destruct H as [[directUrl pe] [w2 [_ H]]].
  apply lift_normal in H. destruct H as [H _]. revert H.
  unfold constructResponse.
  destruct (getProp metaData "title"); [|discriminate].
  destruct (truthy directUrl); intros H; injection H as <-;
    split; reflexivity.
Qed.

(** The one failure the Bilibili branch does not absorb: a metadata
    envelope with code 0 whose [data] is [null] or missing leaves
    [metaData] without properties to read, and line 88 throws. *)
Lemma constructResponse_null_metadata (host : Host) (bvid avid : jsstr)
  (metaData directUrl : value) :
  metaData = VNull \/ metaData = VUndefined ->
  constructResponse host bvid avid metaData directUrl = Throw TypeError.
Proof. intros [-> | ->]; reflexivity. Qed.

(** C1, at the input where the code departs from it.  The identifier is
    [BV1xx411c7mD], the stream response is the success payload (the
    stream step does return the direct URL), and the metadata response
    is [{"code":0}]: the promise is rejected with a [TypeError] instead
    of resolving with a native-player result. *)
Theorem stream_success_rejected_on_null_metadata :
  let host := scripted [Some (VObj [(lit "code", VNum 0)]);
                        Some streamSuccess] in
  let input := lit "https://www.bilibili.com/video/BV1xx411c7mD" in
  let metadata := fetchMetadata host (lit "BV1xx411c7mD") [] startWorld in
  fst metadata = Normal VUndefined
  /\ fst (fetchDirectUrl host (lit "BV1xx411c7mD") [] (snd metadata))
     = Normal (VStr (lit "https://x/y.mp4"), false)
  /\ fst (parseVideoInput host input startWorld) = Throw TypeError
  /\ fst (Rev2.parseVideoInput host input startWorld) = Throw TypeError.
Proof.
  cbv zeta. repeat split; vm_compute; reflexivity.
Qed.

(** ** Rejections *)

(** An input that matches nothing is rejected with the fixed message. *)
Lemma parseVideoInput_unsupported (host : Host) (input : jsstr) (w : World) :
  includes (trim input) (lit "b23.tv") = false ->
  jsmatch bvRegex (trim input) = None ->
  jsmatch avRegex (trim input) = None ->
  jsmatch ytRegex (trim input) = None ->
  jsmatch directRegex (trim input) = None ->
  parseVideoInput host input w
    = (Throw (Error (lit "Format not supported")), w).
Proof.
  intros Hs Hbv Hav Hyt Hd.
  unfold parseVideoInput, resolveShortLink. rewrite Hs.
  rewrite bind_run. unfold ret. rewrite bind_run. unfold lift, extractIds.
  cbn [matchValue]. rewrite Hbv, Hav.
  unfold parseIdentified. cbn [nonEmpty orb]. unfold lift, parseOther.
  cbn [matchValue]. rewrite Hyt, Hd. reflexivity.
Qed.

Example parseVideoInput_hello_world (host : Host) (w : World) :
  parseVideoInput host (lit "hello world") w
    = (Throw (Error (lit "Format not supported")), w).
Proof. apply parseVideoInput_unsupported; vm_compute; reflexivity. Qed.

(** A direct-file input reaches step 4 and nothing else. *)
Lemma parseVideoInput_direct (host : Host) (input : jsstr) (w : World) :
  includes (trim input) (lit "b23.tv") = false ->
  jsmatch bvRegex (trim input) = None ->
  jsmatch avRegex (trim input) = None ->
  jsmatch ytRegex (trim input) = None ->
  jsmatch directRegex (trim input) <> None ->
  parseVideoInput host input w = (directResult (trim input), w).
Proof.
  intros Hs Hbv Hav Hyt Hd.
  unfold parseVideoInput, resolveShortLink. rewrite Hs.
  rewrite bind_run. unfold ret. rewrite bind_run. unfold lift, extractIds.
  cbn [matchValue]. rewrite Hbv, Hav.
  unfold parseIdentified. cbn [nonEmpty orb]. unfold lift, parseOther.
  cbn [matchValue]. rewrite Hyt.
  destruct (jsmatch directRegex (trim input)); [reflexivity | congruence].
Qed.

(** C2, at the input where the code departs from it.  The input
    [https://example.com/100%.mp4] matches the direct-file pattern (and
    no other), yet the promise is rejected: [decodeURIComponent] throws
    a [URIError] on the file name, outside every [try]. *)
Theorem direct_file_with_stray_percent_rejected (host : Host) (w : World) :
  let input := lit "https://example.com/100%.mp4" in
  jsmatch directRegex (trim input) = Some (lit ".mp4", lit "mp4")
  /\ parseVideoInput host input w = (Throw URIError, w)
  /\ Rev2.parseVideoInput host input w = (Throw URIError, w).
Proof.
  cbv zeta. split; [vm_compute; reflexivity|].
  assert (H : parseVideoInput host (lit "https://example.com/100%.mp4") w
              = (Throw URIError, w)).
  { rewrite parseVideoInput_direct; try (vm_compute; reflexivity).
    vm_compute. discriminate. }
  split; [exact H|].
  rewrite <- same_run_without_short_link; [exact H|].
  vm_compute. reflexivity.
Qed.

(** ** Classification order *)

Lemma parseVideoInput_fileLikeInput (host : Host) (w : World) :
  parseVideoInput host fileLikeInput w = parseBilibili host [] (lit "123") w.
Proof.
  unfold parseVideoInput, resolveShortLink.
  replace (includes (trim fileLikeInput) (lit "b23.tv")) with false
    by (vm_compute; reflexivity).
  rewrite bind_run. unfold ret. rewrite bind_run. unfold lift.
  replace (extractIds (VStr (trim fileLikeInput)) [])
    with (Normal (@nil N, lit "123")) by (vm_compute; reflexivity).
  reflexivity.
Qed.

(** C9. The input [https://cdn.example.com/flav123.mp4] ends in a
    supported media extension, but ["av123"] occurs in it and the av
    pattern is tried first: [parseVideoInput] runs the Bilibili branch
    for av id [123], every result it resolves with has platform
    [bilibili] (never [direct]), and it does resolve, for instance when
    no request gets through.  The pattern is case-sensitive: with
    ["AV123"] in its place the same URL is a direct file. *)
Theorem av_pattern_precedes_direct_file :
  jsmatch directRegex (trim fileLikeInput) = Some (lit ".mp4", lit "mp4")
  /\ jsmatch avRegex (trim fileLikeInput) = Some (lit "av123", lit "123")
  /\ (forall host w,
        parseVideoInput host fileLikeInput w
          = parseBilibili host [] (lit "123") w)
  /\ (forall host w w' r,
        parseVideoInput host fileLikeInput w = (Normal r, w') ->
        ParsedVideoData.platform r = bilibili
        /\ ParsedVideoData.id r = lit "123")
  /\ (exists r w',
        parseVideoInput offline fileLikeInput startWorld = (Normal r, w')
        /\ ParsedVideoData.platform r = bilibili
        /\ ParsedVideoData.id r = lit "123")
  /\ (forall host w,
        exists r,
          parseVideoInput host (lit "https://cdn.example.com/flAV123.mp4") w
            = (Normal r, w)
          /\ ParsedVideoData.platform r = direct).
Proof.
  split; [vm_compute; reflexivity|].
  split; [vm_compute; reflexivity|].
  split; [exact parseVideoInput_fileLikeInput|].
  split; [|split].
  - intros host w w' r. rewrite parseVideoInput_fileLikeInput.
    intros H. apply parseBilibili_platform in H. exact H.
  - eexists. eexists. split; [vm_compute; reflexivity|].
    split; reflexivity.
  - intros host w. rewrite parseVideoInput_direct;
      try (vm_compute; reflexivity); [|vm_compute; discriminate].
    eexists. split; [vm_compute; reflexivity | reflexivity].
Qed.

Lemma av_pattern_precedes_direct_file_witness :
  ParsedVideoData.platform fileLikeResult = bilibili
  /\ ParsedVideoData.id fileLikeResult = lit "123".
Proof.
  apply (proj1 (proj2 (proj2 (proj2 av_pattern_precedes_direct_file)))
           (scripted [Some metaSuccess; Some streamSuccess]) startWorld
           (snd (parseVideoInput
                   (scripted [Some metaSuccess; Some streamSuccess])
                   fileLikeInput startWorld))
           fileLikeResult).
  vm_compute. reflexivity.
Defined.

(** ** What the patterns capture *)

Lemma consumed_app (a rest : jsstr) : consumed (a ++ rest) rest = a.
Proof.
  unfold consumed. rewrite length_app.
  replace (List.length a + List.length rest - List.length rest)%nat
    with (List.length a + 0)%nat by lia.
  rewrite firstn_app_2. simpl. apply app_nil_r.
Qed.

(** A successful [exec] has consumed a prefix of its input, made of
    characters the expression allows, and handed the rest to its
    continuation. *)
Lemma exec_consumes (R : Type) (P : N -> bool) (r : regex) :
  within P r ->
  forall (s : jsstr) (k : jsstr -> option R) (x : R),
  exec r s k = Some x ->
  exists a s', s = a ++ s' /\ forallb P a = true /\ k s' = Some x.
Proof.
  induction r as [|c|p|r1 IH1 r2 IH2|r1 IH1 r2 IH2|r1 IH1|];
    intros Hw s k x; cbn [exec].
  - intros H. exists [], s. auto.
  - destruct s as [|y s]; [discriminate|].
    destruct (N.eqb y c) eqn:E; [|discriminate]. apply N.eqb_eq in E.
    subst y. intros H. exists [c], s. cbn. cbn in Hw. rewrite Hw. auto.
  - destruct s as [|y s]; [discriminate|].
    destruct (p y) eqn:E; [|discriminate].
    intros H. exists [y], s. cbn. rewrite (Hw y E). auto.
  - destruct Hw as [Hw1 Hw2]. intros H.
    destruct (IH1 Hw1 _ _ _ H) as [a1 [s1 [-> [Ha1 H1]]]].
    destruct (IH2 Hw2 _ _ _ H1) as [a2 [s2 [-> [Ha2 H2]]]].
    exists (a1 ++ a2), s2. rewrite <- app_assoc, forallb_app, Ha1, Ha2. auto.
  - destruct Hw as [Hw1 Hw2].
    destruct (exec r1 s k) as [x'|] eqn:E.
    + intros H. injection H as ->. exact (IH1 Hw1 _ _ _ E).
    + exact (IH2 Hw2 _ _ _).
  - cbn in Hw. generalize (List.length s) at 1. intros n. revert s.
    induction n as [|n IHn]; intros s.
    + intros H. exists [], s. auto.
    + match goal with
      | |- match ?e with _ => _ end = _ -> _ => destruct e as [x'|] eqn:E
      end.
      * intros H. injection H as ->.
        destruct (IH1 Hw _ _ _ E) as [a1 [s1 [-> [Ha1 H1]]]].
        destruct (List.length s1 <? List.length (a1 ++ s1))%nat;
          [|discriminate].
        destruct (IHn _ H1) as [a2 [s2 [-> [Ha2 H2]]]].
        exists (a1 ++ a2), s2.
        rewrite <- app_assoc, forallb_app, Ha1, Ha2. auto.
      * intros H. exists [], s. auto.
  - destruct s; [|discriminate]. intros H. exists [], []. auto.
Qed.

Lemma within_any (r : regex) : within (fun _ => true) r.
Proof. induction r; cbn; auto. Qed.

(** Group 1 of a match is made of characters its expression allows. *)
Lemma matchHere_captured (P : N -> bool) (p : pattern) (s whole g : jsstr) :
  within P (captured p) ->
  matchHere p s = Some (whole, g) -> forallb P g = true.
Proof.
  intros Hw H. unfold matchHere in H.
  destruct (@exec_consumes _ _ _ (within_any (before p)) _ _ _ H)
    as [a0 [s1 [-> [_ H1]]]].
  destruct (@exec_consumes _ _ _ Hw _ _ _ H1) as [a [s2 [-> [Ha H2]]]].
  destruct (@exec_consumes _ _ _ (within_any (after p)) _ _ _ H2)
    as [a3 [s3 [-> [_ H3]]]].
  injection H3 as _ <-.
  rewrite consumed_app. exact Ha.
Qed.

Lemma jsmatch_captured (P : N -> bool) (p : pattern) (s whole g : jsstr) :
  within P (captured p) ->
  jsmatch p s = Some (whole, g) -> forallb P g = true.
Proof.
  intros Hw. induction s as [|c s IH]; cbn [jsmatch].
  - destruct (matchHere p []) as [[w0 g0]|] eqn:E; [|discriminate].
    intros H. injection H as -> ->. exact (@matchHere_captured P p _ _ _ Hw E).
  - destruct (matchHere p (c :: s)) as [[w0 g0]|] eqn:E; [|exact IH].
    intros H. injection H as -> ->. exact (@matchHere_captured P p _ _ _ Hw E).
Qed.

Lemma bv_captured_within : within alnum (captured bvRegex).
Proof. cbn. repeat split; auto. Qed.

Lemma av_captured_within : within digit (captured avRegex).
Proof. cbn. auto. Qed.

Lemma bilibiliUrl_captured_within : within alnum (captured bilibiliUrlRegex).
Proof. exact bv_captured_within. Qed.

(** The identifiers step 2 extracts: [bvid] is alphanumeric and [avid]
    is made of digits, if the [bvid] step 1 left was alphanumeric. *)
Lemma extractIds_wellformed (url : value) (bvid0 bvid avid : jsstr) :
  forallb alnum bvid0 = true ->
  extractIds url bvid0 = Normal (bvid, avid) ->
  forallb alnum bvid = true /\ forallb digit avid = true.
Proof.
  intros H0. unfold extractIds. destruct url; try discriminate.
  cbn [matchValue].
  destruct (jsmatch bvRegex s) as [[w g]|] eqn:Ebv.
  - intros H. injection H as <- <-. split; [|reflexivity].
    exact (@jsmatch_captured _ _ _ _ _ bv_captured_within Ebv).
  - destruct (jsmatch avRegex s) as [[w g]|] eqn:Eav.
    + intros H. injection H as <- <-. split; [exact H0|].
      exact (@jsmatch_captured _ _ _ _ _ av_captured_within Eav).
    + intros H. injection H as <- <-. split; [exact H0 | reflexivity].
Qed.

Lemma Rev2_extractIds_wellformed (url : value) (bvid0 bvid avid : jsstr) :
  forallb alnum bvid0 = true ->
  Rev2.extractIds url bvid0 = Normal (bvid, avid) ->
  forallb alnum bvid = true /\ forallb digit avid = true.
Proof.
  intros H0. unfold Rev2.extractIds.
  destruct (negb (nonEmpty bvid0)).
  - exact (@extractIds_wellformed url bvid0 bvid avid H0).
  - intros H. injection H as <- <-. split; [exact H0 | reflexivity].
Qed.

(** The [bvid] step 1 leaves is alphanumeric, in both revisions. *)
Lemma resolveShortLink_wellformed (host : Host) (input : jsstr)
  (w w' : World) (url : value) (bvid0 : jsstr) :
  resolveShortLink host input w = (Normal (url, bvid0), w') ->
  forallb alnum bvid0 = true.
Proof.
  unfold resolveShortLink.
  destruct (includes input (lit "b23.tv"));
    [|intros H; injection H as _ <- _; reflexivity].
  unfold tryCatch.
  match goal with |- context [match ?c w with _ => _ end] =>
    destruct (c w) as [[[u b]|e] w1] eqn:E end;
    [|intros H; injection H as _ <- _; reflexivity].
  intros H. injection H as -> -> ->.
  apply bind_normal in E. destruct E as [enc [w2 [_ E]]].
  apply bind_normal in E. destruct E as [t [w3 [_ E]]].
  apply bind_normal in E. destruct E as [response [w4 [_ E]]].
  apply bind_normal in E. destruct E as [data [w5 [_ E]]].
  apply bind_normal in E. destruct E as [status [w6 [_ E]]].
  destruct (truthy (optProp status "url"));
    [injection E as _ <- _; reflexivity|].
  destruct (truthy (prop data "contents"));
    [|injection E as _ <- _; reflexivity].
  apply bind_normal in E. destruct E as [m [w7 [Hm E]]].
  apply lift_normal in Hm. destruct Hm as [Hm _].
  destruct (prop data "contents"); try discriminate.
  cbn [matchValue] in Hm. injection Hm as <-.
  destruct (jsmatch bvRegex s) as [[wh g]|] eqn:Ebv;
    injection E as _ <- _; [|reflexivity].
  exact (@jsmatch_captured _ _ _ _ _ bv_captured_within Ebv).
Qed.

Lemma Rev2_resolveShortLink_wellformed (host : Host) (input : jsstr)
  (w w' : World) (url : value) (bvid0 : jsstr) :
  Rev2.resolveShortLink host input w = (Normal (url, bvid0), w') ->
  forallb alnum bvid0 = true.
Proof.
  unfold Rev2.resolveShortLink.
  destruct (includes input (lit "b23.tv"));
    [|intros H; injection H as _ <- _; reflexivity].
  unfold tryCatch.
  match goal with |- context [match ?c w with _ => _ end] =>
    destruct (c w) as [[[u b]|e] w1] eqn:E end;
    [|intros H; injection H as _ <- _; reflexivity].
  intros H. injection H as -> -> ->.
  apply bind_normal in E. destruct E as [enc [w2 [_ E]]].
  apply bind_normal in E. destruct E as [t [w3 [_ E]]].
  apply bind_normal in E. destruct E as [response [w4 [_ E]]].
  apply bind_normal in E. destruct E as [data [w5 [_ E]]].
  apply bind_normal in E. destruct E as [status [w6 [_ E]]].
  apply bind_normal in E. destruct E as [followed [w7 [_ E]]].
  destruct followed; [injection E as _ <- _; reflexivity|].
  destruct (truthy (prop data "contents"));
    [|injection E as _ <- _; reflexivity].
  apply bind_normal in E. destruct E as [m [w8 [Hm E]]].
  apply lift_normal in Hm. destruct Hm as [Hm _].
  destruct (prop data "contents"); try discriminate.
  cbn [matchValue] in Hm. injection Hm as <-.
  destruct (jsmatch bilibiliUrlRegex s) as [[wh g]|] eqn:Eurl.
  - injection E as _ <- _.
    exact (@jsmatch_captured _ _ _ _ _ bilibiliUrl_captured_within Eurl).
  - apply bind_normal in E. destruct E as [m' [w9 [Hm' E]]].
    apply lift_normal in Hm'. destruct Hm' as [Hm' _].
    cbn [matchValue] in Hm'. injection Hm' as <-.
    destruct (jsmatch bvRegex s) as [[wh g]|] eqn:Ebv;
      injection E as _ <- _; [|reflexivity].
    exact (@jsmatch_captured _ _ _ _ _ bv_captured_within Ebv).
Qed.

(** Nothing below the surrogates makes [encodeURIComponent] throw. *)
Lemma encodeURIComponent_ascii (s : jsstr) :
  forallb (fun c => c <? 128)%N s = true ->
  exists enc, encodeURIComponent s = Normal enc.
Proof.
  induction s as [|c s IH]; cbn [forallb encodeURIComponent].
  - exists []. reflexivity.
  - rewrite andb_true_iff. intros [Hc Hs]. destruct (IH Hs) as [enc Henc].
    rewrite Henc. apply N.ltb_lt in Hc.
    destruct (uriUnreserved c); [eexists; reflexivity|].
    assert (Hh : isHighSurrogate c = false).
    { unfold isHighSurrogate. apply andb_false_iff. left.
      apply N.leb_gt. lia. }
    assert (Hl : isLowSurrogate c = false).
    { unfold isLowSurrogate. apply andb_false_iff. left.
      apply N.leb_gt. lia. }
    rewrite Hh, Hl. eexists. reflexivity.
Qed.

Lemma alnum_ascii (c : N) : alnum c = true -> (c <? 128)%N = true.
Proof.
  unfold alnum, inRange. cbn. rewrite !orb_true_iff, !andb_true_iff.
  rewrite !N.leb_le, N.ltb_lt. lia.
Qed.

Lemma digit_ascii (c : N) : digit c = true -> (c <? 128)%N = true.
Proof.
  unfold digit, inRange. cbn. rewrite !andb_true_iff.
  rewrite !N.leb_le, N.ltb_lt. lia.
Qed.

Lemma forallb_impl (A : Type) (P Q : A -> bool) (l : list A) :
  (forall x, P x = true -> Q x = true) ->
  forallb P l = true -> forallb Q l = true.
Proof.
  intros H. induction l as [|x l IH]; cbn; [reflexivity|].
  rewrite !andb_true_iff. intros [Hx Hl]. split; auto.
Qed.

(** For identifiers as the patterns capture them the target of the
    stream request can always be encoded: the request is always made. *)
Lemma parseUrl_encodes (bvid avid : jsstr) :
  forallb alnum bvid = true -> forallb digit avid = true ->
  exists enc, encodeURIComponent (parseUrl bvid avid) = Normal enc.
Proof.
  intros Hb Ha. apply encodeURIComponent_ascii. unfold parseUrl.
  apply (@forallb_impl _ _ _ bvid alnum_ascii) in Hb.
  apply (@forallb_impl _ _ _ avid digit_ascii) in Ha.
  destruct (nonEmpty bvid); rewrite !forallb_app;
    rewrite ?Hb, ?Ha; reflexivity.
Qed.

(** ** The stream request and its timestamp *)

Lemma split_nonempty (sep : N) (s : jsstr) : split sep s <> [].
Proof.
  destruct s as [|c s]; simpl; [discriminate|].
  destruct (split sep s); [discriminate|].
  destruct (N.eqb c sep); discriminate.
Qed.

Lemma split_no_sep (sep : N) (a : jsstr) :
  Forall (fun c => c <> sep) a -> split sep a = [a].
Proof.
  induction 1 as [|c a Hc _ IH]; simpl; [reflexivity|].
  rewrite IH. apply N.eqb_neq in Hc. rewrite Hc. reflexivity.
Qed.

Lemma split_at_sep (sep : N) (a b : jsstr) :
  Forall (fun c => c <> sep) a ->
  split sep (a ++ sep :: b) = a :: split sep b.
Proof.
  induction 1 as [|c a Hc _ IH]; simpl.
  - destruct (split sep b) eqn:E.
    + exfalso. exact (split_nonempty _ _ E).
    + rewrite N.eqb_refl. reflexivity.
  - rewrite IH. apply N.eqb_neq in Hc. rewrite Hc. reflexivity.
Qed.

Lemma hexDigit_not_amp (d : N) : hexDigit d <> 38%N.
Proof. unfold hexDigit. destruct (d <? 10)%N; lia. Qed.

Lemma pctEncodeAll_no_amp (octets : list N) :
  Forall (fun c => c <> 38%N) (pctEncodeAll octets).
Proof.
  induction octets as [|o octets IH]; simpl; [constructor|].
  repeat constructor; try apply hexDigit_not_amp; try lia. exact IH.
Qed.

Lemma uriUnreserved_not_amp (c : N) : uriUnreserved c = true -> c <> 38%N.
Proof. intros H ->. vm_compute in H. discriminate. Qed.

Lemma alnum_not_amp (c : N) : alnum c = true -> c <> 38%N.
Proof. intros H ->. vm_compute in H. discriminate. Qed.

Lemma digit_not_amp (c : N) : digit c = true -> c <> 38%N.
Proof. intros H ->. vm_compute in H. discriminate. Qed.

(** The output of [encodeURIComponent] never holds an [&]. *)
Lemma encodeURIComponent_no_amp (s enc : jsstr) :
  encodeURIComponent s = Normal enc -> Forall (fun c => c <> 38%N) enc.
Proof.
  remember (List.length s) as n eqn:Hn. revert s enc Hn.
  induction n as [n IH] using lt_wf_ind. intros s enc Hn.
  destruct s as [|c s]; simpl.
  - intros H. injection H as <-. constructor.
  - destruct (uriUnreserved c) eqn:Hu.
    + destruct (encodeURIComponent s) as [r|] eqn:Hr; [|discriminate].
      intros H. injection H as <-. constructor.
      * apply uriUnreserved_not_amp. exact Hu.
      * apply (IH (List.length s)) with (s := s); [subst; simpl; lia | reflexivity | exact Hr].
    + destruct (isHighSurrogate c).
      * destruct s as [|d s]; [discriminate|].
        destruct (isLowSurrogate d); [|discriminate].
        destruct (encodeURIComponent s) as [r|] eqn:Hr; [|discriminate].
        intros H. injection H as <-. apply Forall_app. split.
        -- apply pctEncodeAll_no_amp.
        -- apply (IH (List.length s)) with (s := s);
             [subst; simpl; lia | reflexivity | exact Hr].
      * destruct (isLowSurrogate c); [discriminate|].
        destruct (encodeURIComponent s) as [r|] eqn:Hr; [|discriminate].
        intros H. injection H as <-. apply Forall_app. split.
        -- apply pctEncodeAll_no_amp.
        -- apply (IH (List.length s)) with (s := s);
             [subst; simpl; lia | reflexivity | exact Hr].
Qed.

Lemma uint_chars_no_amp (u : Decimal.uint) :
  Forall (fun c => c <> 38%N) (uint_chars u).
Proof. induction u; simpl; constructor; try lia; assumption. Qed.

Lemma numberToString_no_amp (z : Z) :
  Forall (fun c => c <> 38%N) (numberToString z).
Proof.
  destruct z; simpl.
  - repeat constructor. lia.
  - apply uint_chars_no_amp.
  - constructor; [lia | apply uint_chars_no_amp].
Qed.

(** The proxy URL of a stream request has two parameters: the encoded
    target and the timestamp. *)
Lemma queryParams_proxyUrl (s enc : jsstr) (t : Z) :
  encodeURIComponent s = Normal enc ->
  queryParams (proxyUrlOf enc t)
    = [(lit "url", enc); (lit "t", numberToString t)].
Proof.
  intros Henc. unfold queryParams.
  change (afterFirst 63 (proxyUrlOf enc t))
    with (Some ((lit "url=" ++ enc) ++ 38%N :: lit "t=" ++ numberToString t)).
  cbv beta iota. rewrite split_at_sep.
  - rewrite split_no_sep.
    + reflexivity.
    + repeat constructor; try (simpl; lia). apply numberToString_no_amp.
  - repeat constructor; try (simpl; lia).
    exact (encodeURIComponent_no_amp _ Henc).
Qed.

(** The target of a stream request, for an identifier as the patterns
    capture it, has the identifier and the four fixed parameters. *)
Lemma queryParams_parseUrl (bvid avid : jsstr) :
  forallb alnum bvid = true -> forallb digit avid = true ->
  queryParams (parseUrl bvid avid)
    = [ (if nonEmpty bvid then (lit "bv", bvid) else (lit "av", avid));
        (lit "p", lit "1"); (lit "q", lit "80"); (lit "format", lit "mp4");
        (lit "otype", lit "json") ].
Proof.
  intros Hb Ha. unfold queryParams, parseUrl.
  rewrite forallb_forall in Hb, Ha.
  destruct (nonEmpty bvid).
  - change (afterFirst 63 (PARSER_API ++ lit "?" ++ (lit "bv=" ++ bvid)
                           ++ lit "&p=1&q=80&format=mp4&otype=json"))
      with (Some ((lit "bv=" ++ bvid)
                  ++ 38%N :: lit "p=1&q=80&format=mp4&otype=json")).
    cbv beta iota. rewrite split_at_sep; [reflexivity|].
    repeat constructor; try (simpl; lia).
    apply Forall_forall. intros c Hc. apply alnum_not_amp. apply Hb, Hc.
  - change (afterFirst 63 (PARSER_API ++ lit "?" ++ (lit "av=" ++ avid)
                           ++ lit "&p=1&q=80&format=mp4&otype=json"))
      with (Some ((lit "av=" ++ avid)
                  ++ 38%N :: lit "p=1&q=80&format=mp4&otype=json")).
    cbv beta iota. rewrite split_at_sep; [reflexivity|].
    repeat constructor; try (simpl; lia).
    apply Forall_forall. intros c Hc. apply digit_not_amp. apply Ha, Hc.
Qed.

(** In every run of [parseVideoInput], for the identifiers steps 1 and 2
    arrive at, the stream step makes its request, with the timestamp on
    the proxy URL and none on the target. *)
Lemma stream_call_of_every_run (host : Host) (input : jsstr) (w w1 : World)
  (url : value) (bvid0 bvid avid : jsstr) :
  resolveShortLink host (trim input) w = (Normal (url, bvid0), w1) ->
  extractIds url bvid0 = Normal (bvid, avid) ->
  exists enc,
    encodeURIComponent (parseUrl bvid avid) = Normal enc
    /\ (forall w2,
          requests (snd (fetchDirectUrl host bvid avid w2))
            = requests w2 ++ [proxyUrlOf enc (now host (clockReads w2))])
    /\ (forall t, hasParam "t" (proxyUrlOf enc t) = true)
    /\ hasParam "t" (parseUrl bvid avid) = false.
Proof.
  intros H1 H2.
  pose proof (resolveShortLink_wellformed _ _ _ H1) as H0.
  destruct (@extractIds_wellformed url bvid0 bvid avid H0 H2) as [Hb Ha].
  destruct (@parseUrl_encodes bvid avid Hb Ha) as [enc Henc].
  exists enc. split; [exact Henc|]. split; [|split].
  - intros w2. rewrite fetchDirectUrl_run, Henc. reflexivity.
  - intros t. unfold hasParam.
    rewrite (@queryParams_proxyUrl _ _ t Henc). reflexivity.
  - unfold hasParam. rewrite (@queryParams_parseUrl bvid avid Hb Ha).
    destruct (nonEmpty bvid); reflexivity.
Qed.

(** C6, as stated, fails.  The stream call for [BV1xx411c7mD] fetches
    one URL; that proxy URL has a [t] parameter, but the target it
    carries in [url] has none. *)
Lemma stream_target_has_no_timestamp :
  ~ (forall u enc target,
       requests (snd (fetchDirectUrl offline (lit "BV1xx411c7mD") [] startWorld))
         = [u] ->
       paramValue "url" (queryParams u) = Some enc ->
       decodeURIComponent enc = Normal target ->
       hasParam "t" target = true /\ hasParam "t" u = true).
Proof.
  intros H.
  destruct (H (proxyUrlOf
                 (lit "https%3A%2F%2Fapi.injahow.cn%2Fbparse%2F%3Fbv%3DBV1xx411c7mD%26p%3D1%26q%3D80%26format%3Dmp4%26otype%3Djson")
                 1700000000000%Z)
              (lit "https%3A%2F%2Fapi.injahow.cn%2Fbparse%2F%3Fbv%3DBV1xx411c7mD%26p%3D1%26q%3D80%26format%3Dmp4%26otype%3Djson")
              (parseUrl (lit "BV1xx411c7mD") []))
    as [Hinner _]; try (vm_compute; reflexivity).
  vm_compute in Hinner. discriminate.
Qed.

(** C6, amended.  Every stream-resolution call carries the timestamp on
    the proxy URL: the one request of the stream step is
    [PROXY_RAW ++ encodeURIComponent(parseUrl) ++ "&t=" ++ Date.now()],
    whose parameters are [url] and [t], the clock reading.  (When the
    target cannot be encoded no request is made.)  The target itself
    carries the identifier and [p], [q], [format], [otype], and no
    timestamp. *)
Theorem stream_call_timestamped_on_proxy_url (host : Host)
  (bvid avid : jsstr) (w : World) :
  match encodeURIComponent (parseUrl bvid avid) with
  | Normal enc =>
      let t := now host (clockReads w) in
      requests (snd (fetchDirectUrl host bvid avid w))
        = requests w ++ [proxyUrlOf enc t]
      /\ queryParams (proxyUrlOf enc t)
         = [(lit "url", enc); (lit "t", numberToString t)]
  | Throw _ => requests (snd (fetchDirectUrl host bvid avid w)) = requests w
  end
  /\ (forallb alnum bvid = true -> forallb digit avid = true ->
      queryParams (parseUrl bvid avid)
        = [ (if nonEmpty bvid then (lit "bv", bvid) else (lit "av", avid));
            (lit "p", lit "1"); (lit "q", lit "80");
            (lit "format", lit "mp4"); (lit "otype", lit "json") ]
      /\ hasParam "t" (parseUrl bvid avid) = false).
Proof.
  split.
  - rewrite fetchDirectUrl_run.
    destruct (encodeURIComponent (parseUrl bvid avid)) as [enc|e] eqn:Henc;
      [|reflexivity].
    cbv zeta. split; [reflexivity|].
    exact (@queryParams_proxyUrl _ _ _ Henc).
  - intros Hb Ha. pose proof (queryParams_parseUrl bvid avid Hb Ha) as Hq.
    split; [exact Hq|].
    unfold hasParam. rewrite Hq. destruct (nonEmpty bvid); reflexivity.
Qed.

Lemma stream_call_timestamped_on_proxy_url_witness :
  queryParams (parseUrl [] (lit "170001"))
    = [ (lit "av", lit "170001"); (lit "p", lit "1"); (lit "q", lit "80");
        (lit "format", lit "mp4"); (lit "otype", lit "json") ]
  /\ hasParam "t" (parseUrl [] (lit "170001")) = false.
Proof.
  apply (proj2 (stream_call_timestamped_on_proxy_url
                  offline [] (lit "170001") startWorld));
    vm_compute; reflexivity.
Defined.

(** * Properties of the player's download effect *)

Import Player.

Lemma length_setNth (A : Type) (i : nat) (x : A) (l : list A) :
  List.length (setNth i x l) = List.length l.
Proof.
  revert i. induction l as [|y l IH]; intros [|i]; simpl; auto.
Qed.

Lemma nth_error_setNth_same (A : Type) (i : nat) (x y : A) (l : list A) :
  nth_error l i = Some y -> nth_error (setNth i x l) i = Some x.
Proof.
  revert i. induction l as [|z l IH]; intros [|i]; simpl;
    try discriminate; auto.
Qed.

Lemma nth_error_setNth_other (A : Type) (i j : nat) (x : A) (l : list A) :
  i <> j -> nth_error (setNth i x l) j = nth_error l j.
Proof.
  revert i j. induction l as [|z l IH]; intros [|i] [|j] H; simpl;
    try reflexivity; try congruence.
  apply IH. congruence.
Qed.

Lemma length_transfers_runCleanup (s : State) :
  List.length (transfers (runCleanup s)) = List.length (transfers s).
Proof.
  unfold runCleanup. destruct (cleanup s) as [id|]; [|reflexivity].
  destruct (nth_error (transfers s) id); [|reflexivity].
  simpl. apply length_setNth.
Qed.

(** ** Progress of a download *)

Lemma progressOf_le_99 (loaded total : Z) : (progressOf loaded total <= 99)%Q.
Proof. unfold progressOf. apply Q.le_min_r. Qed.

Lemma progressOf_monotone (loaded loaded' total : Z) :
  (0 < total)%Z -> (loaded <= loaded')%Z ->
  (progressOf loaded total <= progressOf loaded' total)%Q.
Proof.
  intros Ht Hl. unfold progressOf. apply Q.min_le_compat_r.
  apply Qmult_le_compat_r; [|discriminate].
  unfold Qdiv. apply Qmult_le_compat_r.
  - rewrite <- Zle_Qle. exact Hl.
  - apply Qinv_le_0_compat. change 0%Q with (inject_Z 0).
    rewrite <- Zle_Qle. lia.
Qed.

Lemma progressOf_zero (total : Z) : (0 <= progressOf 0 total)%Q.
Proof.
  unfold progressOf. apply Q.min_glb; [|discriminate].
  unfold Qdiv. change (inject_Z 0) with 0%Q. rewrite !Qmult_0_l.
  apply Qle_refl.
Qed.

(** The reading loop, from a state in which the transfer [id] is live
    and suspended in the loop. *)
Lemma reading_loop (values : list (option nat)) :
  forall (s : State) (id : nat) (total loaded : Z) (chunks : list nat),
  nth_error (transfers s) id
    = Some {| isAborted := false; stage := Reading total loaded chunks |} ->
  blobUrl s = None ->
  (downloadProgress s <= 99)%Q ->
  ((0 < total)%Z -> (downloadProgress s <= progressOf loaded total)%Q) ->
  let states := trace s (map (Chunk id) values ++ [Done id]) in
  nonDecreasing (downloadProgress s :: map downloadProgress states)
  /\ Forall (fun s' => (downloadProgress s' <= 99)%Q /\ blobUrl s' = None)
       (removelast states)
  /\ downloadProgress (last states s) = 100%Q
  /\ blobUrl (last states s) = Some (created s)
  /\ In (created s) (objectUrls (last states s)).
Proof.
  induction values as [|value values IH];
    intros s id total loaded chunks Ht Hb H99 Hp.
  - cbn [map app trace]. unfold step. rewrite Ht. cbn [stage].
    unfold finish. cbn [isAborted negb].
    cbn [removelast last map downloadProgress blobUrl objectUrls nonDecreasing].
    repeat split.
    + apply Qle_trans with (1 := H99). discriminate.
    + constructor.
    + left. reflexivity.
  - cbn [map app trace].
    set (s' := step s (Chunk id value)).
    assert (Hs' : exists loaded' chunks',
               nth_error (transfers s') id
                 = Some {| isAborted := false;
                           stage := Reading total loaded' chunks' |}
               /\ blobUrl s' = None
               /\ (downloadProgress s' <= 99)%Q
               /\ ((0 < total)%Z ->
                   (downloadProgress s' <= progressOf loaded' total)%Q)
               /\ (downloadProgress s <= downloadProgress s')%Q
               /\ created s' = created s).
    { subst s'. unfold step. rewrite Ht. cbn [stage isAborted].
      destruct value as [len|].
      - exists (loaded + Z.of_nat len)%Z, (chunks ++ [len]).
        destruct (0 <? total)%Z eqn:Hpos.
        + cbn [setDownloadProgress setTransfer transfers blobUrl
                 downloadProgress created].
          split; [eapply nth_error_setNth_same; exact Ht|].
          split; [exact Hb|]. split; [apply progressOf_le_99|].
          split; [intros _; apply Qle_refl|]. split; [|reflexivity].
          apply Z.ltb_lt in Hpos.
          apply Qle_trans with (1 := Hp Hpos).
          apply progressOf_monotone; lia.
        + cbn [setTransfer transfers blobUrl downloadProgress created].
          split; [eapply nth_error_setNth_same; exact Ht|].
          split; [exact Hb|]. split; [exact H99|].
          split; [intros Hpos'; apply Z.ltb_ge in Hpos; lia|].
          split; [apply Qle_refl | reflexivity].
      - exists loaded, chunks. repeat split; auto using Qle_refl. }
    destruct Hs' as [loaded' [chunks' [Ht' [Hb' [H99' [Hp' [Hle Hc]]]]]]].
    specialize (IH s' id total loaded' chunks' Ht' Hb' H99' Hp').
    cbv zeta in IH. destruct IH as [Hnd [Hall [Hlast [Hblob Hin]]]].
    assert (Hne : trace s' (map (Chunk id) values ++ [Done id]) <> []).
    { destruct values; discriminate. }
    cbv zeta.
    destruct (trace s' (map (Chunk id) values ++ [Done id])) as [|x xs] eqn:E;
      [congruence|].
    split.
    { cbn [map]. cbn [map] in Hnd. split; [exact Hle | exact Hnd]. }
    split.
    { change (removelast (s' :: x :: xs)) with (s' :: removelast (x :: xs)).
      constructor; [split; assumption | exact Hall]. }
    change (last (s' :: x :: xs) s) with (last (x :: xs) s).
    rewrite <- Hc.
    assert (Hl : last (x :: xs) s = last (x :: xs) s').
    { clear. revert x. induction xs as [|y ys IHy]; intros x;
        [reflexivity|]. exact (IHy y). }
    rewrite Hl. repeat split; assumption.
Qed.

Lemma step_progressHonest (s : State) (e : Event) :
  progressHonest s -> progressHonest (step s e).
Proof.
  intros H. destruct e as [url ty| | |id ok hasBody cl|id value|id|id abortError];
    unfold step.
  - destruct (unmounted s || sameProps (props s) url ty); [exact H|].
    left. destruct ty; cbn; discriminate.
  - destruct (unmounted s); [exact H|].
    unfold runCleanup. destruct (cleanup s) as [cid|]; [|exact H].
    destruct (nth_error (transfers s) cid); exact H.
  - exact H.
  - destruct (nth_error (transfers s) id) as [t|]; [|exact H].
    destruct (stage t); try exact H.
    destruct (ok && hasBody); [exact H|].
    unfold caught. cbn [negb]. destruct (negb (isAborted t)); exact H.
  - destruct (nth_error (transfers s) id) as [t|]; [|exact H].
    destruct (stage t) as [|total loaded chunks|]; try exact H.
    destruct value as [len|]; [|exact H].
    destruct (0 <? total)%Z; [|exact H].
    left. apply progressOf_le_99.
  - destruct (nth_error (transfers s) id) as [t|]; [|exact H].
    destruct (stage t); try exact H.
    unfold finish. destruct (negb (isAborted t)); [|exact H].
    right. split; [reflexivity | discriminate].
  - destruct (nth_error (transfers s) id) as [t|]; [|exact H].
    destruct (stage t); try exact H;
      unfold caught; destruct abortError; try exact H;
      destruct (negb (isAborted t)); exact H.
Qed.

Lemma run_progressHonest (events : list Event) (s : State) :
  progressHonest s -> progressHonest (run s events).
Proof.
  revert s. induction events as [|e events IH]; intros s H; [exact H|].
  apply IH, step_progressHonest, H.
Qed.

(** C3. A successful full download, started by rendering a new native
    source: the progress the player shows never decreases; in every
    state before the last it is at most 99 and no blob handle is set;
    the last event, after the whole body was read, creates the blob and
    sets the handle together with progress 100.  And in no reachable
    state at all is a progress above 99 shown without the blob handle
    being set. *)
Theorem download_progress_capped_until_complete (s0 : State) (url : jsstr)
  (contentLength : option Z) (values : list (option nat)) :
  unmounted s0 = false ->
  sameProps (props s0) url native = false ->
  let states := trace s0 (download s0 url contentLength values) in
  nonDecreasing (map downloadProgress states)
  /\ Forall (fun s => (downloadProgress s <= 99)%Q /\ blobUrl s = None)
       (removelast states)
  /\ downloadProgress (last states s0) = 100%Q
  /\ blobUrl (last states s0) = Some (created s0)
  /\ In (created s0) (objectUrls (last states s0))
  /\ forall events,
       (downloadProgress (run initial events) <= 99)%Q
       \/ (downloadProgress (run initial events) = 100%Q
           /\ blobUrl (run initial events) <> None).
Proof.
  intros Hu Hp. cbv zeta. unfold download.
  set (id := List.length (transfers s0)).
  cbn [trace].
  set (s1 := step s0 (Render url native)).
  set (s2 := step s1 (Responded id true true contentLength)).
  assert (H1 : s1 = runEffect url native (runCleanup s0)).
  { subst s1. unfold step. rewrite Hu, Hp. reflexivity. }
  assert (Ht1 : nth_error (transfers s1) id
                = Some {| isAborted := false; stage := AwaitingResponse |}).
  { rewrite H1. cbn [runEffect transfers]. subst id.
    rewrite <- (length_transfers_runCleanup s0).
    rewrite nth_error_app2 by lia. rewrite Nat.sub_diag. reflexivity. }
  assert (Hc1 : created s1 = created s0).
  { rewrite H1. cbn [runEffect created]. unfold runCleanup.
    destruct (cleanup s0) as [cid|]; [|reflexivity].
    destruct (nth_error (transfers s0) cid); reflexivity. }
  set (total := match contentLength with Some n => n | None => 0%Z end).
  assert (H2 : s2 = setTransfer id {| isAborted := false;
                                      stage := Reading total 0 [] |} s1).
  { subst s2. unfold step. rewrite Ht1. reflexivity. }
  assert (Hp1 : downloadProgress s1 = 0%Q) by (rewrite H1; reflexivity).
  assert (Hb1 : blobUrl s1 = None) by (rewrite H1; reflexivity).
  assert (Hloop := @reading_loop values s2 id total 0%Z []).
  cbv zeta in Hloop.
  destruct Hloop as [Hnd [Hall [Hlast [Hblob Hin]]]].
  { rewrite H2. cbn [setTransfer transfers].
    eapply nth_error_setNth_same. exact Ht1. }
  { rewrite H2. exact Hb1. }
  { rewrite H2. cbn [setTransfer downloadProgress]. rewrite Hp1.
    discriminate. }
  { intros _. rewrite H2. cbn [setTransfer downloadProgress]. rewrite Hp1.
    apply progressOf_zero. }
  assert (Hp2 : downloadProgress s2 = 0%Q) by (rewrite H2; exact Hp1).
  assert (Hb2 : blobUrl s2 = None) by (rewrite H2; exact Hb1).
  assert (Hc2 : created s2 = created s0) by (rewrite H2; exact Hc1).
  destruct (trace s2 (map (Chunk id) values ++ [Done id])) as [|x xs] eqn:E.
  { destruct values; discriminate. }
  split.
  { cbn [map]. cbn [map] in Hnd. rewrite Hp1.
    split; [rewrite Hp2; apply Qle_refl | exact Hnd]. }
  split.
  { change (removelast (s1 :: s2 :: x :: xs))
      with (s1 :: s2 :: removelast (x :: xs)).
    constructor; [split; [rewrite Hp1; discriminate | exact Hb1]|].
    constructor; [split; [rewrite Hp2; discriminate | exact Hb2]|].
    exact Hall. }
  change (last (s1 :: s2 :: x :: xs) s0) with (last (x :: xs) s0).
  assert (Hl : last (x :: xs) s0 = last (x :: xs) s2).
  { clear. revert x. induction xs as [|y ys IHy]; intros x;
      [reflexivity|]. exact (IHy y). }
  rewrite Hl, <- Hc2. repeat split; try assumption.
  intros events. apply (@run_progressHonest events initial).
  left. discriminate.
Qed.

Lemma download_progress_capped_until_complete_witness :
  let states :=
    trace initial (download initial (lit "https://x/y.mp4") (Some 10%Z)
                     [Some 4; Some 4; Some 2]) in
  nonDecreasing (map downloadProgress states)
  /\ Forall (fun s => (downloadProgress s <= 99)%Q /\ blobUrl s = None)
       (removelast states)
  /\ downloadProgress (last states initial) = 100%Q
  /\ blobUrl (last states initial) = Some (created initial)
  /\ In (created initial) (objectUrls (last states initial))
  /\ forall events,
       (downloadProgress (run initial events) <= 99)%Q
       \/ (downloadProgress (run initial events) = 100%Q
           /\ blobUrl (run initial events) <> None).
Proof.
  apply (@download_progress_capped_until_complete initial
           (lit "https://x/y.mp4") (Some 10%Z) [Some 4; Some 4; Some 2]);
    reflexivity.
Defined.

(** ** Abandoned transfers *)

Lemma step_cleanupBound (s : State) (e : Event) :
  cleanupBound s -> cleanupBound (step s e).
Proof.
  intros H. destruct e as [url ty| | |id ok hasBody cl|id value|id|id abortError];
    unfold step.
  - destruct (unmounted s || sameProps (props s) url ty); [exact H|].
    intros cid. destruct ty; cbn [runEffect cleanup transfers];
      [|discriminate].
    intros Hc. injection Hc as <-. rewrite length_app. simpl. lia.
  - destruct (unmounted s); [exact H|].
    intros cid. cbn [cleanup transfers]. rewrite length_transfers_runCleanup.
    unfold runCleanup. destruct (cleanup s) as [c|] eqn:Hc.
    + destruct (nth_error (transfers s) c) eqn:Hn; cbn [cleanup].
      * discriminate.
      * rewrite Hc. intros Hc'. apply H. congruence.
    + rewrite Hc. discriminate.
  - exact H.
  - destruct (nth_error (transfers s) id) as [t|]; [|exact H].
    destruct (stage t); try exact H.
    destruct (ok && hasBody).
    + intros cid. cbn [setTransfer cleanup transfers].
      rewrite length_setNth. apply H.
    + unfold caught. cbn [negb]. intros cid.
      destruct (negb (isAborted t));
        cbn [fallBack setTransfer cleanup transfers];
        rewrite length_setNth; apply H.
  - destruct (nth_error (transfers s) id) as [t|]; [|exact H].
    destruct (stage t); try exact H.
    destruct value as [len|]; [|exact H].
    intros cid.
    destruct (0 <? total)%Z;
      cbn [setDownloadProgress setTransfer cleanup transfers];
      rewrite length_setNth; apply H.
  - destruct (nth_error (transfers s) id) as [t|]; [|exact H].
    destruct (stage t); try exact H.
    unfold finish. intros cid.
    destruct (negb (isAborted t)); cbn [cleanup transfers];
      rewrite length_setNth; apply H.
  - destruct (nth_error (transfers s) id) as [t|]; [|exact H].
    intros cid.
    destruct (stage t); try apply H; unfold caught;
      destruct abortError; try destruct (negb (isAborted t));
      cbn [fallBack setTransfer cleanup transfers];
      rewrite length_setNth; apply H.
Qed.

Lemma run_cleanupBound (events : list Event) (s : State) :
  cleanupBound s -> cleanupBound (run s events).
Proof.
  revert s. induction events as [|e events IH]; intros s H; [exact H|].
  apply IH, step_cleanupBound, H.
Qed.

Lemma initial_cleanupBound : cleanupBound initial.
Proof. intros id H. discriminate. Qed.

Lemma aborted_setNth (l : list Transfer) (id id' : nat) (t' : Transfer)
  (b : bool) (st : Stage) :
  (exists t, nth_error l id = Some t /\ isAborted t = true) ->
  nth_error l id' = Some t' ->
  b = isAborted t' \/ b = true ->
  exists t, nth_error (setNth id' {| isAborted := b; stage := st |} l) id
            = Some t /\ isAborted t = true.
Proof.
  intros [t [Ht Ha]] Ht' Hb. destruct (Nat.eq_dec id' id) as [->|Hne].
  - erewrite nth_error_setNth_same by exact Ht. eexists. split; [reflexivity|].
    cbn [isAborted]. destruct Hb as [-> | ->]; [|reflexivity]. congruence.
  - rewrite nth_error_setNth_other by exact Hne. exists t. split; assumption.
Qed.

(** The cleanup of a render or of the unmount sets the flag of the
    transfer in flight. *)
Lemma runCleanup_aborts (s : State) (id : nat) :
  cleanupBound s -> cleanup s = Some id -> aborted id (runCleanup s).
Proof.
  intros Hwf Hc. unfold aborted, runCleanup. rewrite Hc.
  destruct (nth_error (transfers s) id) as [t|] eqn:Ht.
  - cbn [transfers]. erewrite nth_error_setNth_same by exact Ht.
    eexists. split; reflexivity.
  - apply nth_error_None in Ht. specialize (Hwf id Hc). lia.
Qed.

Lemma runCleanup_keeps_aborted (s : State) (id : nat) :
  aborted id s -> aborted id (runCleanup s).
Proof.
  intros H. unfold aborted, runCleanup.
  destruct (cleanup s) as [cid|]; [|exact H].
  destruct (nth_error (transfers s) cid) as [t|] eqn:Ht; [|exact H].
  cbn [transfers]. apply aborted_setNth with (t' := t); auto.
Qed.

(** Once set, the flag stays set. *)
Lemma step_keeps_aborted (s : State) (e : Event) (id : nat) :
  aborted id s -> aborted id (step s e).
Proof.
  intros H. destruct e as [url ty| | |id' ok hasBody cl|id' value|id'|id' abortError];
    unfold step.
  - destruct (unmounted s || sameProps (props s) url ty); [exact H|].
    apply runCleanup_keeps_aborted in H. destruct H as [t [Ht Ha]].
    unfold aborted. destruct ty; cbn [runEffect transfers].
    + exists t. split; [|exact Ha]. rewrite nth_error_app1; [exact Ht|].
      apply nth_error_Some. congruence.
    + exists t. split; assumption.
  - destruct (unmounted s); [exact H|].
    apply runCleanup_keeps_aborted in H. exact H.
  - exact H.
  - destruct (nth_error (transfers s) id') as [t|] eqn:Ht; [|exact H].
    destruct (stage t); try exact H.
    destruct (ok && hasBody).
    + unfold aborted. cbn [setTransfer transfers].
      apply aborted_setNth with (t' := t); auto.
    + unfold caught, aborted. cbn [negb].
      destruct (negb (isAborted t));
        cbn [fallBack setTransfer transfers];
        apply aborted_setNth with (t' := t); auto.
  - destruct (nth_error (transfers s) id') as [t|] eqn:Ht; [|exact H].
    destruct (stage t); try exact H.
    destruct value as [len|]; [|exact H].
    unfold aborted.
    destruct (0 <? total)%Z;
      cbn [setDownloadProgress setTransfer transfers];
      apply aborted_setNth with (t' := t); auto.
  - destruct (nth_error (transfers s) id') as [t|] eqn:Ht; [|exact H].
    destruct (stage t); try exact H.
    unfold finish, aborted.
    destruct (negb (isAborted t)); cbn [transfers];
      apply aborted_setNth with (t' := t); auto.
  - destruct (nth_error (transfers s) id') as [t|] eqn:Ht; [|exact H].
    destruct (stage t); try exact H; unfold caught, aborted;
      destruct abortError; try destruct (negb (isAborted t));
      cbn [fallBack setTransfer transfers];
      apply aborted_setNth with (t' := t); auto.
Qed.

(** What a transfer whose flag is set can still do to the React state:
    nothing to the blob handle, nothing to the fallback, and to the
    progress at most a write of 99 or less. *)
Lemma aborted_step_silent (s : State) (e : Event) (id : nat) :
  aborted id s -> transferOf e = Some id ->
  blobUrl (step s e) = blobUrl s
  /\ useDirectStream (step s e) = useDirectStream s
  /\ isDownloading (step s e) = isDownloading s
  /\ (downloadProgress (step s e) = downloadProgress s
      \/ (downloadProgress (step s e) <= 99)%Q).
Proof.
  intros [t [Ht Ha]] He.
  destruct e as [url ty| | |id' ok hasBody cl|id' value|id'|id' abortError];
    try discriminate; injection He as ->; unfold step; rewrite Ht.
  - destruct (stage t); try solve [repeat split; auto].
    destruct (ok && hasBody); [solve [repeat split; auto]|].
    unfold caught. rewrite Ha. cbn. repeat split; auto.
  - destruct (stage t); try solve [repeat split; auto].
    destruct value as [len|]; [|solve [repeat split; auto]].
    destruct (0 <? total)%Z; [|solve [repeat split; auto]].
    cbn. repeat split. right. apply progressOf_le_99.
  - destruct (stage t); try solve [repeat split; auto].
    unfold finish. rewrite Ha. cbn. repeat split; auto.
  - destruct (stage t); try solve [repeat split; auto];
      unfold caught; rewrite Ha; destruct abortError; cbn;
      repeat split; auto.
Qed.

Lemma aborted_silent (events : list Event) (s : State) (id : nat) :
  aborted id s -> silent id s events.
Proof.
  revert s. induction events as [|e events IH]; intros s H; [exact I|].
  cbn [silent]. split.
  - intros He. apply aborted_step_silent with (id := id); assumption.
  - apply IH. apply step_keeps_aborted. exact H.
Qed.

(** A transfer that has settled does nothing any more. *)
Lemma settled_step_noop (s : State) (e : Event) (id : nat) :
  settled id s -> transferOf e = Some id -> step s e = s.
Proof.
  intros [t [Ht Hs]] He.
  destruct e as [url ty| | |id' ok hasBody cl|id' value|id'|id' abortError];
    try discriminate; injection He as ->; unfold step; rewrite Ht, Hs;
    reflexivity.
Qed.

Lemma settled_setNth (l : list Transfer) (id id' : nat) (t' : Transfer)
  (b : bool) (st : Stage) :
  (exists t, nth_error l id = Some t /\ stage t = Settled) ->
  nth_error l id' = Some t' ->
  st = stage t' \/ st = Settled ->
  exists t, nth_error (setNth id' {| isAborted := b; stage := st |} l) id
            = Some t /\ stage t = Settled.
Proof.
  intros [t [Ht Hs]] Ht' Hst. destruct (Nat.eq_dec id' id) as [->|Hne].
  - erewrite nth_error_setNth_same by exact Ht. eexists.
    split; [reflexivity|]. cbn [stage].
    destruct Hst as [-> | ->]; [|reflexivity]. congruence.
  - rewrite nth_error_setNth_other by exact Hne. exists t. split; assumption.
Qed.

Lemma settled_setNth_other (l : list Transfer) (id id' : nat)
  (x : Transfer) :
  id' <> id ->
  (exists t, nth_error l id = Some t /\ stage t = Settled) ->
  exists t, nth_error (setNth id' x l) id = Some t /\ stage t = Settled.
Proof.
  intros Hne H. rewrite nth_error_setNth_other by exact Hne. exact H.
Qed.

Lemma step_keeps_settled (s : State) (e : Event) (id : nat) :
  settled id s -> settled id (step s e).
Proof.
  intros H. destruct (transferOf e) as [id'|] eqn:He.
  - destruct (Nat.eq_dec id' id) as [->|Hne].
    + rewrite (@settled_step_noop s e id H He). exact H.
    + destruct e as [url ty| | |i ok hasBody cl|i value|i|i abortError];
        try discriminate; injection He as ->; unfold step;
        destruct (nth_error (transfers s) id') as [t|] eqn:Ht; try exact H.
      * destruct (stage t) eqn:Hs; try exact H.
        destruct (ok && hasBody).
        -- unfold settled. cbn [setTransfer transfers].
           apply settled_setNth_other; assumption.
        -- unfold caught, settled. cbn [negb].
           destruct (negb (isAborted t));
             cbn [fallBack setTransfer transfers];
             apply settled_setNth_other; assumption.
      * destruct (stage t) eqn:Hs; try exact H.
        destruct value as [len|]; [|exact H].
        unfold settled.
        destruct (0 <? total)%Z;
          cbn [setDownloadProgress setTransfer transfers];
          apply settled_setNth_other; assumption.
      * destruct (stage t) eqn:Hs; try exact H.
        unfold finish, settled.
        destruct (negb (isAborted t)); cbn [transfers];
          apply settled_setNth_other; assumption.
      * destruct (stage t) eqn:Hs; try exact H; unfold caught, settled;
          destruct abortError; try destruct (negb (isAborted t));
          cbn [fallBack setTransfer transfers];
          apply settled_setNth_other; assumption.
  - destruct e as [url ty| | |i ok hasBody cl|i value|i|i abortError];
      try discriminate; unfold step.
    + destruct (unmounted s || sameProps (props s) url ty); [exact H|].
      assert (Hc : settled id (runCleanup s)).
      { unfold settled, runCleanup.
        destruct (cleanup s) as [cid|]; [|exact H].
        destruct (nth_error (transfers s) cid) as [t|] eqn:Ht; [|exact H].
        cbn [transfers]. apply settled_setNth with (t' := t); auto. }
      destruct Hc as [t [Ht Hs]]. unfold settled.
      destruct ty; cbn [runEffect transfers].
      * exists t. split; [|exact Hs]. rewrite nth_error_app1; [exact Ht|].
        apply nth_error_Some. congruence.
      * exists t. split; assumption.
    + destruct (unmounted s); [exact H|].
      unfold settled, runCleanup. cbn [transfers].
      destruct (cleanup s) as [cid|]; [|exact H].
      destruct (nth_error (transfers s) cid) as [t|] eqn:Ht; [|exact H].
      cbn [transfers]. apply settled_setNth with (t' := t); auto.
    + exact H.
Qed.

Lemma settled_unseen (events : list Event) (s : State) (id : nat) :
  settled id s -> unseen id s events.
Proof.
  revert s. induction events as [|e events IH]; intros s H; [exact I|].
  cbn [unseen]. split.
  - intros He. rewrite (@settled_step_noop s e id H He). reflexivity.
  - apply IH. apply step_keeps_settled. exact H.
Qed.

(** The rejection of the pending await settles the transfer. *)
Lemma failed_settles (s : State) (id : nat) (abortError : bool) :
  (id < List.length (transfers s))%nat ->
  settled id (step s (Failed id abortError)).
Proof.
  intros Hlt. unfold step, settled.
  destruct (nth_error (transfers s) id) as [t|] eqn:Ht.
  - destruct (stage t) eqn:Hs.
    + unfold caught. destruct abortError; [|destruct (negb (isAborted t))];
        cbn [fallBack setTransfer transfers];
        (erewrite nth_error_setNth_same by exact Ht);
        eexists; split; reflexivity.
    + unfold caught. destruct abortError; [|destruct (negb (isAborted t))];
        cbn [fallBack setTransfer transfers];
        (erewrite nth_error_setNth_same by exact Ht);
        eexists; split; reflexivity.
    + exists t. split; assumption.
  - apply nth_error_None in Ht. lia.
Qed.

(** A cancelled await changes nothing the player shows. *)
Lemma cancelled_changes_nothing (s : State) (id : nat) :
  view (step s (Failed id true)) = view s.
Proof.
  unfold step. destruct (nth_error (transfers s) id) as [t|]; [|reflexivity].
  destruct (stage t); reflexivity.
Qed.

(** Among the events of a transfer only a failure that is not a
    cancellation, of a transfer whose flag is not set, switches to the
    direct stream. *)
Lemma fallback_only_on_failure (s : State) (e : Event) (id : nat) :
  transferOf e = Some id ->
  useDirectStream s = false -> useDirectStream (step s e) = true ->
  isFailure e = true
  /\ exists t, nth_error (transfers s) id = Some t /\ isAborted t = false.
Proof.
  intros He Hs.
  destruct e as [url ty| | |id' ok hasBody cl|id' value|id'|id' abortError];
    try discriminate; injection He as ->; unfold step;
    destruct (nth_error (transfers s) id) as [t|] eqn:Ht;
    try (intros H; congruence).
  - destruct (stage t); try (intros H; congruence).
    cbn [isFailure].
    destruct (ok && hasBody); [cbn; intros H; congruence|].
    unfold caught. cbn [negb].
    destruct (isAborted t) eqn:Ha; cbn; intros H; [congruence|].
    split; [reflexivity|]. exists t. split; [reflexivity | exact Ha].
  - destruct (stage t); try (intros H; congruence).
    destruct value as [len|]; [|intros H; congruence].
    destruct (0 <? total)%Z; cbn; intros H; congruence.
  - destruct (stage t); try (intros H; congruence).
    unfold finish. destruct (negb (isAborted t)); cbn; intros H; congruence.
  - cbn [isFailure].
    destruct (stage t); try (intros H; congruence);
      unfold caught; destruct abortError; cbn [negb];
      try (cbn; intros H; congruence);
      destruct (isAborted t) eqn:Ha; cbn; intros H; try congruence;
      (split; [reflexivity|]; exists t; split; [reflexivity | exact Ha]).
Qed.

(** A failure that is not a cancellation, of a transfer whose flag is
    not set, switches to the direct stream. *)
Lemma failure_falls_back (s : State) (e : Event) (id : nat) (t : Transfer) :
  transferOf e = Some id -> isFailure e = true ->
  nth_error (transfers s) id = Some t ->
  isAborted t = false -> awaited e t = true ->
  useDirectStream (step s e) = true
  /\ isDownloading (step s e) = false
  /\ blobUrl (step s e) = blobUrl s.
Proof.
  intros He Hf Ht Ha Hw.
  destruct e as [url ty| | |id' ok hasBody cl|id' value|id'|id' abortError];
    try discriminate; injection He as ->; unfold step; rewrite Ht;
    unfold awaited in Hw; cbn [isFailure] in Hf.
  - destruct (stage t); try discriminate Hw.
    apply negb_true_iff in Hf. rewrite Hf.
    unfold caught. rewrite Ha. cbn. repeat split.
  - apply negb_true_iff in Hf. subst abortError.
    destruct (stage t); try discriminate Hw;
      unfold caught; rewrite Ha; cbn; repeat split.
Qed.

(** C4. When the download in flight is abandoned, by a render with a new
    source or player type or by the unmount, then whatever is delivered
    afterwards and in whatever order, nothing that transfer does sets
    the blob handle, switches to the direct stream or writes progress
    100.  When the abort reaches the transfer as the platform delivers
    it, as the rejection of its pending await with an [AbortError],
    nothing it does changes anything the player shows.  A cancelled
    await never changes what the player shows.  Among the events of a
    transfer, only a failure that is not a cancellation switches to the
    direct stream; and such a failure of a transfer that is not
    abandoned always does: it switches to the direct stream and ends the
    loading state. *)
Theorem abandoned_transfer_is_silent :
  (forall (history : list Event) (id : nat) (teardown : Event)
          (events : list Event),
     let s := run initial history in
     cleanup s = Some id -> unmounted s = false ->
     (teardown = Unmount
      \/ exists url ty, teardown = Render url ty
                        /\ sameProps (props s) url ty = false) ->
     silent id (step s teardown) events)
  /\ (forall (history : list Event) (id : nat) (teardown : Event)
             (events : list Event),
        let s := run initial history in
        cleanup s = Some id -> unmounted s = false ->
        (teardown = Unmount
         \/ exists url ty, teardown = Render url ty
                           /\ sameProps (props s) url ty = false) ->
        unseen id (step s teardown) (Failed id true :: events))
  /\ (forall (s : State) (id : nat),
        view (step s (Failed id true)) = view s)
  /\ (forall (s : State) (e : Event) (id : nat),
        transferOf e = Some id ->
        useDirectStream s = false -> useDirectStream (step s e) = true ->
        isFailure e = true
        /\ exists t, nth_error (transfers s) id = Some t
                     /\ isAborted t = false)
  /\ (forall (s : State) (e : Event) (id : nat) (t : Transfer),
        transferOf e = Some id -> isFailure e = true ->
        nth_error (transfers s) id = Some t ->
        isAborted t = false -> awaited e t = true ->
        useDirectStream (step s e) = true
        /\ isDownloading (step s e) = false
        /\ blobUrl (step s e) = blobUrl s).
Proof.
  assert (Habort : forall history id teardown,
            let s := run initial history in
            cleanup s = Some id -> unmounted s = false ->
            (teardown = Unmount
             \/ exists url ty, teardown = Render url ty
                               /\ sameProps (props s) url ty = false) ->
            aborted id (step s teardown)).
  { intros history id teardown s Hc Hu Ht.
    assert (Hwf : cleanupBound s)
      by (apply run_cleanupBound, initial_cleanupBound).
    destruct (@runCleanup_aborts s id Hwf Hc) as [t [Hn Ha]].
    destruct Ht as [-> | [url [ty [-> Hp]]]]; unfold step; rewrite Hu.
    - exists t. split; assumption.
    - cbn [orb]. rewrite Hp. exists t. split; [|exact Ha].
      destruct ty; cbn [runEffect transfers]; [|exact Hn].
      rewrite nth_error_app1; [exact Hn|]. apply nth_error_Some. congruence. }
  split; [|split; [|split; [exact cancelled_changes_nothing
                           | split; [exact fallback_only_on_failure
                                    | exact failure_falls_back]]]].
  - intros history id teardown events s Hc Hu Ht.
    apply aborted_silent. apply Habort; assumption.
  - intros history id teardown events s Hc Hu Ht.
    destruct (Habort history id teardown Hc Hu Ht) as [t [Hn _]].
    cbn [unseen]. split.
    + intros _. apply cancelled_changes_nothing.
    + apply settled_unseen. apply failed_settles.
      apply nth_error_Some. subst s. rewrite Hn. discriminate.
Qed.

Lemma abandoned_transfer_is_silent_witness :
  silent 0
    (step (run initial [ Render (lit "https://x/a.mp4") native;
                         Responded 0 true true (Some 10%Z);
                         Chunk 0 (Some 4) ])
       (Render (lit "https://x/b.mp4") native))
    [ Chunk 0 (Some 4); Done 0; Responded 1 true false None;
      Failed 0 false ]
  /\ useDirectStream
       (step (run initial [ Render (lit "https://x/a.mp4") native;
                            Responded 0 true true (Some 10%Z) ])
          (Failed 0 false)) = true
  /\ isDownloading
       (step (run initial [ Render (lit "https://x/a.mp4") native ])
          (Responded 0 false true None)) = false.
Proof.
  split; [|split].
  - apply (proj1 abandoned_transfer_is_silent
             [ Render (lit "https://x/a.mp4") native;
               Responded 0 true true (Some 10%Z); Chunk 0 (Some 4) ]
             0 (Render (lit "https://x/b.mp4") native)).
    + reflexivity.
    + reflexivity.
    + right. exists (lit "https://x/b.mp4"), native. split; reflexivity.
  - apply (proj2 (proj2 (proj2 (proj2 abandoned_transfer_is_silent)))
             (run initial [ Render (lit "https://x/a.mp4") native;
                            Responded 0 true true (Some 10%Z) ])
             (Failed 0 false) 0
             {| isAborted := false; stage := Reading 10 0 [] |});
      reflexivity.
  - apply (proj2 (proj2 (proj2 (proj2 abandoned_transfer_is_silent)))
             (run initial [ Render (lit "https://x/a.mp4") native ])
             (Responded 0 false true None) 0
             {| isAborted := false; stage := AwaitingResponse |});
      reflexivity.
Defined.

(** ** The lifetime of the blob *)

Lemma step_after_unmount (s : State) (e : Event) :
  unmounted s = true ->
  unmounted (step s e) = true
  /\ forall h, In h (objectUrls s) -> In h (objectUrls (step s e)).
Proof.
  intros Hu.
  destruct e as [url ty| | |id ok hasBody cl|id value|id|id abortError];
    unfold step; try rewrite Hu; auto.
  - destruct (nth_error (transfers s) id) as [t|]; auto.
    destruct (stage t); auto.
    destruct (ok && hasBody); [auto|].
    unfold caught. cbn [negb]. destruct (negb (isAborted t)); auto.
  - destruct (nth_error (transfers s) id) as [t|]; auto.
    destruct (stage t); auto. destruct value as [len|]; auto.
    destruct (0 <? total)%Z; auto.
  - destruct (nth_error (transfers s) id) as [t|]; auto.
    destruct (stage t); auto. unfold finish.
    destruct (negb (isAborted t)); cbn; auto.
  - destruct (nth_error (transfers s) id) as [t|]; auto.
    destruct (stage t); auto; unfold caught; destruct abortError; auto;
      destruct (negb (isAborted t)); auto.
Qed.

Lemma run_after_unmount (events : list Event) (s : State) (h : nat) :
  unmounted s = true -> In h (objectUrls s) ->
  In h (objectUrls (run s events)).
Proof.
  revert s. induction events as [|e events IH]; intros s Hu Hh; [exact Hh|].
  destruct (@step_after_unmount s e Hu) as [Hu' Hin].
  apply IH; [exact Hu' | apply Hin, Hh].
Qed.

(** C5, at the run where the code departs from it.  A player buffers a
    file and is unmounted: the cleanup only aborts, so the object URL is
    still live, with the handle still held, and nothing delivered later
    revokes it.  Loading another source instead does revoke it. *)
Theorem blob_outlives_unmount :
  blobUrl (run initial bufferedThenUnmounted) = Some 0
  /\ objectUrls (run initial bufferedThenUnmounted) = [0]
  /\ (forall events,
        In 0 (objectUrls (run (run initial bufferedThenUnmounted) events)))
  /\ objectUrls (run initial bufferedThenReloaded) = [].
Proof.
  split; [reflexivity|]. split; [reflexivity|]. split; [|reflexivity].
  intros events. apply run_after_unmount; [reflexivity|].
  left. reflexivity.
Qed.

(** * Further properties of the input-resolution pipeline *)

Unset Implicit Arguments.

(** ** Whitespace around the input *)

Lemma trimStart_fixed (s : jsstr) :
  match s with [] => True | c :: _ => isWhiteSpace c = false end ->
  trimStart s = s.
Proof. destruct s as [|c s]; cbn; [reflexivity|]. intros ->. reflexivity. Qed.

Lemma trimStart_head (s : jsstr) :
  match trimStart s with [] => True | c :: _ => isWhiteSpace c = false end.
Proof.
  induction s as [|c s IH]; cbn; [exact I|].
  destruct (isWhiteSpace c) eqn:E; [exact IH | exact E].
Qed.

Lemma trimStart_idempotent (s : jsstr) : trimStart (trimStart s) = trimStart s.
Proof. apply trimStart_fixed, trimStart_head. Qed.

Lemma trimEnd_idempotent (s : jsstr) : trimEnd (trimEnd s) = trimEnd s.
Proof.
  unfold trimEnd. rewrite rev_involutive, trimStart_idempotent. reflexivity.
Qed.

Lemma trimStart_snoc (x : jsstr) (c : N) :
  isWhiteSpace c = false -> exists y, trimStart (x ++ [c]) = y ++ [c].
Proof.
  intros Hc. induction x as [|d x [y Hy]]; cbn.
  - rewrite Hc. exists []. reflexivity.
  - destruct (isWhiteSpace d).
    + exists y. exact Hy.
    + exists (d :: x). reflexivity.
Qed.

(** Trimming the end keeps a first character that is not white space. *)
Lemma trimEnd_head (s : jsstr) :
  match s with [] => True | c :: _ => isWhiteSpace c = false end ->
  match trimEnd s with [] => True | c :: _ => isWhiteSpace c = false end.
Proof.
  destruct s as [|c s]; [intros _; exact I|]. intros Hc.
  unfold trimEnd. cbn [rev].
  destruct (trimStart_snoc (rev s) c Hc) as [y Hy]. rewrite Hy.
  rewrite rev_app_distr. cbn. exact Hc.
Qed.

Lemma trim_idempotent (s : jsstr) : trim (trim s) = trim s.
Proof.
  unfold trim.
  rewrite (trimStart_fixed (trimEnd (trimStart s))).
  - apply trimEnd_idempotent.
  - apply trimEnd_head, trimStart_head.
Qed.

(** X1. White space around the input never matters: in both revisions
    [parseVideoInput] does on an input exactly what it does on the
    trimmed input. *)
Theorem parseVideoInput_ignores_surrounding_space (host : Host)
  (input : jsstr) (w : World) :
  parseVideoInput host input w = parseVideoInput host (trim input) w
  /\ Rev2.parseVideoInput host input w
     = Rev2.parseVideoInput host (trim input) w.
Proof.
  unfold parseVideoInput, Rev2.parseVideoInput.
  rewrite trim_idempotent. split; reflexivity.
Qed.

(** ** Which branch an input takes *)

Lemma exec_consuming {R : Type} (r : regex) :
  consuming r ->
  forall (s : jsstr) (k : jsstr -> option R) (x : R),
  exec r s k = Some x ->
  exists a s', s = a ++ s' /\ a <> [] /\ k s' = Some x.
Proof.
  induction r as [|c|p|r1 IH1 r2 IH2|r1 IH1 r2 IH2|r1 IH1|];
    intros Hc s k x; cbn [exec]; cbn in Hc; try contradiction.
  - destruct s as [|y s]; [discriminate|].
    destruct (N.eqb y c); [|discriminate].
    intros H. exists [y], s. repeat split; [discriminate | exact H].
  - destruct s as [|y s]; [discriminate|].
    destruct (p y); [|discriminate].
    intros H. exists [y], s. repeat split; [discriminate | exact H].
  - intros H. destruct Hc as [Hc | Hc].
    + destruct (IH1 Hc _ _ _ H) as [a1 [s1 [-> [Hne H1]]]].
      destruct (@exec_consumes R (fun _ => true) r2 (within_any r2) _ _ _ H1)
        as [a2 [s2 [-> [_ H2]]]].
      exists (a1 ++ a2), s2. rewrite <- app_assoc.
      repeat split; [|exact H2]. destruct a1; [congruence | discriminate].
    + destruct (@exec_consumes R (fun _ => true) r1 (within_any r1) _ _ _ H)
        as [a1 [s1 [-> [_ H1]]]].
      destruct (IH2 Hc _ _ _ H1) as [a2 [s2 [-> [Hne H2]]]].
      exists (a1 ++ a2), s2. rewrite <- app_assoc.
      repeat split; [|exact H2].
      destruct a1; [exact Hne | discriminate].
  - destruct Hc as [Hc1 Hc2].
    destruct (exec r1 s k) as [x'|] eqn:E.
    + intros H. injection H as ->. exact (IH1 Hc1 _ _ _ E).
    + exact (IH2 Hc2 _ _ _).
Qed.

(** Group 1 of a pattern whose group must consume is never empty. *)
Lemma jsmatch_captured_nonEmpty (p : pattern) (s whole g : jsstr) :
  consuming (captured p) ->
  jsmatch p s = Some (whole, g) -> nonEmpty g = true.
Proof.
  intros Hc.
  assert (Hhere : forall t, matchHere p t = Some (whole, g) ->
                            nonEmpty g = true).
  { intros t H. unfold matchHere in H.
    destruct (@exec_consumes _ (fun _ => true) _ (within_any (before p))
                _ _ _ H) as [a0 [s1 [-> [_ H1]]]].
    destruct (exec_consuming _ Hc _ _ _ H1) as [a [s2 [-> [Hne H2]]]].
    destruct (@exec_consumes _ (fun _ => true) _ (within_any (after p))
                _ _ _ H2) as [a3 [s3 [-> [_ H3]]]].
    injection H3 as _ <-. rewrite consumed_app.
    destruct a; [congruence | reflexivity]. }
  induction s as [|c s IH]; cbn [jsmatch].
  - destruct (matchHere p []) as [[w0 g0]|] eqn:E; [|discriminate].
    intros H. injection H as -> ->. exact (Hhere _ E).
  - destruct (matchHere p (c :: s)) as [[w0 g0]|] eqn:E; [|exact IH].
    intros H. injection H as -> ->. exact (Hhere _ E).
Qed.

Lemma bv_consuming : consuming (captured bvRegex).
Proof. cbn. auto. Qed.

Lemma av_consuming : consuming (captured avRegex).
Proof. cbn. auto. Qed.

(** Step 2 on a string, from an empty [bvid]: the identifiers of
    [idsOf]. *)
Lemma extractIds_idsOf (url : jsstr) :
  extractIds (VStr url) [] = Normal (idsOf url)
  /\ Rev2.extractIds (VStr url) [] = Normal (idsOf url).
Proof.
  unfold extractIds, Rev2.extractIds, idsOf. cbn [matchValue nonEmpty negb].
  destruct (jsmatch bvRegex url) as [[w g]|];
    destruct (jsmatch avRegex url) as [[w' g']|]; split; reflexivity.
Qed.

Lemma idsOf_found (url : jsstr) :
  jsmatch bvRegex url <> None \/ jsmatch avRegex url <> None ->
  nonEmpty (fst (idsOf url)) || nonEmpty (snd (idsOf url)) = true.
Proof.
  unfold idsOf. intros H.
  destruct (jsmatch bvRegex url) as [[w g]|] eqn:Ebv.
  - cbn [fst snd].
    rewrite (jsmatch_captured_nonEmpty _ _ _ _ bv_consuming Ebv).
    reflexivity.
  - destruct (jsmatch avRegex url) as [[w g]|] eqn:Eav.
    + cbn [fst snd nonEmpty orb].
      exact (jsmatch_captured_nonEmpty _ _ _ _ av_consuming Eav).
    + destruct H; congruence.
Qed.

Lemma idsOf_none (url : jsstr) :
  jsmatch bvRegex url = None -> jsmatch avRegex url = None ->
  idsOf url = ([], []).
Proof. unfold idsOf. intros -> ->. reflexivity. Qed.

(** Without a short link, [parseVideoInput] is steps 2 to 4 on the
    trimmed input, in both revisions. *)
Lemma parseVideoInput_without_short_link (host : Host) (input : jsstr)
  (w : World) :
  includes (trim input) (lit "b23.tv") = false ->
  parseVideoInput host input w
    = parseIdentified host (VStr (trim input))
        (fst (idsOf (trim input))) (snd (idsOf (trim input))) w
  /\ Rev2.parseVideoInput host input w
     = parseIdentified host (VStr (trim input))
         (fst (idsOf (trim input))) (snd (idsOf (trim input))) w.
Proof.
  intros Hs.
  unfold parseVideoInput, Rev2.parseVideoInput,
    resolveShortLink, Rev2.resolveShortLink.
  rewrite Hs, !bind_run. unfold ret. rewrite !bind_run. unfold lift.
  destruct (extractIds_idsOf (trim input)) as [-> ->].
  destruct (idsOf (trim input)) as [bvid avid]. split; reflexivity.
Qed.

(** The Bilibili branch throws nothing but the [TypeError] of line 88. *)
Lemma parseBilibili_throws_only_TypeError (host : Host) (bvid avid : jsstr)
  (w w' : World) (e : JsError) :
  parseBilibili host bvid avid w = (Throw e, w') -> e = TypeError.
Proof.
  unfold parseBilibili. rewrite bind_run.
  destruct (fetchMetadata_never_throws host bvid avid w) as [m [w1 ->]].
  rewrite bind_run.
  destruct (fetchDirectUrl_never_throws host bvid avid w1) as [[d pe] [w2 ->]].
  unfold lift, constructResponse.
  destruct m; cbn [getProp]; try (destruct (truthy d); discriminate);
    intros H; injection H as <- _; reflexivity.
Qed.

(** X2. An input without ["b23.tv"] in which the BV or the av pattern
    matches is handled by the Bilibili branch, whatever else it looks
    like (a YouTube link, a media file): the run is the Bilibili branch
    for the BV id if there is one, else for the av id; every result has
    platform [bilibili] and that id; and the only rejection possible is
    the [TypeError], never "Format not supported". *)
Theorem bilibili_id_takes_precedence (host : Host) (input : jsstr)
  (w : World) :
  includes (trim input) (lit "b23.tv") = false ->
  jsmatch bvRegex (trim input) <> None
  \/ jsmatch avRegex (trim input) <> None ->
  let bvid := fst (idsOf (trim input)) in
  let avid := snd (idsOf (trim input)) in
  parseVideoInput host input w = parseBilibili host bvid avid w
  /\ Rev2.parseVideoInput host input w = parseBilibili host bvid avid w
  /\ (forall r w', parseVideoInput host input w = (Normal r, w') ->
        ParsedVideoData.platform r = bilibili
        /\ ParsedVideoData.id r = orElseStr bvid avid)
  /\ (forall e w', parseVideoInput host input w = (Throw e, w') ->
        e = TypeError).
Proof.
  intros Hs Hm bvid avid.
  destruct (parseVideoInput_without_short_link host input w Hs) as [H1 H2].
  assert (Hp : parseIdentified host (VStr (trim input)) bvid avid w
               = parseBilibili host bvid avid w).
  { unfold parseIdentified. subst bvid avid.
    rewrite (idsOf_found _ Hm). reflexivity. }
  rewrite H1, H2. fold bvid avid. rewrite Hp.
  split; [reflexivity|]. split; [reflexivity|]. split.
  - intros r w' H. exact (@parseBilibili_platform host bvid avid w w' r H).
  - intros e w' H.
    exact (parseBilibili_throws_only_TypeError host bvid avid w w' e H).
Qed.

Lemma bilibili_id_takes_precedence_witness :
  parseVideoInput offline
    (lit "https://youtu.be/BV1xx411c7mD?x=av42.mp4") startWorld
  = parseBilibili offline (lit "BV1xx411c7mD") [] startWorld.
Proof.
  apply (bilibili_id_takes_precedence offline
           (lit "https://youtu.be/BV1xx411c7mD?x=av42.mp4") startWorld).
  - vm_compute. reflexivity.
  - left. vm_compute. discriminate.
Defined.

(** X3. An input without ["b23.tv"] and without a BV or av id is decided
    without the network and without the clock: no request is made,
    whatever the host, and the outcome is that of steps 3 and 4 on the
    trimmed input alone. *)
Theorem other_inputs_need_no_network (host : Host) (input : jsstr)
  (w : World) :
  includes (trim input) (lit "b23.tv") = false ->
  jsmatch bvRegex (trim input) = None ->
  jsmatch avRegex (trim input) = None ->
  parseVideoInput host input w = (parseOther (VStr (trim input)), w)
  /\ Rev2.parseVideoInput host input w = (parseOther (VStr (trim input)), w).
Proof.
  intros Hs Hbv Hav.
  destruct (parseVideoInput_without_short_link host input w Hs) as [-> ->].
  rewrite (idsOf_none _ Hbv Hav). split; reflexivity.
Qed.

Lemma other_inputs_need_no_network_witness :
  parseVideoInput offline (lit " https://youtu.be/dQw4w9WgXcQ ") startWorld
  = (parseOther (VStr (trim (lit " https://youtu.be/dQw4w9WgXcQ "))),
     startWorld).
Proof.
  apply (other_inputs_need_no_network offline
           (lit " https://youtu.be/dQw4w9WgXcQ ") startWorld);
    vm_compute; reflexivity.
Defined.

(** ** The requests of a run *)

Lemma pure_ret {A : Type} (a : A) : pure (ret a).
Proof. intros w. reflexivity. Qed.

Lemma pure_lift {A : Type} (c : completion A) : pure (lift c).
Proof. intros w. reflexivity. Qed.

Lemma pure_json (res : option value) : pure (json res).
Proof. destruct res; intros w; reflexivity. Qed.

Lemma pure_bind {A B : Type} (c : M A) (f : A -> M B) :
  pure c -> (forall a, pure (f a)) -> pure (bind c f).
Proof.
  intros Hc Hf w. rewrite bind_run. specialize (Hc w).
  destruct (c w) as [[a|e] w1]; cbn in Hc; subst w1; [apply Hf|reflexivity].
Qed.

Lemma stampedFrom_app (host : Host) (a b : list jsstr) (k : nat) :
  stampedFrom host k a -> stampedFrom host (k + List.length a) b ->
  stampedFrom host k (a ++ b).
Proof.
  revert k. induction a as [|u a IH]; intros k Ha Hb; cbn in *.
  - rewrite Nat.add_0_r in Hb. exact Hb.
  - destruct Ha as [Hu Ha]. split; [exact Hu|]. apply IH; [exact Ha|].
    replace (S k + List.length a)%nat with (k + S (List.length a))%nat by lia.
    exact Hb.
Qed.

Lemma accounted_same (host : Host) (w : World) (bound : nat) :
  accounted host w w bound.
Proof.
  exists []. rewrite app_nil_r. cbn. repeat split; lia.
Qed.

Lemma accounted_trans (host : Host) (w w1 w2 : World) (a b : nat) :
  accounted host w w1 a -> accounted host w1 w2 b ->
  accounted host w w2 (a + b).
Proof.
  intros [l1 [Hr1 [Hc1 [Hl1 Hs1]]]] [l2 [Hr2 [Hc2 [Hl2 Hs2]]]].
  exists (l1 ++ l2). rewrite Hr2, Hr1, Hc2, Hc1, length_app, <- app_assoc.
  repeat split; try lia. apply stampedFrom_app; [exact Hs1|].
  rewrite <- Hc1. exact Hs2.
Qed.

Lemma accounted_weaken (host : Host) (w w' : World) (a b : nat) :
  (a <= b)%nat -> accounted host w w' a -> accounted host w w' b.
Proof.
  intros Hab [l [Hr [Hc [Hl Hs]]]]. exists l. repeat split; auto; lia.
Qed.

Lemma accounted_bind {A B : Type} (host : Host) (c : M A) (f : A -> M B)
  (a b : nat) (w : World) :
  (forall w, accounted host w (snd (c w)) a) ->
  (forall x w, accounted host w (snd (f x w)) b) ->
  accounted host w (snd (bind c f w)) (a + b).
Proof.
  intros Hc Hf. rewrite bind_run. specialize (Hc w).
  destruct (c w) as [[x|e] w1]; cbn [snd] in *.
  - exact (accounted_trans host w w1 _ a b Hc (Hf x w1)).
  - apply (accounted_weaken host w w1 a); [lia | exact Hc].
Qed.

Lemma accounted_pure {A : Type} (host : Host) (c : M A) (w : World)
  (bound : nat) :
  pure c -> accounted host w (snd (c w)) bound.
Proof. intros H. rewrite H. apply accounted_same. Qed.

Lemma queryParams_through (proxy target enc : jsstr) (t : Z) :
  proxy = PROXY_RAW \/ proxy = PROXY_JSON ->
  encodeURIComponent target = Normal enc ->
  queryParams (proxy ++ enc ++ lit "&t=" ++ numberToString t)
    = [(lit "url", enc); (lit "t", numberToString t)].
Proof.
  intros Hp Henc. unfold queryParams.
  assert (Ha : afterFirst 63 (proxy ++ enc ++ lit "&t=" ++ numberToString t)
               = Some ((lit "url=" ++ enc)
                       ++ 38%N :: lit "t=" ++ numberToString t)).
  { destruct Hp as [-> | ->]; reflexivity. }
  rewrite Ha. rewrite split_at_sep.
  - rewrite split_no_sep.
    + reflexivity.
    + repeat constructor; try (simpl; lia). apply numberToString_no_amp.
  - repeat constructor; try (simpl; lia).
    exact (@encodeURIComponent_no_amp target enc Henc).
Qed.

(** One guarded call through a proxy: encode the target, read the
    clock, fetch; what follows and the handler do not touch the world. *)
Lemma accounted_call {A : Type} (host : Host) (proxy target : jsstr)
  (rest : option value -> M A) (handler : M A) (w : World) :
  proxy = PROXY_RAW \/ proxy = PROXY_JSON ->
  (forall res, pure (rest res)) -> pure handler ->
  accounted host w
    (snd (tryCatch
            (bind (lift (encodeURIComponent target)) (fun enc =>
             bind (dateNow host) (fun t =>
             bind (fetch host (proxy ++ enc ++ lit "&t=" ++ numberToString t))
               rest)))
            handler w)) 1.
Proof.
  intros Hp Hrest Hh. unfold tryCatch. rewrite bind_run. unfold lift.
  destruct (encodeURIComponent target) as [enc|e] eqn:Henc.
  - rewrite bind_run. unfold dateNow. rewrite bind_run. unfold fetch.
    cbn [requests clockReads]. cbv zeta.
    set (u := proxy ++ enc ++ lit "&t=" ++ numberToString (now host (clockReads w))).
    set (w1 := {| clockReads := S (clockReads w);
                  requests := requests w ++ [u] |}).
    assert (Hw1 : accounted host w w1 1).
    { exists [u]. cbn. repeat split; try lia.
      exists proxy, target, enc. repeat split; auto.
      apply (queryParams_through proxy target); assumption. }
    destruct (respond host (List.length (requests w)) u) as [|parsed].
    + rewrite Hh. exact Hw1.
    + match goal with
      | |- context [rest parsed ?x] =>
          pose proof (Hrest parsed x) as Hr;
          destruct (rest parsed x) as [[a|e] w2]
      end; cbn [snd] in Hr; subst w2.
      * exact Hw1.
      * rewrite Hh. exact Hw1.
  - rewrite Hh. apply accounted_same.
Qed.

Lemma fetchMetadata_accounted (host : Host) (bvid avid : jsstr) (w : World) :
  accounted host w (snd (fetchMetadata host bvid avid w)) 1.
Proof.
  unfold fetchMetadata.
  apply (accounted_call host PROXY_RAW); [left; reflexivity | | apply pure_ret].
  intros res. apply pure_bind; [apply pure_json|]. intros j.
  apply pure_bind; [apply pure_lift|]. intros code.
  destruct (isZero code); apply pure_ret.
Qed.

Lemma fetchDirectUrl_accounted (host : Host) (bvid avid : jsstr) (w : World) :
  accounted host w (snd (fetchDirectUrl host bvid avid w)) 1.
Proof.
  unfold fetchDirectUrl.
  apply (accounted_call host PROXY_RAW); [left; reflexivity | | apply pure_ret].
  intros res. cbv zeta.
  match goal with |- pure (if ?b then _ else _) => destruct b end;
    apply pure_ret.
Qed.

Lemma parseIdentified_accounted (host : Host) (url : value)
  (bvid avid : jsstr) (w : World) :
  accounted host w (snd (parseIdentified host url bvid avid w)) 2.
Proof.
  unfold parseIdentified. destruct (nonEmpty bvid || nonEmpty avid).
  - unfold parseBilibili.
    apply (accounted_bind host _ _ 1 1); [apply fetchMetadata_accounted|].
    intros metaData w1.
    apply (accounted_bind host _ _ 1 0); [apply fetchDirectUrl_accounted|].
    intros [directUrl pe] w2. apply accounted_pure, pure_lift.
  - apply accounted_pure, pure_lift.
Qed.

Lemma resolveShortLink_accounted (host : Host) (url : jsstr) (w : World) :
  accounted host w (snd (resolveShortLink host url w)) 1.
Proof.
  unfold resolveShortLink. destruct (includes url (lit "b23.tv"));
    [|apply accounted_pure, pure_ret].
  apply (accounted_call host PROXY_JSON); [right; reflexivity | | apply pure_ret].
  intros res. apply pure_bind; [apply pure_json|]. intros data.
  apply pure_bind; [apply pure_lift|]. intros status.
  destruct (truthy (optProp status "url")); [apply pure_ret|].
  destruct (truthy (prop data "contents")); [|apply pure_ret].
  apply pure_bind; [apply pure_lift|]. intros [[wh g]|]; apply pure_ret.
Qed.

Lemma Rev2_resolveShortLink_accounted (host : Host) (url : jsstr)
  (w : World) :
  accounted host w (snd (Rev2.resolveShortLink host url w)) 1.
Proof.
  unfold Rev2.resolveShortLink. destruct (includes url (lit "b23.tv"));
    [|apply accounted_pure, pure_ret].
  apply (accounted_call host PROXY_JSON); [right; reflexivity | | apply pure_ret].
  intros res. apply pure_bind; [apply pure_json|]. intros data.
  apply pure_bind; [apply pure_lift|]. intros status.
  apply pure_bind.
  { destruct (truthy (optProp status "url")); [|apply pure_ret].
    apply pure_bind; [apply pure_lift|]. intros inc. apply pure_ret. }
  intros followed. destruct followed; [apply pure_ret|].
  destruct (truthy (prop data "contents")); [|apply pure_ret].
  apply pure_bind; [apply pure_lift|]. intros [[wh g]|]; [apply pure_ret|].
  apply pure_bind; [apply pure_lift|]. intros [[wh g]|]; apply pure_ret.
Qed.

(** X4. Whatever the input and whatever the host answers, a run of
    [parseVideoInput] (either revision) makes at most three requests;
    every one of them goes through one of the two proxies with exactly
    the parameters [url] (the encoded target) and [t]; the [t] of each
    request is a clock reading of its own, taken in order; and the
    clock is read for nothing else. *)
Theorem every_request_is_proxied_and_timestamped (host : Host)
  (input : jsstr) (w : World) :
  accounted host w (snd (parseVideoInput host input w)) 3
  /\ accounted host w (snd (Rev2.parseVideoInput host input w)) 3.
Proof.
  split.
  - unfold parseVideoInput.
    apply (accounted_bind host _ _ 1 2); [apply resolveShortLink_accounted|].
    intros [url bvid0] w1.
    apply (accounted_bind host _ _ 0 2).
    + intros w'. apply accounted_pure, pure_lift.
    + intros [bvid avid] w2. apply parseIdentified_accounted.
  - unfold Rev2.parseVideoInput.
    apply (accounted_bind host _ _ 1 2);
      [apply Rev2_resolveShortLink_accounted|].
    intros [url bvid0] w1.
    apply (accounted_bind host _ _ 0 2).
    + intros w'. apply accounted_pure, pure_lift.
    + intros [bvid avid] w2. apply parseIdentified_accounted.
Qed.

(** ** Metadata *)

Lemma fetchMetadata_run (host : Host) (bvid avid : jsstr) (w : World) :
  fetchMetadata host bvid avid w =
    match encodeURIComponent (metaUrlOf bvid avid) with
    | Normal enc =>
        let u := proxyUrlOf enc (now host (clockReads w)) in
        (Normal (metadataOutcome (respond host (List.length (requests w)) u)),
         {| clockReads := S (clockReads w); requests := requests w ++ [u] |})
    | Throw _ => (Normal (VObj []), w)
    end.
Proof.
  unfold fetchMetadata, tryCatch. cbv zeta. fold (metaUrlOf bvid avid).
  rewrite bind_run. unfold lift.
  destruct (encodeURIComponent (metaUrlOf bvid avid)) as [enc|e];
    [|reflexivity].
  rewrite bind_run. unfold dateNow. rewrite bind_run. unfold fetch.
  cbn [requests clockReads]. unfold proxyUrlOf, metadataOutcome.
  destruct (respond host _ _) as [|[j|]]; try reflexivity.
  cbn [json]. unfold ret at 1. rewrite bind_run, bind_run. unfold lift.
  destruct (getProp j "code") as [code|e]; [|reflexivity].
  destruct (isZero code); reflexivity.
Qed.

Lemma metadataFailed_outcome (res : FetchResult) :
  metadataFailed res -> metadataOutcome res = VObj [].
Proof.
  destruct res as [|[j|]]; cbn; try reflexivity.
  destruct j; cbn; try reflexivity; intros ->; reflexivity.
Qed.

(** X5. A failed metadata request is absorbed.  If the request fails,
    or its body is not JSON, or the JSON does not carry the number 0 as
    [code], the Bilibili branch still resolves: with the placeholder
    title built from the identifier, with empty cover, description and
    duration, and with the player the stream step decides. *)
Theorem metadata_failure_gives_placeholder (host : Host) (bvid avid : jsstr)
  (w : World) (enc : jsstr) :
  encodeURIComponent (metaUrlOf bvid avid) = Normal enc ->
  metadataFailed
    (respond host (List.length (requests w))
       (proxyUrlOf enc (now host (clockReads w)))) ->
  exists r w',
    parseBilibili host bvid avid w = (Normal r, w')
    /\ ParsedVideoData.title r = placeholderTitle (orElseStr bvid avid)
    /\ ParsedVideoData.thumbnailUrl r = Some (VStr [])
    /\ ParsedVideoData.description r = Some (VStr [])
    /\ ParsedVideoData.duration r = Some []
    /\ ParsedVideoData.platform r = bilibili
    /\ ParsedVideoData.id r = orElseStr bvid avid.
Proof.
  intros Henc Hfail. unfold parseBilibili.
  rewrite bind_run, fetchMetadata_run, Henc. cbv zeta.
  rewrite (metadataFailed_outcome _ Hfail). rewrite bind_run.
  match goal with |- context [fetchDirectUrl host bvid avid ?w1] =>
    destruct (fetchDirectUrl_never_throws host bvid avid w1)
      as [[directUrl pe] [w2 ->]] end.
  unfold lift, constructResponse. cbn [getProp prop lookupField].
  destruct (truthy directUrl); eexists; eexists;
    (split; [reflexivity|]); repeat split.
Qed.

Lemma metadata_failure_gives_placeholder_witness :
  exists r w',
    parseBilibili offline (lit "BV1xx411c7mD") [] startWorld = (Normal r, w')
    /\ ParsedVideoData.title r
       = placeholderTitle (orElseStr (lit "BV1xx411c7mD") [])
    /\ ParsedVideoData.thumbnailUrl r = Some (VStr [])
    /\ ParsedVideoData.description r = Some (VStr [])
    /\ ParsedVideoData.duration r = Some []
    /\ ParsedVideoData.platform r = bilibili
    /\ ParsedVideoData.id r = orElseStr (lit "BV1xx411c7mD") [].
Proof.
  apply (metadata_failure_gives_placeholder offline (lit "BV1xx411c7mD") []
           startWorld
           (lit "https%3A%2F%2Fapi.bilibili.com%2Fx%2Fweb-interface%2Fview%3Fbvid%3DBV1xx411c7mD")).
  - vm_compute. reflexivity.
  - exact I.
Defined.

(** ** The embed fallback *)

(** X6. The iframe fallback embeds the video by the kind of identifier
    that was found.  For identifiers as the patterns capture them, the
    one source of an iframe result of the Bilibili branch is the
    protocol-relative player URL whose parameters are [bvid] (when a BV
    id was found) or [aid] (otherwise), then [high_quality=1] and
    [danmaku=0]. *)
Theorem embed_url_parameters (host : Host) (bvid avid : jsstr)
  (w w' : World) (r : ParsedVideoData.t) :
  forallb alnum bvid = true -> forallb digit avid = true ->
  parseBilibili host bvid avid w = (Normal r, w') ->
  ParsedVideoData.playerType r = iframe ->
  exists u,
    map VideoSource.url (ParsedVideoData.sources r) = [VStr u]
    /\ startsWith (lit "//player.bilibili.com/player.html?") u = true
    /\ queryParams u
       = [ (if nonEmpty bvid then (lit "bvid", bvid) else (lit "aid", avid));
           (lit "high_quality", lit "1"); (lit "danmaku", lit "0") ].
Proof.
  intros Hb Ha H Hi. unfold parseBilibili in H.
  apply bind_normal in H. destruct H as [metaData [w1 [_ H]]].
  apply bind_normal in H. destruct H as [[directUrl pe] [w2 [_ H]]].
  apply lift_normal in H. destruct H as [H _]. unfold constructResponse in H.
  destruct (getProp metaData "title"); [|discriminate].
  destruct (truthy directUrl); injection H as <-; [discriminate|].
  exists (lit "//player.bilibili.com/player.html?"
          ++ (if nonEmpty bvid then lit "bvid=" ++ bvid
              else lit "aid=" ++ avid)
          ++ lit "&high_quality=1&danmaku=0").
  split; [reflexivity|]. split.
  { destruct (nonEmpty bvid); reflexivity. }
  unfold queryParams. rewrite forallb_forall in Hb, Ha.
  destruct (nonEmpty bvid).
  - change (afterFirst 63 (lit "//player.bilibili.com/player.html?"
                           ++ (lit "bvid=" ++ bvid)
                           ++ lit "&high_quality=1&danmaku=0"))
      with (Some ((lit "bvid=" ++ bvid)
                  ++ 38%N :: lit "high_quality=1&danmaku=0")).
    cbv beta iota. rewrite split_at_sep; [reflexivity|].
    repeat constructor; try (simpl; lia).
    apply Forall_forall. intros c Hc. apply alnum_not_amp. apply Hb, Hc.
  - change (afterFirst 63 (lit "//player.bilibili.com/player.html?"
                           ++ (lit "aid=" ++ avid)
                           ++ lit "&high_quality=1&danmaku=0"))
      with (Some ((lit "aid=" ++ avid)
                  ++ 38%N :: lit "high_quality=1&danmaku=0")).
    cbv beta iota. rewrite split_at_sep; [reflexivity|].
    repeat constructor; try (simpl; lia).
    apply Forall_forall. intros c Hc. apply digit_not_amp. apply Ha, Hc.
Qed.

Lemma embed_url_parameters_witness :
  exists u,
    map VideoSource.url
      (ParsedVideoData.sources
         (match fst (parseBilibili offline [] (lit "170001") startWorld) with
          | Normal r => r
          | Throw _ => youtubeResult []
          end)) = [VStr u]
    /\ startsWith (lit "//player.bilibili.com/player.html?") u = true
    /\ queryParams u
       = [ (lit "aid", lit "170001");
           (lit "high_quality", lit "1"); (lit "danmaku", lit "0") ].
Proof.
  apply (embed_url_parameters offline [] (lit "170001") startWorld
           (snd (parseBilibili offline [] (lit "170001") startWorld)));
    vm_compute; reflexivity.
Defined.

(** ** YouTube links *)

Lemma exec_star_class {R : Type} (p : N -> bool) (s : jsstr)
  (k : jsstr -> option R) :
  exec (Star (Class p)) s k = starClass p s k.
Proof.
  cbn [exec].
  assert (H : forall n t, (List.length t <= n)%nat ->
    (fix loop (n : nat) (s : jsstr) {struct n} : option R :=
       match n with
       | O => k s
       | S n' =>
           match exec (Class p) s (fun s' =>
                   if (List.length s' <? List.length s)%nat
                   then loop n' s' else None) with
           | Some x => Some x
           | None => k s
           end
       end) n t = starClass p t k).
  { induction n as [|n IH]; intros t Hn.
    - destruct t; [reflexivity | cbn in Hn; lia].
    - destruct t as [|c t]; [reflexivity|]. cbn [exec starClass].
      destruct (p c); [|reflexivity].
      assert (Hlt : (List.length t <? List.length (c :: t))%nat = true)
        by (apply Nat.ltb_lt; cbn; lia).
      rewrite Hlt, IH by (cbn in Hn; lia). reflexivity. }
  apply H. lia.
Qed.

Lemma starClass_fails {R : Type} (p : N -> bool) (s : jsstr)
  (k : jsstr -> option R) :
  (forall a b, s = a ++ b -> k b = None) -> starClass p s k = None.
Proof.
  induction s as [|c s IH]; intros H; cbn [starClass].
  - apply (H [] []). reflexivity.
  - rewrite IH.
    + destruct (p c); apply (H [] (c :: s)); reflexivity.
    + intros a b Hab. apply (H (c :: a) b). rewrite Hab. reflexivity.
Qed.

Lemma exec_times_class {R : Type} (p : N -> bool) (a t : jsstr)
  (k : jsstr -> option R) :
  forallb p a = true ->
  exec (times (List.length a) (Class p)) (a ++ t) k = k t.
Proof.
  induction a as [|c a IH]; cbn [List.length times forallb app exec];
    [reflexivity|].
  rewrite andb_true_iff. intros [-> Ha]. exact (IH Ha).
Qed.

Lemma exec_Cat {R : Type} (r1 r2 : regex) (s : jsstr)
  (k : jsstr -> option R) :
  exec (Cat r1 r2) s k = exec r1 s (fun s' => exec r2 s' k).
Proof. reflexivity. Qed.

(** A literal cannot match where the input does not have it. *)
Lemma exec_Char_fails {R : Type} (x : N) (b : jsstr)
  (k : jsstr -> option R) :
  match b with [] => True | c :: _ => N.eqb c x = false end ->
  exec (Char x) b k = None.
Proof. destruct b as [|c b]; cbn [exec]; [reflexivity|]. intros ->. reflexivity. Qed.

(** [p+ r] and [p* r] for a class [p], by [starClass]. *)
Lemma exec_plus_class {R : Type} (p : N -> bool) (r : regex) (s : jsstr)
  (k : jsstr -> option R) :
  exec (Cat (plus (Class p)) r) s k
    = match s with
      | [] => None
      | c :: s' =>
          if p c then starClass p s' (fun t => exec r t k) else None
      end.
Proof.
  change (exec (Cat (plus (Class p)) r) s k)
    with (exec (Class p) s (fun s1 =>
            exec (Star (Class p)) s1 (fun s2 => exec r s2 k))).
  destruct s as [|c s]; [reflexivity|]. cbn [exec].
  destruct (p c); [|reflexivity].
  apply (exec_star_class p s (fun s2 => exec r s2 k)).
Qed.

Lemma exec_star_then {R : Type} (p : N -> bool) (r : regex) (s : jsstr)
  (k : jsstr -> option R) :
  exec (Cat (Star (Class p)) r) s k = starClass p s (fun t => exec r t k).
Proof.
  rewrite exec_Cat. apply exec_star_class.
Qed.

(** The greedy repetition hands back what it took until what follows
    succeeds. *)
Lemma starClass_reaches {R : Type} (p : N -> bool) (a b : jsstr)
  (k : jsstr -> option R) (x : R) :
  forallb p a = true -> starClass p b k = Some x ->
  starClass p (a ++ b) k = Some x.
Proof.
  intros Ha Hb. induction a as [|c a IH]; [exact Hb|].
  cbn [forallb] in Ha. apply andb_true_iff in Ha. destruct Ha as [Hc Ha].
  cbn [app starClass]. rewrite Hc, (IH Ha). reflexivity.
Qed.

Lemma forallb_suffix (p : N -> bool) (s a b : jsstr) :
  forallb p s = true -> s = a ++ b ->
  match b with [] => True | c :: _ => p c = true end.
Proof.
  intros H ->. rewrite forallb_app in H. apply andb_true_iff in H.
  destruct H as [_ H]. destruct b as [|c b]; [exact I|].
  cbn in H. apply andb_true_iff in H. tauto.
Qed.

Lemma ytIdChar_not_slash (c : N) : ytIdChar c = true -> N.eqb c 47 = false.
Proof.
  destruct (N.eqb_spec c 47) as [->|]; [|reflexivity].
  vm_compute. discriminate.
Qed.

Lemma ytIdChar_not_query (c : N) : ytIdChar c = true -> oneOf "?&" c = false.
Proof.
  intros H. destruct (oneOf "?&" c) eqn:E; [|reflexivity].
  unfold oneOf in E. cbn in E. rewrite !orb_true_iff, !N.eqb_eq in E.
  destruct E as [-> | [-> | E]]; [vm_compute in H.. | ]; discriminate.
Qed.


Open Scope N_scope.

Lemma noSlash_head (s a b : jsstr) :
  noSlash s = true -> s = a ++ b ->
  match b with [] => True | c :: _ => N.eqb c 47 = false end.
Proof.
  intros H Hab. pose proof (forallb_suffix _ s a b H Hab) as Hb.
  destruct b as [|c b]; [exact I|].
  unfold oneOf in Hb. cbn in Hb. rewrite orb_false_r in Hb.
  apply negb_true_iff in Hb. exact Hb.
Qed.

Lemma dots_slash_fails {R : Type} (s : jsstr) (k : jsstr -> option R) :
  noSlash s = true -> exec (Cat (plus dot) (Char 47)) s k = None.
Proof.
  intros Hs. unfold dot. rewrite exec_plus_class.
  destruct s as [|c s]; [reflexivity|].
  destruct (negb (isLineTerminator c)); [|reflexivity].
  apply starClass_fails. intros a b Hab. apply exec_Char_fails.
  apply (noSlash_head (c :: s) (c :: a) b Hs). rewrite Hab. reflexivity.
Qed.


Lemma ytA1_no_slash {R : Type} (s : jsstr) (k : jsstr -> option R) :
  noSlash s = true -> exec ytA1 s k = None.
Proof.
  intros Hs. unfold ytA1. rewrite exec_plus_class.
  destruct s as [|c s]; [reflexivity|].
  destruct (negb (oneOf "/" c)); [|reflexivity].
  apply starClass_fails. intros a b Hab. rewrite exec_Cat.
  apply exec_Char_fails.
  apply (noSlash_head (c :: s) (c :: a) b Hs). rewrite Hab. reflexivity.
Qed.

Lemma ytA1_one_slash {R : Type} (a b : jsstr) (k : jsstr -> option R) :
  noSlash a = true -> noSlash b = true ->
  exec ytA1 (a ++ 47 :: b) k = None.
Proof.
  intros Ha Hb. unfold ytA1. rewrite exec_plus_class.
  destruct a as [|c a]; [reflexivity|]. cbn [app].
  destruct (negb (oneOf "/" c)); [|reflexivity].
  apply starClass_fails. intros a' b' Hab.
  apply app_eq_app in Hab. destruct Hab as [l [[H1 H2] | [H1 H2]]].
  - (* the rest starts inside [a] or at the slash *)
    subst b'. destruct l as [|d l].
    + cbn [app]. rewrite exec_Cat. cbn [exec]. 
      change (exec (Cat (plus dot) (Char 47)) b k = None).
      apply dots_slash_fails. exact Hb.
    + rewrite exec_Cat. apply exec_Char_fails. cbn [app].
      apply (noSlash_head (c :: a) (c :: a') (d :: l) Ha).
      rewrite H1. reflexivity.
  - destruct l as [|d l].
    + cbn [app] in H2. subst b'. rewrite exec_Cat. cbn [exec].
      change (exec (Cat (plus dot) (Char 47)) b k = None).
      apply dots_slash_fails. exact Hb.
    + cbn [app] in H2. injection H2 as _ H2. rewrite exec_Cat.
      apply exec_Char_fails. apply (noSlash_head b l b' Hb H2).
Qed.


Lemma ytId_noSlash (id rest : jsstr) :
  forallb ytIdChar id = true -> noSlash rest = true ->
  noSlash (id ++ rest) = true.
Proof.
  intros Hid Hrest. unfold noSlash. rewrite forallb_app.
  apply andb_true_iff. split; [|exact Hrest].
  apply (@forallb_impl _ ytIdChar _ id); [|exact Hid].
  intros c Hc. unfold oneOf. cbn. rewrite orb_false_r.
  rewrite (ytIdChar_not_slash c Hc). reflexivity.
Qed.

(** The part of the pattern before the group, on the three forms. *)
Lemma yt_before_short {R : Type} (t : jsstr) (k : jsstr -> option R) :
  exec (before ytRegex) (lit "youtu.be/" ++ t) k = k t.
Proof. reflexivity. Qed.

Lemma yt_before_embed {R : Type} (t : jsstr) (k : jsstr -> option R)
  (x : R) :
  noSlash t = true -> k t = Some x ->
  exec (before ytRegex) (lit "youtube.com/embed/" ++ t) k = Some x.
Proof.
  intros Ht Hk.
  change (exec (before ytRegex) (lit "youtube.com/embed/" ++ t) k)
    with (match
            match exec ytA1 (lit "embed" ++ 47 :: t) k with
            | Some y => Some y
            | None =>
                match
                  match k t with Some y => Some y | None => None end
                with
                | Some y => Some y
                | None =>
                    exec (Cat (Star dot) (Cat (Class (oneOf "?&")) (str "v=")))
                      (lit "embed/" ++ t) k
                end
            end
          with
          | Some y => Some y
          | None => None
          end).
  rewrite (ytA1_one_slash (lit "embed") t k eq_refl Ht), Hk. reflexivity.
Qed.


Lemma query_v_fails {R : Type} (b : jsstr) (k : jsstr -> option R) :
  match b with
  | [] => True
  | c :: b' => oneOf "?&" c = true -> startsWith (lit "v=") b' = false
  end ->
  exec (Cat (Class (oneOf "?&")) (str "v=")) b k = None.
Proof.
  destruct b as [|c b]; [reflexivity|]. intros H. rewrite exec_Cat.
  cbn [exec]. destruct (oneOf "?&" c); [|reflexivity].
  specialize (H eq_refl).
  destruct b as [|v b]; [reflexivity|].
  change (str "v=") with (Cat (Char 118) (Cat (Char 61) Empty)).
  cbn [exec]. destruct (N.eqb_spec v 118) as [->|]; [|reflexivity].
  destruct b as [|e b]; [reflexivity|].
  destruct (N.eqb_spec e 61) as [->|]; [|reflexivity].
  discriminate H.
Qed.

Lemma yt_before_watch {R : Type} (id rest : jsstr) (k : jsstr -> option R)
  (x : R) :
  forallb ytIdChar id = true -> noSlash rest = true ->
  includes rest (lit "v=") = false ->
  k (id ++ rest) = Some x ->
  exec (before ytRegex) (lit "youtube.com/watch?v=" ++ id ++ rest) k = Some x.
Proof.
  intros Hid Hrest Hv Hk.
  change (exec (before ytRegex) (lit "youtube.com/watch?v=" ++ id ++ rest) k)
    with (match
            match exec ytA1 (lit "watch?v=" ++ id ++ rest) k with
            | Some y => Some y
            | None =>
                exec (Cat (Star dot) (Cat (Class (oneOf "?&")) (str "v=")))
                  (lit "watch" ++ lit "?v=" ++ id ++ rest) k
            end
          with
          | Some y => Some y
          | None => None
          end).
  rewrite ytA1_no_slash.
  2:{ unfold noSlash. rewrite forallb_app. apply andb_true_iff.
      split; [reflexivity | exact (ytId_noSlash id rest Hid Hrest)]. }
  unfold dot. rewrite exec_star_then.
  rewrite (starClass_reaches (fun c => negb (isLineTerminator c))
             (lit "watch") (lit "?v=" ++ id ++ rest) _ x eq_refl);
    [reflexivity|].
  change (lit "?v=" ++ id ++ rest) with (63 :: lit "v=" ++ id ++ rest).
  cbn [starClass].
  change (negb (isLineTerminator 63)) with true. cbv iota.
  rewrite starClass_fails.
  - change (k (id ++ rest) = Some x). exact Hk.
  - intros a b Hab. apply query_v_fails.
    destruct b as [|c b]; [exact I|]. intros Hc.
    destruct (startsWith (lit "v=") b) eqn:Hb; [exfalso|reflexivity].
    (* the rest starts in "v=", in the id or in what follows it *)
    destruct a as [|a0 a]; [injection Hab as <- _; discriminate Hc|].
    injection Hab as _ Hab.
    destruct a as [|a1 a]; [injection Hab as <- _; discriminate Hc|].
    injection Hab as _ Hab.
    apply app_eq_app in Hab. destruct Hab as [l [[H1 H2] | [H1 H2]]].
    + destruct l as [|d l].
      * cbn [app] in H2. 
        assert (Hin : includes rest (lit "v=") = true).
        { apply includes_infix. rewrite <- H2. exists [c].
          apply startsWith_prefix in Hb. destruct Hb as [b' ->].
          exists b'. reflexivity. }
        congruence.
      * cbn [app] in H2. assert (Hcd : c = d) by congruence. subst d.
        pose proof (forallb_suffix ytIdChar id a (c :: l) Hid H1) as Hd.
        cbn beta iota in Hd. rewrite (ytIdChar_not_query c Hd) in Hc.
        discriminate.
    + assert (Hin : includes rest (lit "v=") = true).
      { apply includes_infix. rewrite H2. exists (l ++ [c]).
        apply startsWith_prefix in Hb. destruct Hb as [b' ->].
        exists b'. rewrite <- app_assoc. reflexivity. }
      congruence.
Qed.

Lemma jsmatch_here (p : pattern) (s : jsstr) (m : jsstr * jsstr) :
  matchHere p s = Some m -> jsmatch p s = Some m.
Proof. intros H. destruct s; cbn [jsmatch]; rewrite H; reflexivity. Qed.

(** The group takes the eleven characters that follow. *)
Lemma yt_group (s id rest : jsstr) :
  List.length id = 11%nat -> forallb ytIdChar id = true ->
  exec (captured ytRegex) (id ++ rest) (fun s2 =>
    exec (after ytRegex) s2 (fun s3 =>
      Some (consumed s s3, consumed (id ++ rest) s2)))
  = Some (consumed s rest, id).
Proof.
  intros Hlen Hid.
  change (captured ytRegex) with (times 11 (Class ytIdChar)).
  rewrite <- Hlen, (exec_times_class ytIdChar id rest _ Hid).
  cbn [after ytRegex exec]. rewrite consumed_app. reflexivity.
Qed.

Lemma yt_matchHere (p id rest : jsstr) :
  In p [lit "youtube.com/watch?v="; lit "youtu.be/";
        lit "youtube.com/embed/"] ->
  List.length id = 11%nat -> forallb ytIdChar id = true ->
  noSlash rest = true -> includes rest (lit "v=") = false ->
  matchHere ytRegex (p ++ id ++ rest) = Some (p ++ id, id).
Proof.
  intros Hp Hlen Hid Hrest Hv.
  assert (Hc : consumed (p ++ id ++ rest) rest = p ++ id).
  { rewrite app_assoc. apply consumed_app. }
  rewrite <- Hc. unfold matchHere.
  destruct Hp as [<- | [<- | [<- | []]]].
  - apply yt_before_watch; try assumption. apply yt_group; assumption.
  - rewrite yt_before_short. apply yt_group; assumption.
  - apply yt_before_embed; [apply ytId_noSlash; assumption|].
    apply yt_group; assumption.
Qed.

Lemma yt_jsmatch (prefix id rest : jsstr) :
  In prefix ytForms ->
  List.length id = 11%nat -> forallb ytIdChar id = true ->
  noSlash rest = true -> includes rest (lit "v=") = false ->
  exists whole, jsmatch ytRegex (prefix ++ id ++ rest) = Some (whole, id).
Proof.
  intros Hp Hlen Hid Hrest Hv.
  destruct Hp as [<- | [<- | [<- | []]]].
  - exists (lit "youtube.com/watch?v=" ++ id).
    change (jsmatch ytRegex (lit "https://www.youtube.com/watch?v=" ++ id ++ rest))
      with (jsmatch ytRegex (lit "youtube.com/watch?v=" ++ id ++ rest)).
    apply jsmatch_here, yt_matchHere; try assumption. cbn; auto.
  - exists (lit "youtu.be/" ++ id).
    change (jsmatch ytRegex (lit "https://youtu.be/" ++ id ++ rest))
      with (jsmatch ytRegex (lit "youtu.be/" ++ id ++ rest)).
    apply jsmatch_here, yt_matchHere; try assumption. cbn; auto.
  - exists (lit "youtube.com/embed/" ++ id).
    change (jsmatch ytRegex (lit "https://www.youtube.com/embed/" ++ id ++ rest))
      with (jsmatch ytRegex (lit "youtube.com/embed/" ++ id ++ rest)).
    apply jsmatch_here, yt_matchHere; try assumption. cbn; auto.
Qed.

(** X7. The three usual forms of a YouTube link give the same result.
    If the trimmed input is [https://www.youtube.com/watch?v=],
    [https://youtu.be/] or [https://www.youtube.com/embed/] followed by
    eleven id characters and by anything without a [/] and without
    [v=], and no Bilibili pattern occurs in it, then both revisions
    resolve, without a request, to the YouTube result for these eleven
    characters. *)
Theorem youtube_link_forms (host : Host) (input prefix id rest : jsstr)
  (w : World) :
  In prefix ytForms ->
  trim input = prefix ++ id ++ rest ->
  List.length id = 11%nat -> forallb ytIdChar id = true ->
  noSlash rest = true -> includes rest (lit "v=") = false ->
  includes (trim input) (lit "b23.tv") = false ->
  jsmatch bvRegex (trim input) = None ->
  jsmatch avRegex (trim input) = None ->
  parseVideoInput host input w = (Normal (youtubeResult id), w)
  /\ Rev2.parseVideoInput host input w = (Normal (youtubeResult id), w).
Proof.
  intros Hp Hurl Hlen Hid Hrest Hv Hs Hbv Hav.
  destruct (parseVideoInput_without_short_link host input w Hs) as [-> ->].
  rewrite (idsOf_none _ Hbv Hav). cbn [fst snd].
  destruct (yt_jsmatch prefix id rest Hp Hlen Hid Hrest Hv) as [whole Hm].
  unfold parseIdentified. cbn [nonEmpty orb].
  unfold lift, parseOther, matchValue. rewrite Hurl, Hm. split; reflexivity.
Qed.

Lemma youtube_link_forms_witness :
  parseVideoInput offline (lit " https://www.youtube.com/watch?v=dQw4w9WgXcQ&t=42s")
    startWorld
  = (Normal (youtubeResult (lit "dQw4w9WgXcQ")), startWorld).
Proof.
  apply (youtube_link_forms offline
           (lit " https://www.youtube.com/watch?v=dQw4w9WgXcQ&t=42s")
           (lit "https://www.youtube.com/watch?v=") (lit "dQw4w9WgXcQ")
           (lit "&t=42s") startWorld);
    try (vm_compute; reflexivity).
  left. reflexivity.
Defined.


(** ** Direct files *)



Ltac split_char H :=
  match type of H with
  | context [N.eqb ?c ?k] =>
      is_var c; destruct (N.eqb_spec c k); [subst c|]; cbn in H
  end.

Lemma direct_matchHere_ext (s : jsstr) (m : jsstr * jsstr) :
  matchHere directRegex s = Some m ->
  exists ext, s = 46 :: ext /\ In (map lowerAscii ext) mediaExtensions.
Proof.
  intros H. unfold matchHere, directRegex, ci, oneOf in H.
  cbn [before captured after] in H.
  destruct s as [|c0 s]; [discriminate H|].
  destruct s as [|c1 s]; [cbn in H; destruct (c0 =? 46); discriminate H|].
  destruct s as [|c2 s];
    [cbn in H; destruct (c0 =? 46); repeat split_char H; discriminate H|].
  destruct s as [|c3 s];
    [cbn in H; destruct (c0 =? 46); repeat split_char H; discriminate H|].
  destruct s as [|c4 s].
  { cbn in H. split_char H; [|discriminate H].
    repeat split_char H; try discriminate H;
      (eexists; split; [reflexivity | vm_compute; tauto]). }
  destruct s as [|c5 s].
  { cbn in H. split_char H; [|discriminate H].
    repeat split_char H; try discriminate H;
      (eexists; split; [reflexivity | vm_compute; tauto]). }
  exfalso. cbn in H. split_char H; [|discriminate H].
  repeat split_char H; discriminate H.
Qed.

Lemma lowerAscii_inv (a k : N) :
  lowerAscii a = k -> a = k \/ (a + 32 = k /\ 65 <= a <= 90).
Proof.
  unfold lowerAscii.
  destruct ((65 <=? a) && (a <=? 90)) eqn:E; [|auto].
  apply andb_true_iff in E. destruct E as [E1 E2].
  apply N.leb_le in E1, E2. intros H. right. lia.
Qed.

Ltac either_case a :=
  match goal with
  | H : ?k = lowerAscii a |- _ =>
      let E := fresh in
      let Hr := fresh in
      destruct (lowerAscii_inv a k (eq_sym H)) as [E | [E Hr]];
      [ subst a
      | first [ exfalso; lia
              | let E' := fresh in
                assert (E' : a = k - 32) by lia; vm_compute in E';
                subst a ] ];
      try clear H
  end.

Lemma direct_ext_matchHere (ext : jsstr) :
  In (map lowerAscii ext) mediaExtensions ->
  matchHere directRegex (46 :: ext) <> None.
Proof.
  intros H. unfold mediaExtensions in H. cbn [In] in H.
  destruct H as [H | [H | [H | [H | []]]]].
  - destruct ext as [|a [|b [|c [|]]]]; try discriminate H.
    cbn in H. injection H as Ha Hb Hc.
    either_case a; either_case b; either_case c;
      (vm_compute; discriminate).
  - destruct ext as [|a [|b [|c [|d [|]]]]]; try discriminate H.
    cbn in H. injection H as Ha Hb Hc Hd.
    either_case a; either_case b; either_case c; either_case d;
      (vm_compute; discriminate).
  - destruct ext as [|a [|b [|c [|]]]]; try discriminate H.
    cbn in H. injection H as Ha Hb Hc.
    either_case a; either_case b; either_case c;
      (vm_compute; discriminate).
  - destruct ext as [|a [|b [|c [|]]]]; try discriminate H.
    cbn in H. injection H as Ha Hb Hc.
    either_case a; either_case b; either_case c;
      (vm_compute; discriminate).
Qed.

(** [directRegex] finds a match exactly in the strings that end in one
    of the four extensions. *)
Lemma direct_iff_media_extension (s : jsstr) :
  jsmatch directRegex s <> None <-> hasMediaExtension s.
Proof.
  split.
  - induction s as [|c s IH]; cbn [jsmatch].
    + intros H. exfalso. apply H. reflexivity.
    + destruct (matchHere directRegex (c :: s)) as [m|] eqn:E.
      * intros _. destruct (direct_matchHere_ext _ m E) as [ext [Hs Hext]].
        exists [], ext. split; [exact Hs | exact Hext].
      * intros H. destruct (IH H) as [base [ext [-> Hext]]].
        exists (c :: base), ext. split; [reflexivity | exact Hext].
  - intros [base [ext [-> Hext]]]. induction base as [|c base IH].
    + cbn [app jsmatch].
      pose proof (direct_ext_matchHere ext Hext) as H.
      destruct (matchHere directRegex (46 :: ext));
        [discriminate | exfalso; apply H; reflexivity].
    + cbn [app jsmatch].
      destruct (matchHere directRegex (c :: base ++ 46 :: ext));
        [discriminate | exact IH].
Qed.

(** X8. An input without a Bilibili or YouTube pattern is a direct file
    exactly when, trimmed, it ends in [.mp4], [.webm], [.ogg] or [.mov]
    in any case: then both revisions return the direct-file result of
    the trimmed input, and otherwise both reject with
    [Format not supported].  Anything after the extension, a query
    string for one, makes the input unsupported. *)
Theorem direct_file_by_extension (host : Host) (input : jsstr) (w : World) :
  includes (trim input) (lit "b23.tv") = false ->
  jsmatch bvRegex (trim input) = None ->
  jsmatch avRegex (trim input) = None ->
  jsmatch ytRegex (trim input) = None ->
  (hasMediaExtension (trim input) ->
   parseVideoInput host input w = (directResult (trim input), w)
   /\ Rev2.parseVideoInput host input w = (directResult (trim input), w))
  /\ (~ hasMediaExtension (trim input) ->
      parseVideoInput host input w
        = (Throw (Error (lit "Format not supported")), w)
      /\ Rev2.parseVideoInput host input w
         = (Throw (Error (lit "Format not supported")), w)).
Proof.
  intros Hs Hbv Hav Hyt.
  destruct (parseVideoInput_without_short_link host input w Hs) as [-> ->].
  rewrite (idsOf_none _ Hbv Hav). cbn [fst snd].
  unfold parseIdentified. cbn [nonEmpty orb].
  unfold lift, parseOther, matchValue. rewrite Hyt.
  split; intros H.
  - apply direct_iff_media_extension in H.
    destruct (jsmatch directRegex (trim input)); [|exfalso; apply H; reflexivity].
    split; reflexivity.
  - destruct (jsmatch directRegex (trim input)) eqn:E; [|split; reflexivity].
    exfalso. apply H. apply direct_iff_media_extension. rewrite E. discriminate.
Qed.

Lemma direct_file_by_extension_witness :
  parseVideoInput offline (lit "https://cdn.example.com/clip.MP4") startWorld
    = (directResult (lit "https://cdn.example.com/clip.MP4"), startWorld)
  /\ parseVideoInput offline (lit "https://cdn.example.com/clip.mp4?sig=1")
       startWorld
     = (Throw (Error (lit "Format not supported")), startWorld).
Proof.
  split.
  - apply (direct_file_by_extension offline
             (lit "https://cdn.example.com/clip.MP4") startWorld);
      try (vm_compute; reflexivity).
    exists (lit "https://cdn.example.com/clip"), (lit "MP4").
    split; [reflexivity | left; reflexivity].
  - apply (direct_file_by_extension offline
             (lit "https://cdn.example.com/clip.mp4?sig=1") startWorld);
      try (vm_compute; reflexivity).
    intros H. apply direct_iff_media_extension in H. apply H.
    vm_compute. reflexivity.
Defined.

Lemma pop_cons (a : jsstr) (l : list jsstr) : l <> [] -> pop (a :: l) = pop l.
Proof.
  intros Hl. unfold pop. cbn [rev].
  destruct (rev l) as [|x r] eqn:E.
  - exfalso. apply Hl. apply (f_equal (@rev jsstr)) in E.
    rewrite rev_involutive in E. exact E.
  - reflexivity.
Qed.

(** What [split('/').pop()] returns: the text after the last [/]. *)
Lemma pop_split_last (sep : N) (d seg : jsstr) :
  Forall (fun c => c <> sep) seg ->
  pop (split sep (d ++ sep :: seg)) = Some seg.
Proof.
  intros Hseg.
  assert (H : exists x y rest,
             split sep (d ++ sep :: seg) = x :: y :: rest
             /\ pop (y :: rest) = Some seg).
  { induction d as [|c d IH].
    - exists [], seg, [].
      rewrite (@split_at_sep sep [] seg (Forall_nil _)).
      rewrite (@split_no_sep sep seg Hseg). split; reflexivity.
    - destruct IH as [x [y [rest [E Hp]]]]. cbn [app split]. rewrite E.
      destruct (c =? sep).
      + exists [], x, (y :: rest). split; [reflexivity|].
        rewrite pop_cons by discriminate. exact Hp.
      + exists (c :: x), y, rest. split; [reflexivity | exact Hp]. }
  destruct H as [x [y [rest [-> Hp]]]].
  rewrite pop_cons by discriminate. exact Hp.
Qed.

Lemma last_segment (sep : N) (s : jsstr) :
  exists dir seg,
    s = dir ++ seg /\ Forall (fun c => c <> sep) seg
    /\ (dir = [] \/ exists d, dir = d ++ [sep]).
Proof.
  induction s as [|c s IH].
  - exists [], []. split; [reflexivity|]. split; [constructor | left; reflexivity].
  - destruct IH as [dir [seg [-> [Hseg Hdir]]]].
    destruct Hdir as [-> | [d ->]].
    + destruct (N.eq_dec c sep) as [->|Hc].
      * exists [sep], seg. split; [reflexivity|]. split; [exact Hseg|].
        right. exists []. reflexivity.
      * exists [], (c :: seg). split; [reflexivity|].
        split; [constructor; assumption | left; reflexivity].
    + exists (c :: d ++ [sep]), seg. split; [reflexivity|].
      split; [exact Hseg|]. right. exists (c :: d). reflexivity.
Qed.

Lemma extension_no_slash (ext : jsstr) :
  In (map lowerAscii ext) mediaExtensions -> Forall (fun c => c <> 47) ext.
Proof.
  intros H.
  assert (Hl : Forall (fun c => c <> 47) (map lowerAscii ext)).
  { unfold mediaExtensions in H. cbn [In] in H.
    destruct H as [H | [H | [H | [H | []]]]]; rewrite <- H;
      repeat constructor; discriminate. }
  rewrite Forall_map in Hl. revert Hl. apply Forall_impl.
  intros c Hc ->. apply Hc. reflexivity.
Qed.

(** X9. The title of a direct file is its file name.  A URL that ends
    in a media extension splits into the text up to the last [/] and a
    last segment that is not empty and carries the extension;
    [directResult] returns the decoded last segment as the title and the
    URL itself as the only source, or throws what decoding the segment
    throws.  The placeholder title of line 167 is never used. *)
Theorem direct_title_is_file_name (u : jsstr) :
  hasMediaExtension u ->
  exists dir seg,
    u = dir ++ seg
    /\ (dir = [] \/ exists d, dir = d ++ [47])
    /\ Forall (fun c => c <> 47) seg
    /\ hasMediaExtension seg
    /\ match decodeURIComponent seg, directResult u with
       | Normal t, Normal r =>
           ParsedVideoData.title r = VStr t
           /\ ParsedVideoData.sources r
              = [ {| VideoSource.url := VStr u;
                     VideoSource.format := lit "Original";
                     VideoSource.quality := lit "Source";
                     VideoSource.size := Some (lit "Unknown");
                     VideoSource.isDownloadable := Some true |} ]
       | Throw e, Throw e' => e = e'
       | _, _ => False
       end.
Proof.
  intros [base [ext [-> Hext]]].
  destruct (last_segment 47 base) as [dir [seg0 [-> [Hseg0 Hdir]]]].
  pose proof (extension_no_slash ext Hext) as Hne.
  assert (Hseg : Forall (fun c => c <> 47) (seg0 ++ 46 :: ext)).
  { apply Forall_app. split; [exact Hseg0|]. constructor; [discriminate|exact Hne]. }
  exists dir, (seg0 ++ 46 :: ext).
  split; [rewrite app_assoc; reflexivity|].
  split; [exact Hdir|]. split; [exact Hseg|].
  split; [exists seg0, ext; split; [reflexivity | exact Hext]|].
  assert (Hpop : pop (split 47 ((dir ++ seg0) ++ 46 :: ext))
                 = Some (seg0 ++ 46 :: ext)).
  { rewrite <- app_assoc. destruct Hdir as [-> | [d ->]].
    - cbn [app]. rewrite (@split_no_sep 47 _ Hseg). reflexivity.
    - rewrite <- app_assoc. cbn [app]. apply pop_split_last. exact Hseg. }
  unfold directResult. rewrite Hpop.
  assert (Hor : orElseStr (seg0 ++ 46 :: ext)
                  [26410; 21629; 21517; 35270; 39057]
                = seg0 ++ 46 :: ext).
  { destruct seg0; reflexivity. }
  rewrite Hor.
  destruct (decodeURIComponent (seg0 ++ 46 :: ext)); [|reflexivity].
  split; reflexivity.
Qed.

Lemma direct_title_is_file_name_witness :
  exists dir seg,
    lit "https://cdn.example.com/a%20b.mp4" = dir ++ seg
    /\ (dir = [] \/ exists d, dir = d ++ [47])
    /\ Forall (fun c => c <> 47) seg
    /\ hasMediaExtension seg
    /\ match decodeURIComponent seg,
             directResult (lit "https://cdn.example.com/a%20b.mp4") with
       | Normal t, Normal r =>
           ParsedVideoData.title r = VStr t
           /\ ParsedVideoData.sources r
              = [ {| VideoSource.url :=
                       VStr (lit "https://cdn.example.com/a%20b.mp4");
                     VideoSource.format := lit "Original";
                     VideoSource.quality := lit "Source";
                     VideoSource.size := Some (lit "Unknown");
                     VideoSource.isDownloadable := Some true |} ]
       | Throw e, Throw e' => e = e'
       | _, _ => False
       end.
Proof.
  apply (direct_title_is_file_name (lit "https://cdn.example.com/a%20b.mp4")).
  exists (lit "https://cdn.example.com/a%20b"), (lit "mp4").
  split; [reflexivity | left; reflexivity].
Defined.

Close Scope N_scope.

(** ** Short links *)


Lemma shortLink_run {A : Type} (host : Host) (url enc : jsstr)
  (body : option value -> M A) (handler : M A) (w : World) :
  encodeURIComponent url = Normal enc ->
  tryCatch
    (bind (lift (encodeURIComponent url)) (fun enc =>
     bind (dateNow host) (fun t =>
     bind (fetch host (PROXY_JSON ++ enc ++ lit "&t=" ++ numberToString t))
       body)))
    handler w
  = match resolveAnswer host enc w with
    | NetworkError => handler (afterResolve host enc w)
    | Response parsed => tryCatch (body parsed) handler (afterResolve host enc w)
    end.
Proof.
  intros Henc. unfold tryCatch. rewrite bind_run. unfold lift. rewrite Henc.
  rewrite bind_run. unfold dateNow. rewrite bind_run. unfold fetch.
  cbn [requests clockReads]. unfold resolveAnswer, afterResolve, resolveUrlOf.
  destruct (respond host _ _) as [|parsed]; reflexivity.
Qed.

Lemma resolveShortLink_unresolved (host : Host) (url enc : jsstr)
  (w : World) :
  includes url (lit "b23.tv") = true ->
  encodeURIComponent url = Normal enc ->
  unresolved (resolveAnswer host enc w) ->
  resolveShortLink host url w = (Normal (VStr url, []), afterResolve host enc w)
  /\ Rev2.resolveShortLink host url w
     = (Normal (VStr url, []), afterResolve host enc w).
Proof.
  intros Hs Henc Hres. unfold resolveShortLink, Rev2.resolveShortLink.
  rewrite Hs, !(shortLink_run host url enc _ _ w Henc).
  destruct (resolveAnswer host enc w) as [|[data|]]; try (split; reflexivity).
  destruct Hres as [Hu Hc]. unfold tryCatch. cbn [json].
  destruct data; unfold bind, ret, lift; cbn [getProp]; cbv beta iota;
    try (split; reflexivity);
    rewrite Hu; cbv beta iota; rewrite Hc; split; reflexivity.
Qed.

(** Steps 2 to 4 after a step 1 that left a string and no [bvid]. *)
Lemma parse_after_step1 (host : Host) (input url' : jsstr) (w w1 : World) :
  resolveShortLink host (trim input) w = (Normal (VStr url', []), w1) ->
  parseVideoInput host input w
    = parseIdentified host (VStr url') (fst (idsOf url')) (snd (idsOf url')) w1.
Proof.
  intros H. unfold parseVideoInput. rewrite bind_run, H, bind_run.
  unfold lift. destruct (extractIds_idsOf url') as [-> _].
  destruct (idsOf url'). reflexivity.
Qed.

Lemma Rev2_parse_after_step1 (host : Host) (input url' : jsstr)
  (w w1 : World) :
  Rev2.resolveShortLink host (trim input) w = (Normal (VStr url', []), w1) ->
  Rev2.parseVideoInput host input w
    = parseIdentified host (VStr url') (fst (idsOf url')) (snd (idsOf url')) w1.
Proof.
  intros H. unfold Rev2.parseVideoInput. rewrite bind_run, H, bind_run.
  unfold lift. destruct (extractIds_idsOf url') as [_ ->].
  destruct (idsOf url'). reflexivity.
Qed.

(** X10. A short link that cannot be resolved is treated as an ordinary
    URL.  If the request of step 1 gets no response, or a body that is
    not JSON, or JSON with neither [status.url] nor [contents], the
    error is swallowed: both revisions go on with steps 2 to 4 on the
    trimmed input itself, after this one request. *)
Theorem unresolved_short_link_is_absorbed (host : Host) (input enc : jsstr)
  (w : World) :
  includes (trim input) (lit "b23.tv") = true ->
  encodeURIComponent (trim input) = Normal enc ->
  unresolved (resolveAnswer host enc w) ->
  parseVideoInput host input w
    = parseIdentified host (VStr (trim input))
        (fst (idsOf (trim input))) (snd (idsOf (trim input)))
        (afterResolve host enc w)
  /\ Rev2.parseVideoInput host input w
     = parseIdentified host (VStr (trim input))
         (fst (idsOf (trim input))) (snd (idsOf (trim input)))
         (afterResolve host enc w).
Proof.
  intros Hs Henc Hres.
  destruct (resolveShortLink_unresolved host (trim input) enc w Hs Henc Hres)
    as [H1 H2].
  split.
  - apply parse_after_step1. exact H1.
  - apply Rev2_parse_after_step1. exact H2.
Qed.

Lemma unresolved_short_link_is_absorbed_witness :
  parseVideoInput offline (lit "https://b23.tv/abc123") startWorld
  = (Throw (Error (lit "Format not supported")),
     afterResolve offline (lit "https%3A%2F%2Fb23.tv%2Fabc123") startWorld).
Proof.
  rewrite (proj1 (unresolved_short_link_is_absorbed offline
                    (lit "https://b23.tv/abc123")
                    (lit "https%3A%2F%2Fb23.tv%2Fabc123") startWorld
                    eq_refl eq_refl I)).
  vm_compute. reflexivity.
Defined.

Lemma optProp_string (status : value) (k : string) (s : jsstr) :
  optProp status k = VStr s -> prop status k = VStr s.
Proof. destruct status; cbn; congruence. Qed.

Lemma resolveShortLink_redirected (host : Host) (url enc final : jsstr)
  (w : World) :
  includes url (lit "b23.tv") = true ->
  encodeURIComponent url = Normal enc ->
  redirectedTo (resolveAnswer host enc w) final ->
  resolveShortLink host url w
    = (Normal (VStr final, []), afterResolve host enc w)
  /\ Rev2.resolveShortLink host url w
     = (Normal (VStr final, []), afterResolve host enc w).
Proof.
  intros Hs Henc Hres. unfold resolveShortLink, Rev2.resolveShortLink.
  rewrite Hs, !(shortLink_run host url enc _ _ w Henc).
  destruct (resolveAnswer host enc w) as [|[data|]]; try contradiction.
  destruct Hres as [Hu [Hne Hinc]]. unfold tryCatch. cbn [json].
  assert (Hst : getProp data "status" = Normal (prop data "status")).
  { destruct data; cbn in Hu |- *; try discriminate Hu; reflexivity. }
  unfold bind, ret, lift. rewrite Hst. cbv beta iota.
  rewrite (optProp_string _ _ _ Hu), Hu.
  cbn [truthy includesValue]. destruct final as [|c final]; [discriminate|].
  cbv beta iota. rewrite Hinc. split; reflexivity.
Qed.

(** X11. A short link the proxy follows is parsed as its target.  If
    the answer to the request of step 1 carries a [status.url] that is a
    non-empty string without ["b23.tv"], both revisions go on with steps
    2 to 4 on that string and so agree; when the string has no white
    space around it, the run is from there on the run of
    [parseVideoInput] on the target itself. *)
Theorem followed_short_link_is_its_target (host : Host)
  (input enc final : jsstr) (w : World) :
  includes (trim input) (lit "b23.tv") = true ->
  encodeURIComponent (trim input) = Normal enc ->
  redirectedTo (resolveAnswer host enc w) final ->
  parseVideoInput host input w
    = parseIdentified host (VStr final)
        (fst (idsOf final)) (snd (idsOf final)) (afterResolve host enc w)
  /\ Rev2.parseVideoInput host input w = parseVideoInput host input w
  /\ (trim final = final ->
      parseVideoInput host input w
        = parseVideoInput host final (afterResolve host enc w)).
Proof.
  intros Hs Henc Hres.
  destruct (resolveShortLink_redirected host (trim input) enc final w
              Hs Henc Hres) as [H1 H2].
  rewrite (parse_after_step1 host input final w _ H1).
  rewrite (Rev2_parse_after_step1 host input final w _ H2).
  split; [reflexivity|]. split; [reflexivity|].
  intros Ht.
  assert (Hf : includes (trim final) (lit "b23.tv") = false).
  { rewrite Ht. destruct (resolveAnswer host enc w) as [|[data|]];
      try contradiction. apply Hres. }
  destruct (parseVideoInput_without_short_link host final
              (afterResolve host enc w) Hf) as [-> _].
  rewrite Ht. reflexivity.
Qed.

Lemma followed_short_link_is_its_target_witness :
  parseVideoInput followingProxy (lit "https://b23.tv/abc123") startWorld
  = parseVideoInput followingProxy
      (lit "https://www.youtube.com/watch?v=dQw4w9WgXcQ")
      (afterResolve followingProxy (lit "https%3A%2F%2Fb23.tv%2Fabc123")
         startWorld).
Proof.
  apply (followed_short_link_is_its_target followingProxy
           (lit "https://b23.tv/abc123")
           (lit "https%3A%2F%2Fb23.tv%2Fabc123")
           (lit "https://www.youtube.com/watch?v=dQw4w9WgXcQ") startWorld);
    vm_compute; auto.
Defined.

Lemma bilibiliUrl_consuming : consuming (captured bilibiliUrlRegex).
Proof. cbn. auto. Qed.

Lemma Rev2_resolveShortLink_page (host : Host) (url enc c whole g : jsstr)
  (data : value) (w : World) :
  includes url (lit "b23.tv") = true ->
  encodeURIComponent url = Normal enc ->
  resolveAnswer host enc w = Response (Some data) ->
  notFollowed data ->
  prop data "contents" = VStr c ->
  jsmatch bilibiliUrlRegex c = Some (whole, g) ->
  Rev2.resolveShortLink host url w
    = (Normal (VStr whole, g), afterResolve host enc w).
Proof.
  intros Hs Henc Hres Hnf Hc Hm. unfold Rev2.resolveShortLink.
  rewrite Hs, (shortLink_run host url enc _ _ w Henc), Hres.
  unfold tryCatch. cbn [json].
  assert (Hne : nonEmpty c = true).
  { destruct c; [|reflexivity]. vm_compute in Hm. discriminate. }
  assert (Hst : getProp data "status" = Normal (prop data "status")).
  { destruct data; cbn in Hc |- *; try discriminate Hc; reflexivity. }
  unfold bind, ret, lift. rewrite Hst. cbv beta iota.
  destruct Hnf as [Hu | [s [Hu Hinc]]].
  - rewrite Hu. cbv beta iota. rewrite Hc. cbn [truthy matchValue].
    destruct c; [discriminate|]. cbv beta iota. rewrite Hm. reflexivity.
  - rewrite (optProp_string _ _ _ Hu), Hu. cbn [truthy includesValue].
    destruct s as [|x s]; [discriminate Hinc|]. cbv beta iota.
    rewrite Hinc. cbn [negb]. cbv beta iota. rewrite Hc.
    cbn [truthy matchValue].
    destruct c; [discriminate|]. cbv beta iota. rewrite Hm. reflexivity.
Qed.

(** X12. The second revision reads the video from the page.  If the
    proxy did not follow the redirect (no [status.url], or one that still
    contains ["b23.tv"]) and the page contents hold a Bilibili video URL,
    the second revision takes the BV id of the first such URL and runs
    the Bilibili branch with it. *)
Theorem Rev2_reads_video_url_from_page (host : Host)
  (input enc c whole g : jsstr) (data : value) (w : World) :
  includes (trim input) (lit "b23.tv") = true ->
  encodeURIComponent (trim input) = Normal enc ->
  resolveAnswer host enc w = Response (Some data) ->
  notFollowed data ->
  prop data "contents" = VStr c ->
  jsmatch bilibiliUrlRegex c = Some (whole, g) ->
  Rev2.parseVideoInput host input w
    = parseBilibili host g [] (afterResolve host enc w).
Proof.
  intros Hs Henc Hres Hnf Hc Hm. unfold Rev2.parseVideoInput.
  rewrite bind_run,
    (Rev2_resolveShortLink_page host (trim input) enc c whole g data w
       Hs Henc Hres Hnf Hc Hm).
  rewrite bind_run. unfold lift, Rev2.extractIds.
  pose proof (jsmatch_captured_nonEmpty _ _ _ _ bilibiliUrl_consuming Hm)
    as Hg.
  rewrite Hg. cbn [negb]. unfold parseIdentified. rewrite Hg. reflexivity.
Qed.

Lemma Rev2_reads_video_url_from_page_witness :
  Rev2.parseVideoInput pageProxy (lit "https://b23.tv/abc123") startWorld
  = parseBilibili pageProxy (lit "BV1xx411c7mD") []
      (afterResolve pageProxy (lit "https%3A%2F%2Fb23.tv%2Fabc123")
         startWorld).
Proof.
  apply (Rev2_reads_video_url_from_page pageProxy
           (lit "https://b23.tv/abc123")
           (lit "https%3A%2F%2Fb23.tv%2Fabc123")
           (lit "<a href=https://www.bilibili.com/video/BV1xx411c7mD>")
           (lit "https://www.bilibili.com/video/BV1xx411c7mD")
           (lit "BV1xx411c7mD")
           (VObj [(lit "status",
                   VObj [(lit "url", VStr (lit "https://b23.tv/abc123"))]);
                  (lit "contents",
                   VStr (lit "<a href=https://www.bilibili.com/video/BV1xx411c7mD>"))])
           startWorld);
    try (vm_compute; reflexivity).
  right. exists (lit "https://b23.tv/abc123"). split; vm_compute; reflexivity.
Defined.

Lemma resolveShortLink_takes_status_url (host : Host) (url enc s : jsstr)
  (data : value) (w : World) :
  includes url (lit "b23.tv") = true ->
  encodeURIComponent url = Normal enc ->
  resolveAnswer host enc w = Response (Some data) ->
  optProp (prop data "status") "url" = VStr s -> nonEmpty s = true ->
  resolveShortLink host url w = (Normal (VStr s, []), afterResolve host enc w).
Proof.
  intros Hs Henc Hres Hu Hne. unfold resolveShortLink.
  rewrite Hs, (shortLink_run host url enc _ _ w Henc), Hres.
  unfold tryCatch. cbn [json].
  assert (Hst : getProp data "status" = Normal (prop data "status")).
  { destruct data; cbn in Hu |- *; try discriminate Hu; reflexivity. }
  unfold bind, ret, lift. rewrite Hst. cbv beta iota. rewrite Hu.
  cbn [truthy]. destruct s; [discriminate|]. reflexivity.
Qed.

(** X13. The first revision takes whatever [status.url] the proxy
    reports, also one that is still a short link, and never looks at the
    contents then: it goes on with steps 2 to 4 on that string, and
    rejects with [Format not supported] when the string carries none of
    the patterns. *)
Theorem Rev1_keeps_unfollowed_short_link (host : Host)
  (input enc s : jsstr) (data : value) (w : World) :
  includes (trim input) (lit "b23.tv") = true ->
  encodeURIComponent (trim input) = Normal enc ->
  resolveAnswer host enc w = Response (Some data) ->
  optProp (prop data "status") "url" = VStr s -> nonEmpty s = true ->
  parseVideoInput host input w
    = parseIdentified host (VStr s) (fst (idsOf s)) (snd (idsOf s))
        (afterResolve host enc w)
  /\ (jsmatch bvRegex s = None -> jsmatch avRegex s = None ->
      jsmatch ytRegex s = None -> jsmatch directRegex s = None ->
      parseVideoInput host input w
        = (Throw (Error (lit "Format not supported")),
           afterResolve host enc w)).
Proof.
  intros Hs Henc Hres Hu Hne.
  rewrite (parse_after_step1 host input s w _
             (resolveShortLink_takes_status_url host (trim input) enc s data w
                Hs Henc Hres Hu Hne)).
  split; [reflexivity|]. intros Hbv Hav Hyt Hd.
  rewrite (idsOf_none _ Hbv Hav). unfold parseIdentified.
  cbn [fst snd nonEmpty orb]. unfold lift, parseOther, matchValue.
  rewrite Hyt, Hd. reflexivity.
Qed.

Lemma Rev1_keeps_unfollowed_short_link_witness :
  parseVideoInput pageProxy (lit "https://b23.tv/abc123") startWorld
  = (Throw (Error (lit "Format not supported")),
     afterResolve pageProxy (lit "https%3A%2F%2Fb23.tv%2Fabc123") startWorld).
Proof.
  apply (Rev1_keeps_unfollowed_short_link pageProxy
           (lit "https://b23.tv/abc123")
           (lit "https%3A%2F%2Fb23.tv%2Fabc123")
           (lit "https://b23.tv/abc123")
           (VObj [(lit "status",
                   VObj [(lit "url", VStr (lit "https://b23.tv/abc123"))]);
                  (lit "contents",
                   VStr (lit "<a href=https://www.bilibili.com/video/BV1xx411c7mD>"))])
           startWorld);
    vm_compute; reflexivity.
Defined.

(** ** The player *)



Lemma runCleanup_fields (s : State) :
  blobUrl (runCleanup s) = blobUrl s
  /\ objectUrls (runCleanup s) = objectUrls s
  /\ created (runCleanup s) = created s
  /\ isDownloading (runCleanup s) = isDownloading s
  /\ useDirectStream (runCleanup s) = useDirectStream s
  /\ props (runCleanup s) = props s
  /\ unmounted (runCleanup s) = unmounted s.
Proof.
  unfold runCleanup. destruct (cleanup s) as [id|]; [|repeat split].
  destruct (nth_error (transfers s) id); repeat split.
Qed.

(** All the ways one event can go. *)
Ltac break_step :=
  unfold step;
  repeat match goal with
         | |- context [match ?x with _ => _ end] => destruct x eqn:?
         end;
  unfold caught, finish, fallBack, setTransfer, setDownloadProgress,
    runEffect;
  repeat match goal with
         | |- context [match ?x with _ => _ end] => destruct x eqn:?
         end.

(** *** Frames *)

Lemma jsstr_eqb_eq (a b : jsstr) : jsstr_eqb a b = true -> a = b.
Proof.
  revert b. induction a as [|x a IH]; intros [|y b]; cbn;
    try discriminate; [reflexivity|].
  intros H. apply andb_true_iff in H. destruct H as [Hx Hab].
  apply N.eqb_eq in Hx. rewrite Hx, (IH b Hab). reflexivity.
Qed.

Lemma sameProps_eq (p : option (jsstr * PlayerType)) (url : jsstr)
  (ty : PlayerType) :
  sameProps p url ty = true -> p = Some (url, ty).
Proof.
  unfold sameProps. destruct p as [[u t]|]; [|discriminate].
  destruct t, ty; try discriminate; intros H;
    rewrite (jsstr_eqb_eq _ _ H); reflexivity.
Qed.

(** After the events of a transfer and the skip button the props are
    what they were. *)
Lemma step_props (s : State) (e : Event) :
  match e with Render _ _ => False | _ => True end ->
  props (step s e) = props s.
Proof.
  destruct (runCleanup_fields s) as [_ [_ [_ [_ [_ [Ep _]]]]]].
  destruct e; try contradiction; intros _; break_step;
    cbn [props]; rewrite ?Ep; reflexivity.
Qed.

(** A frame committed after the effect was rendered from a state whose
    effect ran for the props of the frame. *)
Lemma framesOf_state (s : State) (e : Event) (f : Frame) :
  In f (framesOf s e) ->
  (beforeEffect f = true /\ frameState f = s)
  \/ (beforeEffect f = false /\ frameState f = step s e
      /\ props (step s e) = propsOf f).
Proof.
  unfold framesOf, propsOf. destruct (unmounted s) eqn:Hu; [intros []|].
  destruct e as [url ty| | |id ok hasBody cl|id v|id|id ab].
  - destruct (sameProps (props s) url ty) eqn:Hp.
    + intros [<- | []]. right. cbn [beforeEffect frameState frameUrl frameType].
      assert (Hs : step s (Render url ty) = s).
      { unfold step. rewrite Hu, Hp. reflexivity. }
      rewrite Hs. split; [reflexivity|]. split; [reflexivity|].
      apply sameProps_eq. exact Hp.
    + intros [<- | [<- | []]]; [left; split; reflexivity|].
      right. cbn [beforeEffect frameState frameUrl frameType].
      split; [reflexivity|]. split; [reflexivity|].
      unfold step. rewrite Hu, Hp. cbn [orb]. destruct ty; reflexivity.
  - intros [].
  - destruct (props s) as [[url ty]|] eqn:Hp; [|intros []].
    intros [<- | []]. right. cbn [beforeEffect frameState frameUrl frameType].
    split; [reflexivity|]. split; [reflexivity|].
    rewrite step_props by exact I. exact Hp.
  - destruct (props s) as [[url ty]|] eqn:Hp; [|intros []].
    intros [<- | []]. right. cbn [beforeEffect frameState frameUrl frameType].
    split; [reflexivity|]. split; [reflexivity|].
    rewrite step_props by exact I. exact Hp.
  - destruct (props s) as [[url ty]|] eqn:Hp; [|intros []].
    intros [<- | []]. right. cbn [beforeEffect frameState frameUrl frameType].
    split; [reflexivity|]. split; [reflexivity|].
    rewrite step_props by exact I. exact Hp.
  - destruct (props s) as [[url ty]|] eqn:Hp; [|intros []].
    intros [<- | []]. right. cbn [beforeEffect frameState frameUrl frameType].
    split; [reflexivity|]. split; [reflexivity|].
    rewrite step_props by exact I. exact Hp.
  - destruct (props s) as [[url ty]|] eqn:Hp; [|intros []].
    intros [<- | []]. right. cbn [beforeEffect frameState frameUrl frameType].
    split; [reflexivity|]. split; [reflexivity|].
    rewrite step_props by exact I. exact Hp.
Qed.

(** Every frame was rendered from a state the player was in. *)
Lemma frames_reached (events : list Event) (s : State) (f : Frame) :
  In f (frames s events) ->
  exists before e,
    (beforeEffect f = true /\ frameState f = run s before)
    \/ (beforeEffect f = false /\ frameState f = run s (before ++ [e])
        /\ props (frameState f) = propsOf f).
Proof.
  revert s. induction events as [|e events IH]; intros s; [intros []|].
  cbn [frames]. rewrite in_app_iff. intros [H | H].
  - destruct (framesOf_state s e f H) as [[Hb Hs] | [Hb [Hs Hp]]].
    + exists [], e. left. split; [exact Hb | exact Hs].
    + exists [], e. right. split; [exact Hb|]. split; [exact Hs|].
      rewrite Hs. exact Hp.
  - destruct (IH (step s e) H) as [before [e' Hf]].
    exists (e :: before), e'. exact Hf.
Qed.

(** *** The handle held is live *)

Lemma step_handles (s : State) (e : Event) :
  liveHandle s /\ freshHandles s ->
  liveHandle (step s e) /\ freshHandles (step s e).
Proof.
  intros [Hl Hf].
  destruct (runCleanup_fields s) as [Eb [Eo [Ec _]]].
  unfold liveHandle, freshHandles in *.
  destruct e; break_step; cbn [blobUrl objectUrls created];
    rewrite ?Eb, ?Eo, ?Ec; try (split; assumption);
    (split; intros h0 Hh;
     [ first [ discriminate Hh
             | injection Hh as <-; left; reflexivity
             | right; apply Hl; exact Hh ]
     | first [ apply Hf; apply in_remove in Hh; apply Hh
             | apply Hf; exact Hh
             | destruct Hh as [<- | Hh]; [lia | specialize (Hf h0 Hh); lia] ] ]).
Qed.

Lemma run_handles (events : list Event) (s : State) :
  liveHandle s /\ freshHandles s ->
  liveHandle (run s events) /\ freshHandles (run s events).
Proof.
  revert s. induction events as [|e events IH]; intros s H; [exact H|].
  cbn [run]. apply IH, step_handles, H.
Qed.

Lemma revoked_by_new_source (s : State) (e : Event) (h : nat) :
  In h (objectUrls s) -> ~ In h (objectUrls (step s e)) ->
  unmounted s = false /\ blobUrl s = Some h
  /\ exists url ty, e = Render url ty /\ sameProps (props s) url ty = false.
Proof.
  intros Hin Hout.
  destruct (runCleanup_fields s) as [Eb [Eo _]].
  destruct e as [url ty| | |id ok hasBody cl|id value|id|id abortError].
  - unfold step in Hout.
    destruct (unmounted s) eqn:Hu; [contradiction|].
    destruct (sameProps (props s) url ty) eqn:Hp; [contradiction|].
    cbn [orb] in Hout.
    assert (Hl : ~ In h match blobUrl s with
                        | Some h0 => remove Nat.eq_dec h0 (objectUrls s)
                        | None => objectUrls s
                        end).
    { destruct ty; cbn [runEffect objectUrls] in Hout;
        rewrite Eb, Eo in Hout; exact Hout. }
    destruct (blobUrl s) as [h0|]; [|contradiction].
    destruct (Nat.eq_dec h0 h) as [->|Hne].
    + split; [reflexivity|]. split; [reflexivity|].
      exists url, ty. split; [reflexivity | exact Hp].
    + exfalso. apply Hl. apply in_in_remove; [congruence | exact Hin].
  - exfalso. apply Hout. unfold step.
    destruct (unmounted s); [exact Hin|]. cbn [objectUrls].
    rewrite Eo. exact Hin.
  - exfalso. apply Hout. exact Hin.
  - exfalso. apply Hout. break_step; cbn [objectUrls]; exact Hin.
  - exfalso. apply Hout. break_step; cbn [objectUrls]; exact Hin.
  - exfalso. apply Hout. break_step; cbn [objectUrls];
      first [exact Hin | right; exact Hin].
  - exfalso. apply Hout. break_step; cbn [objectUrls]; exact Hin.
Qed.

(** X14. A blob URL is live whenever it is committed as the source of
    the video: in every frame the player commits, the blob shown was
    created before and has not been revoked.  When the source changes
    while a blob is held, the render for the new source still commits
    that blob, the effect that follows revokes it, and the next frame
    shows no source.  Nothing else revokes an object URL: a step after
    which a live URL is no longer live is a render with a new source or
    player type, of a mounted player that holds this URL as its blob. *)
Theorem committed_blob_is_live :
  (forall (events : list Event) (f : Frame) (h : nat),
     In f (frames initial events) ->
     activeSrc (frameUrl f) (frameState f) = BlobSrc h ->
     In h (objectUrls (frameState f)))
  /\ (forall (s : State) (url : jsstr) (ty : PlayerType) (h : nat),
        unmounted s = false -> sameProps (props s) url ty = false ->
        blobUrl s = Some h ->
        framesOf s (Render url ty)
          = [ {| frameUrl := url; frameType := ty; frameState := s;
                 beforeEffect := true |};
              {| frameUrl := url; frameType := ty;
                 frameState := step s (Render url ty);
                 beforeEffect := false |} ]
        /\ activeSrc url s = BlobSrc h
        /\ ~ In h (objectUrls (step s (Render url ty)))
        /\ activeSrc url (step s (Render url ty)) = NoSrc)
  /\ (forall (s : State) (e : Event) (h : nat),
        In h (objectUrls s) -> ~ In h (objectUrls (step s e)) ->
        unmounted s = false /\ blobUrl s = Some h
        /\ exists url ty,
             e = Render url ty /\ sameProps (props s) url ty = false).
Proof.
  split; [|split; [|exact revoked_by_new_source]].
  - intros events f h Hf Hsrc.
    assert (Hreach : exists evs, frameState f = run initial evs).
    { destruct (frames_reached events initial f Hf)
        as [before [e [[_ Hs] | [_ [Hs _]]]]]; eexists; exact Hs. }
    destruct Hreach as [evs Hs]. rewrite Hs in *.
    destruct (run_handles evs initial) as [Hl _].
    { split; intros h0 H0; [discriminate H0 | destruct H0]. }
    apply Hl. unfold activeSrc in Hsrc.
    destruct (blobUrl (run initial evs)) as [h0|].
    + injection Hsrc as ->. reflexivity.
    + destruct (useDirectStream (run initial evs)); discriminate Hsrc.
  - intros s url ty h Hu Hp Hb.
    destruct (runCleanup_fields s) as [Eb [Eo _]].
    split; [unfold framesOf; rewrite Hu, Hp; reflexivity|].
    split; [unfold activeSrc; rewrite Hb; reflexivity|].
    unfold step. rewrite Hu, Hp. cbn [orb].
    split.
    + destruct ty; cbn [runEffect objectUrls]; rewrite Eb, Hb, Eo;
        apply remove_In.
    + destruct ty; reflexivity.
Qed.

Lemma committed_blob_is_live_witness :
  In 0%nat (objectUrls (run initial buffered))
  /\ ~ In 0%nat
       (objectUrls (step (run initial buffered)
                      (Render (lit "https://x/z.mp4") native))).
Proof.
  split.
  - apply (proj1 committed_blob_is_live buffered
             {| frameUrl := lit "https://x/y.mp4"; frameType := native;
                frameState := run initial buffered;
                beforeEffect := false |} 0%nat).
    + cbn. do 4 right. left. reflexivity.
    + reflexivity.
  - apply (proj1 (proj2 committed_blob_is_live) (run initial buffered)
             (lit "https://x/z.mp4") native 0%nat); reflexivity.
Defined.

(** *** One live transfer *)

Lemma nth_error_setNth (l : list Transfer) (i j : nat) (x t : Transfer) :
  nth_error (setNth i x l) j = Some t ->
  (i = j /\ t = x /\ nth_error l i <> None)
  \/ (i <> j /\ nth_error l j = Some t).
Proof.
  destruct (Nat.eq_dec i j) as [<-|Hij].
  - destruct (nth_error l i) as [y|] eqn:E.
    + rewrite (@nth_error_setNth_same _ i x y l E). intros H.
      injection H as <-. left. repeat split. discriminate.
    + intros H. exfalso.
      assert (Hlen : (List.length (setNth i x l) <= i)%nat).
      { rewrite length_setNth. apply nth_error_None. exact E. }
      apply nth_error_None in Hlen. congruence.
  - rewrite (@nth_error_setNth_other _ i j x l Hij). auto.
Qed.

Lemma runCleanup_all_aborted (s : State) (id : nat) (t : Transfer) :
  oneLive s ->
  nth_error (transfers (runCleanup s)) id = Some t -> isAborted t = true.
Proof.
  intros H. unfold runCleanup.
  destruct (cleanup s) as [c|] eqn:Ec.
  - destruct (nth_error (transfers s) c) as [tc|] eqn:Etc.
    + cbn [transfers]. intros Ht.
      destruct (nth_error_setNth _ _ _ _ _ Ht) as [[_ [-> _]] | [Hne Ht']];
        [reflexivity|].
      destruct (isAborted t) eqn:Ea; [reflexivity|].
      destruct (H id t Ht' Ea) as [E _]. congruence.
    + intros Ht. destruct (isAborted t) eqn:Ea; [reflexivity|].
      destruct (H id t Ht Ea) as [E [E' _]].
      assert (c = id) by congruence. subst c. congruence.
  - intros Ht. destruct (isAborted t) eqn:Ea; [reflexivity|].
    destruct (H id t Ht Ea) as [E _]. congruence.
Qed.

Lemma step_oneLive (s : State) (e : Event) : oneLive s -> oneLive (step s e).
Proof.
  intros H. pose proof (runCleanup_all_aborted s) as Hall.
  destruct (runCleanup_fields s) as [_ [_ [_ [_ [_ [_ Eu]]]]]].
  unfold oneLive in *.
  destruct e; break_step; cbn [transfers cleanup unmounted]; try exact H;
    intros j tj Hj Ha;
    try (rewrite (Hall j tj H Hj) in Ha; discriminate Ha);
    try (destruct (nth_error_setNth _ _ _ _ _ Hj) as [[<- [-> _]] | [_ Hj']];
         rewrite ?length_setNth;
         [ cbn [isAborted] in Ha;
           match goal with
           | E : nth_error (transfers s) _ = Some ?t |- _ => exact (H _ t E Ha)
           end
         | exact (H j tj Hj' Ha) ]);
    try (exfalso; destruct (H j tj Hj Ha) as [_ [_ F]]; discriminate F);
    (* a new native source: the transfer just started *)
    (assert (Hm : unmounted (runCleanup s) = false)
       by (rewrite Eu;
           match goal with
           | E : unmounted s || _ = false |- _ =>
               apply orb_false_iff in E; apply E
           end));
    (destruct (Nat.lt_ge_cases j (List.length (transfers (runCleanup s))))
       as [Hlt | Hge];
     [ rewrite nth_error_app1 in Hj by exact Hlt;
       rewrite (Hall j tj H Hj) in Ha; discriminate Ha
     | rewrite nth_error_app2 in Hj by exact Hge;
       destruct (j - List.length (transfers (runCleanup s)))%nat
         as [|k] eqn:Ek;
       [ rewrite length_app; cbn [List.length];
         split; [f_equal; lia | split; [lia | exact Hm]]
       | destruct k; discriminate Hj ] ]).
Qed.

Lemma run_oneLive (events : list Event) (s : State) :
  oneLive s -> oneLive (run s events).
Proof.
  revert s. induction events as [|e events IH]; intros s H; [exact H|].
  cbn [run]. apply IH, step_oneLive, H.
Qed.

Lemma step_missing_transfer (s : State) (e : Event) (id : nat) :
  transferOf e = Some id -> nth_error (transfers s) id = None ->
  step s e = s.
Proof.
  intros He Hn.
  destruct e; try discriminate He; injection He as ->;
    unfold step; rewrite Hn; reflexivity.
Qed.

(** X15. In every reachable state a transfer whose [isAborted] flag is
    not set is the one the pending cleanup will abort, it is the last
    one started, and the player is still mounted.  So an event of a
    transfer that sets or clears the blob handle, switches the direct
    stream or changes the loading state is an event of the last transfer
    started, in a mounted player.  An abandoned transfer can still write
    the progress, to at most 99: a chunk of the first download that is
    delivered after the player was given a new file moves the progress
    of the new download from 0 to 50. *)
Theorem only_last_transfer_sets_source :
  (forall (events : list Event) (id : nat) (t : Transfer),
     nth_error (transfers (run initial events)) id = Some t ->
     isAborted t = false ->
     cleanup (run initial events) = Some id
     /\ S id = List.length (transfers (run initial events))
     /\ unmounted (run initial events) = false)
  /\ (forall (events : list Event) (e : Event) (id : nat),
        transferOf e = Some id ->
        blobUrl (step (run initial events) e) <> blobUrl (run initial events)
        \/ useDirectStream (step (run initial events) e)
           <> useDirectStream (run initial events)
        \/ isDownloading (step (run initial events) e)
           <> isDownloading (run initial events) ->
        cleanup (run initial events) = Some id
        /\ S id = List.length (transfers (run initial events))
        /\ unmounted (run initial events) = false)
  /\ (forall (events : list Event) (e : Event) (id : nat) (t : Transfer),
        transferOf e = Some id ->
        nth_error (transfers (run initial events)) id = Some t ->
        isAborted t = true ->
        downloadProgress (step (run initial events) e)
        = downloadProgress (run initial events)
        \/ (downloadProgress (step (run initial events) e) <= 99)%Q)
  /\ ((exists t,
         nth_error (transfers (run initial reloadedWhileReading)) 0 = Some t
         /\ isAborted t = true)
      /\ cleanup (run initial reloadedWhileReading) = Some 1%nat
      /\ (downloadProgress (run initial reloadedWhileReading) == 0)%Q
      /\ (downloadProgress
            (step (run initial reloadedWhileReading) (Chunk 0 (Some 2%nat)))
          == 50)%Q).
Proof.
  assert (Hone : forall events, oneLive (run initial events)).
  { intros events. apply run_oneLive. intros j tj Hj.
    destruct j; discriminate Hj. }
  split; [exact Hone|]. split; [|split].
  - intros events e id He Hch.
    destruct (nth_error (transfers (run initial events)) id) as [t|] eqn:Ht.
    + destruct (isAborted t) eqn:Ha.
      * exfalso.
        destruct (@aborted_step_silent (run initial events) e id
                    (ex_intro _ t (conj Ht Ha)) He) as [Hb [Hd [Hi _]]].
        destruct Hch as [H | [H | H]]; contradiction.
      * exact (Hone events id t Ht Ha).
    + exfalso. rewrite (step_missing_transfer _ e id He Ht) in Hch.
      destruct Hch as [H | [H | H]]; apply H; reflexivity.
  - intros events e id t He Ht Ha.
    exact (proj2 (proj2 (proj2
             (@aborted_step_silent (run initial events) e id
                (ex_intro _ t (conj Ht Ha)) He)))).
  - split; [eexists; split; reflexivity|].
    split; [reflexivity|]. split; reflexivity.
Qed.

Lemma only_last_transfer_sets_source_witness :
  cleanup (run initial bufferedThenReloaded) = Some 1%nat
  /\ 2%nat = List.length (transfers (run initial bufferedThenReloaded))
  /\ unmounted (run initial bufferedThenReloaded) = false.
Proof.
  apply (proj1 (proj2 only_last_transfer_sets_source) bufferedThenReloaded
           (Failed 1 false) 1%nat); [reflexivity|].
  right. left. discriminate.
Defined.

(** *** Overlay or video *)

Lemma step_sourceOrOverlay (s : State) (e : Event) :
  sourceOrOverlay s -> sourceOrOverlay (step s e).
Proof.
  intros H.
  destruct (runCleanup_fields s) as [Eb [_ [_ [Ed [Es [Ep _]]]]]].
  unfold sourceOrOverlay in *.
  destruct e; break_step;
    cbn [props isDownloading blobUrl useDirectStream];
    rewrite ?Eb, ?Ed, ?Es, ?Ep; try exact H;
    intros u Hu; try discriminate Hu; auto;
    right; left; discriminate.
Qed.

Lemma run_sourceOrOverlay (events : list Event) (s : State) :
  sourceOrOverlay s -> sourceOrOverlay (run s events).
Proof.
  revert s. induction events as [|e events IH]; intros s H; [exact H|].
  cbn [run]. apply IH, step_sourceOrOverlay, H.
Qed.

Lemma overlay_xor_video (s : State) (url : jsstr) :
  sourceOrOverlay s -> props s = Some (url, native) ->
  nonEmpty url = true ->
  showLoadingOverlay s = negb (videoShown (activeSrc url s)).
Proof.
  intros H Hp Hu. specialize (H url Hp). unfold showLoadingOverlay, activeSrc.
  destruct (blobUrl s) as [h|].
  - cbn [videoShown negb]. rewrite andb_false_r. reflexivity.
  - destruct (useDirectStream s).
    + cbn [videoShown negb]. rewrite Hu, andb_false_r. reflexivity.
    + destruct H as [-> | [H | H]]; [reflexivity | congruence | discriminate].
Qed.

(** X16. Once the effect for its source has run, a native player with a
    non-empty URL shows the loading overlay or the video, never both and
    never neither: in every frame committed after the effect,
    [showLoadingOverlay] holds exactly when [activeSrc] is not rendered.
    The frame committed before the effect need not: the first frame of a
    native player shows neither. *)
Theorem overlay_or_video :
  (forall (events : list Event) (f : Frame),
     In f (frames initial events) ->
     frameType f = native -> nonEmpty (frameUrl f) = true ->
     beforeEffect f = false ->
     showLoadingOverlay (frameState f)
     = negb (videoShown (activeSrc (frameUrl f) (frameState f))))
  /\ (forall (url : jsstr) (rest : list Event),
        exists later,
          frames initial (Render url native :: rest)
            = {| frameUrl := url; frameType := native;
                 frameState := initial; beforeEffect := true |} :: later
          /\ showLoadingOverlay initial = false
          /\ videoShown (activeSrc url initial) = false).
Proof.
  split.
  - intros events f Hf Hty Hu Hb.
    destruct (frames_reached events initial f Hf)
      as [before [e [[Hb' _] | [_ [Hs Hp]]]]]; [congruence|].
    apply overlay_xor_video; [| |exact Hu].
    + rewrite Hs. apply run_sourceOrOverlay. intros u H0. discriminate H0.
    + rewrite Hp. unfold propsOf. rewrite Hty. reflexivity.
  - intros url rest. eexists. split; [reflexivity|]. split; reflexivity.
Qed.

Lemma overlay_or_video_witness :
  showLoadingOverlay (run initial buffered)
  = negb (videoShown (activeSrc (lit "https://x/y.mp4")
                        (run initial buffered))).
Proof.
  apply (proj1 overlay_or_video buffered
           {| frameUrl := lit "https://x/y.mp4"; frameType := native;
              frameState := run initial buffered;
              beforeEffect := false |}); try reflexivity.
  cbn. do 4 right. left. reflexivity.
Defined.

(** X17. Skipping the wait does not stop the download.  With a live
    transfer reading the body and no blob yet, the skip button removes
    the overlay and plays the URL directly, but leaves the transfer
    running; when the body is complete the player's source switches from
    the URL to the new blob. *)
Theorem skip_does_not_stop_download (s : State) (url : jsstr) (id : nat)
  (total loaded : Z) (chunks : list nat) :
  nth_error (transfers s) id
    = Some {| isAborted := false; stage := Reading total loaded chunks |} ->
  blobUrl s = None ->
  let skipped := step s SkipDownload in
  showLoadingOverlay skipped = false
  /\ activeSrc url skipped = UrlSrc url
  /\ transfers skipped = transfers s
  /\ activeSrc url (step skipped (Done id)) = BlobSrc (created s)
  /\ In (created s) (objectUrls (step skipped (Done id))).
Proof.
  intros Ht Hb. cbv zeta.
  change (step s SkipDownload) with (fallBack s).
  assert (Hd : step (fallBack s) (Done id)
               = finish id {| isAborted := false;
                              stage := Reading total loaded chunks |}
                   (fallBack s)).
  { unfold step. cbn [fallBack transfers]. rewrite Ht. reflexivity. }
  rewrite Hd. unfold showLoadingOverlay, activeSrc, finish, fallBack.
  cbn [isDownloading blobUrl useDirectStream transfers objectUrls created
       isAborted negb andb].
  rewrite Hb. repeat split. left. reflexivity.
Qed.

Lemma skip_does_not_stop_download_witness :
  activeSrc (lit "https://x/y.mp4")
    (step (step readingPlayer SkipDownload) (Done 0))
  = BlobSrc 0.
Proof.
  apply (skip_does_not_stop_download readingPlayer
           (lit "https://x/y.mp4") 0 4%Z 0%Z []); reflexivity.
Defined.

(** *** A body of unknown length *)

Lemma chunk_unknown_total (s : State) (id : nat) (total loaded : Z)
  (chunks : list nat) (value : option nat) :
  nth_error (transfers s) id
    = Some {| isAborted := false; stage := Reading total loaded chunks |} ->
  (total <= 0)%Z ->
  exists loaded' chunks',
    nth_error (transfers (step s (Chunk id value))) id
      = Some {| isAborted := false; stage := Reading total loaded' chunks' |}
    /\ view (step s (Chunk id value)) = view s.
Proof.
  intros Ht Hz. unfold step. rewrite Ht. cbn [stage isAborted].
  destruct value as [len|]; [|exists loaded, chunks; split; [exact Ht|reflexivity]].
  assert (Hp : (0 <? total)%Z = false) by (apply Z.ltb_ge; exact Hz).
  rewrite Hp. exists (loaded + Z.of_nat len)%Z, (chunks ++ [len]).
  split; [|reflexivity]. cbn [setTransfer transfers].
  eapply nth_error_setNth_same. exact Ht.
Qed.

Lemma reading_unknown_total (values : list (option nat)) :
  forall (s : State) (id : nat) (total loaded : Z) (chunks : list nat),
  nth_error (transfers s) id
    = Some {| isAborted := false; stage := Reading total loaded chunks |} ->
  (total <= 0)%Z ->
  Forall (fun s' => view s' = view s)
    (removelast (trace s (map (Chunk id) values ++ [Done id]))).
Proof.
  induction values as [|value values IH]; intros s id total loaded chunks Ht Hz.
  - cbn. constructor.
  - cbn [map app trace].
    destruct (chunk_unknown_total s id total loaded chunks value Ht Hz)
      as [loaded' [chunks' [Ht' Hv]]].
    specialize (IH _ id total loaded' chunks' Ht' Hz).
    destruct (trace (step s (Chunk id value))
                (map (Chunk id) values ++ [Done id])) as [|x xs] eqn:E.
    { destruct values; discriminate E. }
    change (removelast (step s (Chunk id value) :: x :: xs))
      with (step s (Chunk id value) :: removelast (x :: xs)).
    constructor; [exact Hv|].
    revert IH. apply Forall_impl. intros s' Hs'. congruence.
Qed.

(** X18. Without a usable [content-length] (header missing, or a length
    that is not positive) the download shows no progress: in every state
    before the last the progress is 0 and the loading overlay is up. *)
Theorem unknown_length_shows_no_progress (s0 : State) (url : jsstr)
  (contentLength : option Z) (values : list (option nat)) :
  unmounted s0 = false ->
  sameProps (props s0) url native = false ->
  (match contentLength with Some n => n | None => 0 end <= 0)%Z ->
  Forall (fun s => downloadProgress s = 0%Q /\ showLoadingOverlay s = true)
    (removelast (trace s0 (download s0 url contentLength values))).
Proof.
  intros Hu Hp Hz. unfold download.
  set (id := List.length (transfers s0)).
  cbn [trace].
  set (s1 := step s0 (Render url native)).
  set (s2 := step s1 (Responded id true true contentLength)).
  assert (H1 : s1 = runEffect url native (runCleanup s0)).
  { subst s1. unfold step. rewrite Hu, Hp. reflexivity. }
  assert (Ht1 : nth_error (transfers s1) id
                = Some {| isAborted := false; stage := AwaitingResponse |}).
  { rewrite H1. cbn [runEffect transfers]. subst id.
    rewrite <- (length_transfers_runCleanup s0).
    rewrite nth_error_app2 by lia. rewrite Nat.sub_diag. reflexivity. }
  set (total := match contentLength with Some n => n | None => 0%Z end) in *.
  assert (H2 : s2 = setTransfer id {| isAborted := false;
                                      stage := Reading total 0 [] |} s1).
  { subst s2. unfold step. rewrite Ht1. reflexivity. }
  assert (Hs1 : downloadProgress s1 = 0%Q /\ showLoadingOverlay s1 = true).
  { rewrite H1. split; reflexivity. }
  assert (Hv2 : view s2 = view s1) by (rewrite H2; reflexivity).
  assert (Hview : forall s, view s = view s1 ->
            downloadProgress s = 0%Q /\ showLoadingOverlay s = true).
  { intros s Hv. unfold view in Hv. unfold showLoadingOverlay.
    destruct Hs1 as [Ha Hb]. unfold showLoadingOverlay in Hb.
    injection Hv as _ _ -> -> -> -> _. split; assumption. }
  assert (Hloop := reading_unknown_total values s2 id total 0%Z []).
  destruct (trace s2 (map (Chunk id) values ++ [Done id])) as [|x xs] eqn:E.
  { destruct values; discriminate. }
  change (removelast (s1 :: s2 :: x :: xs))
    with (s1 :: s2 :: removelast (x :: xs)).
  constructor; [exact Hs1|]. constructor; [apply Hview, Hv2|].
  assert (Ht2 : nth_error (transfers s2) id
                = Some {| isAborted := false; stage := Reading total 0 [] |}).
  { rewrite H2. cbn [setTransfer transfers].
    eapply nth_error_setNth_same. exact Ht1. }
  specialize (Hloop Ht2 Hz). revert Hloop. apply Forall_impl.
  intros s Hs. apply Hview. congruence.
Qed.

Lemma unknown_length_shows_no_progress_witness :
  Forall (fun s => downloadProgress s = 0%Q /\ showLoadingOverlay s = true)
    (removelast
       (trace initial
          (download initial (lit "https://x/y.mp4") None [Some 4%nat; Some 4%nat]))).
Proof.
  apply (unknown_length_shows_no_progress initial (lit "https://x/y.mp4")
           None [Some 4%nat; Some 4%nat]); try reflexivity; try (cbn; lia).
Defined.

(** ** Escaping and unescaping *)


Open Scope N_scope.

Lemma decodesTo_decode (e s : jsstr) :
  decodesTo e s <-> decodeURIComponent e = Normal s.
Proof.
  unfold decodesTo, decodeURIComponent. split.
  - intros [ts [-> ->]]. reflexivity.
  - destruct (tokens e) as [ts|]; [|discriminate].
    destruct (decodeTokens ts) as [r|] eqn:E; [|discriminate].
    intros H. injection H as <-. exists ts. split; [reflexivity | exact E].
Qed.

Lemma hexVal_hexDigit (d : N) : d < 16 -> hexVal (hexDigit d) = Some d.
Proof.
  intros H.
  assert (Hd : d = 0 \/ d = 1 \/ d = 2 \/ d = 3 \/ d = 4 \/ d = 5 \/ d = 6
               \/ d = 7 \/ d = 8 \/ d = 9 \/ d = 10 \/ d = 11 \/ d = 12
               \/ d = 13 \/ d = 14 \/ d = 15) by lia.
  repeat (destruct Hd as [-> | Hd]; [reflexivity|]). subst d. reflexivity.
Qed.

Lemma tokens_pctEncode (o : N) (r : jsstr) (ts : list token) :
  o < 256 -> tokens r = Some ts ->
  tokens (pctEncode o ++ r) = Some (Octet o :: ts).
Proof.
  intros Ho Hr. unfold pctEncode. cbn [app tokens]. 
  change (37 =? 37) with true. cbv iota.
  rewrite !hexVal_hexDigit, Hr.
  - do 3 f_equal. f_equal. 
    pose proof (N.div_mod o 16). lia.
  - apply N.mod_lt. discriminate.
  - apply N.Div0.div_lt_upper_bound. lia.
Qed.

Lemma tokens_lit (c : N) (r : jsstr) (ts : list token) :
  c <> 37 -> tokens r = Some ts -> tokens (c :: r) = Some (Lit c :: ts).
Proof.
  intros Hc Hr. cbn [tokens]. apply N.eqb_neq in Hc. rewrite Hc, Hr.
  reflexivity.
Qed.

Ltac Zify.zify_post_hook ::= Z.to_euclidean_division_equations.

Ltac decide_cmp :=
  repeat match goal with
         | |- context [(?a <? ?b)%N] =>
             first [ replace (a <? b)%N with true
                       by (symmetry; apply N.ltb_lt; lia)
                   | replace (a <? b)%N with false
                       by (symmetry; apply N.ltb_ge; lia) ]
         | |- context [(?a <=? ?b)%N] =>
             first [ replace (a <=? b)%N with true
                       by (symmetry; apply N.leb_le; lia)
                   | replace (a <=? b)%N with false
                       by (symmetry; apply N.leb_gt; lia) ]
         end.

Lemma tokens_pctEncodeAll (os : list N) (r : jsstr) (ts : list token) :
  Forall (fun o => o < 256) os -> tokens r = Some ts ->
  tokens (pctEncodeAll os ++ r) = Some (map Octet os ++ ts).
Proof.
  intros Hos Hr. induction Hos as [|o os Ho _ IH]; [exact Hr|].
  unfold pctEncodeAll. cbn [flat_map map]. rewrite <- !app_assoc.
  apply tokens_pctEncode; [exact Ho | exact IH].
Qed.

Lemma utf8_octets (cp : N) : cp < 1114112 -> Forall (fun o => o < 256) (utf8 cp).
Proof.
  intros H. unfold utf8.
  destruct (cp <? 128) eqn:E1; [apply N.ltb_lt in E1; repeat constructor; lia|].
  destruct (cp <? 2048) eqn:E2; [apply N.ltb_lt in E2; repeat constructor; lia|].
  destruct (cp <? 65536) eqn:E3; [apply N.ltb_lt in E3; repeat constructor; lia|].
  repeat constructor; lia.
Qed.

(** A code point that is not a surrogate, up to [U+10FFFF]. *)
Lemma decodeTokens_utf8 (cp : N) (ts : list token) (s : jsstr) :
  cp < 1114112 -> ~ (55296 <= cp <= 57343) ->
  decodeTokens ts = Some s ->
  decodeTokens (map Octet (utf8 cp) ++ ts) = Some (utf16 cp ++ s).
Proof.
  intros Hmax Hsur Hts. unfold utf8, utf16.
  destruct (cp <? 128) eqn:E1.
  { apply N.ltb_lt in E1. cbn [map app decodeTokens]. rewrite Hts.
    decide_cmp. reflexivity. }
  apply N.ltb_ge in E1.
  destruct (cp <? 2048) eqn:E2.
  { apply N.ltb_lt in E2. cbn [map app decodeTokens]. rewrite Hts.
    decide_cmp. cbv iota. unfold utf8Decode, isContinuation. decide_cmp.
    cbn [andb]. unfold utf16. decide_cmp.
    replace ((192 + cp / 64 - 192) * 64 + (128 + cp mod 64 - 128)) with cp
      by lia.
    reflexivity. }
  apply N.ltb_ge in E2.
  destruct (cp <? 65536) eqn:E3.
  { apply N.ltb_lt in E3. cbn [map app decodeTokens]. rewrite Hts.
    decide_cmp. cbv iota. unfold utf8Decode, isContinuation.
    replace ((224 + cp / 4096 - 224) * 4096
             + (128 + (cp / 64) mod 64 - 128) * 64
             + (128 + cp mod 64 - 128)) with cp by lia.
    unfold isHighSurrogate, isLowSurrogate. decide_cmp.
    assert (Hs : (55296 <=? cp) && (cp <=? 56319)
                 || (56320 <=? cp) && (cp <=? 57343) = false).
    { apply orb_false_iff. split; apply andb_false_iff.
      - destruct (N.le_gt_cases 55296 cp);
          [right; apply N.leb_gt; lia | left; apply N.leb_gt; lia].
      - destruct (N.le_gt_cases 56320 cp);
          [right; apply N.leb_gt; lia | left; apply N.leb_gt; lia]. }
    rewrite Hs. cbn [andb negb]. unfold utf16. decide_cmp. reflexivity. }
  apply N.ltb_ge in E3.
  cbn [map app decodeTokens]. rewrite Hts.
  decide_cmp. cbv iota. unfold utf8Decode, isContinuation.
  replace ((240 + cp / 262144 - 240) * 262144
           + (128 + (cp / 4096) mod 64 - 128) * 4096
           + (128 + (cp / 64) mod 64 - 128) * 64
           + (128 + cp mod 64 - 128)) with cp by lia.
  decide_cmp. cbn [andb]. unfold utf16. decide_cmp. reflexivity.
Qed.

Lemma uriUnreserved_not_pct (c : N) : uriUnreserved c = true -> c <> 37.
Proof. intros H ->. vm_compute in H. discriminate. Qed.

Lemma decodesTo_lit (c : N) (r s : jsstr) :
  c <> 37 -> decodesTo r s -> decodesTo (c :: r) (c :: s).
Proof.
  intros Hc [ts [Ht Hd]]. exists (Lit c :: ts).
  split; [apply tokens_lit; assumption|].
  cbn [decodeTokens]. rewrite Hd. reflexivity.
Qed.

Lemma decodesTo_utf8 (cp : N) (r s : jsstr) :
  cp < 1114112 -> ~ (55296 <= cp <= 57343) ->
  decodesTo r s ->
  decodesTo (pctEncodeAll (utf8 cp) ++ r) (utf16 cp ++ s).
Proof.
  intros Hmax Hsur [ts [Ht Hd]]. exists (map Octet (utf8 cp) ++ ts).
  split.
  - apply tokens_pctEncodeAll; [apply utf8_octets; exact Hmax | exact Ht].
  - apply decodeTokens_utf8; assumption.
Qed.

(** What [encodeURIComponent] writes, [decodeURIComponent] reads back. *)
Lemma encode_decode (s : jsstr) :
  forall e, codeUnits s -> encodeURIComponent s = Normal e -> decodesTo e s.
Proof.
  remember (List.length s) as n eqn:Hn. revert s Hn.
  induction n as [n IH] using lt_wf_ind. intros s Hn e Hs.
  destruct s as [|c s]; cbn [encodeURIComponent].
  - intros H. injection H as <-. exists []. split; reflexivity.
  - inversion Hs as [|c' s' Hc Hs']. subst c' s'.
    destruct (uriUnreserved c) eqn:Hu.
    + destruct (encodeURIComponent s) as [r|] eqn:Hr; [|discriminate].
      intros H. injection H as <-.
      apply decodesTo_lit; [apply uriUnreserved_not_pct; exact Hu|].
      apply (IH (List.length s)); [subst n; cbn; lia | reflexivity
                                  | exact Hs' | exact Hr].
    + destruct (isHighSurrogate c) eqn:Hh.
      * destruct s as [|d s]; [discriminate|].
        destruct (isLowSurrogate d) eqn:Hl; [|discriminate].
        destruct (encodeURIComponent s) as [r|] eqn:Hr; [|discriminate].
        intros H. injection H as <-.
        inversion Hs' as [|d' s'' Hd Hs'']. subst d' s''.
        unfold isHighSurrogate in Hh. unfold isLowSurrogate in Hl.
        apply andb_true_iff in Hh, Hl. destruct Hh as [Hh1 Hh2].
        destruct Hl as [Hl1 Hl2]. apply N.leb_le in Hh1, Hh2, Hl1, Hl2.
        set (cp := (c - 55296) * 1024 + (d - 56320) + 65536).
        assert (Hu16 : utf16 cp = [c; d]).
        { unfold utf16, cp. decide_cmp. f_equal; [lia|]. f_equal. lia. }
        change (c :: d :: s) with ([c; d] ++ s). rewrite <- Hu16.
        apply decodesTo_utf8; [unfold cp; lia | unfold cp; lia |].
        apply (IH (List.length s)); [subst n; cbn; lia | reflexivity
                                    | exact Hs'' | exact Hr].
      * destruct (isLowSurrogate c) eqn:Hl; [discriminate|].
        destruct (encodeURIComponent s) as [r|] eqn:Hr; [|discriminate].
        intros H. injection H as <-.
        assert (Hu16 : utf16 c = [c]).
        { unfold utf16. decide_cmp. reflexivity. }
        change (c :: s) with ([c] ++ s). rewrite <- Hu16.
        apply decodesTo_utf8; [lia | |].
        { unfold isHighSurrogate in Hh. unfold isLowSurrogate in Hl.
          apply andb_false_iff in Hh, Hl. rewrite !N.leb_gt in Hh, Hl. lia. }
        apply (IH (List.length s)); [subst n; cbn; lia | reflexivity
                                    | exact Hs' | exact Hr].
Qed.

Lemma ascii_codeUnits (s : jsstr) :
  forallb (fun c => c <? 128) s = true -> codeUnits s.
Proof.
  intros H. apply Forall_forall. intros c Hc.
  rewrite forallb_forall in H. specialize (H c Hc). apply N.ltb_lt in H. lia.
Qed.

Lemma metaUrl_ascii (bvid avid : jsstr) :
  forallb alnum bvid = true -> forallb digit avid = true ->
  forallb (fun c => c <? 128) (metaUrlOf bvid avid) = true.
Proof.
  intros Hb Ha. unfold metaUrlOf.
  apply (@forallb_impl _ _ _ bvid alnum_ascii) in Hb.
  apply (@forallb_impl _ _ _ avid digit_ascii) in Ha.
  destruct (nonEmpty bvid); rewrite !forallb_app; rewrite ?Hb, ?Ha;
    reflexivity.
Qed.

Lemma parseUrl_ascii (bvid avid : jsstr) :
  forallb alnum bvid = true -> forallb digit avid = true ->
  forallb (fun c => c <? 128) (parseUrl bvid avid) = true.
Proof.
  intros Hb Ha. unfold parseUrl.
  apply (@forallb_impl _ _ _ bvid alnum_ascii) in Hb.
  apply (@forallb_impl _ _ _ avid digit_ascii) in Ha.
  destruct (nonEmpty bvid); rewrite !forallb_app; rewrite ?Hb, ?Ha;
    reflexivity.
Qed.

(** X19. The proxy is asked for exactly the API URLs.  For identifiers
    as the patterns capture them, the Bilibili branch makes exactly two
    requests, both through the raw proxy; unescaping the [url] parameter
    of the first gives the metadata API URL for the identifier, and of
    the second the parser API URL for it. *)
Theorem proxy_is_asked_for_the_api_urls (host : Host) (bvid avid : jsstr)
  (w : World) :
  forallb alnum bvid = true -> forallb digit avid = true ->
  exists u1 u2 e1 e2,
    requests (snd (parseBilibili host bvid avid w)) = requests w ++ [u1; u2]
    /\ startsWith PROXY_RAW u1 = true
    /\ paramValue "url" (queryParams u1) = Some e1
    /\ decodeURIComponent e1 = Normal (metaUrlOf bvid avid)
    /\ startsWith PROXY_RAW u2 = true
    /\ paramValue "url" (queryParams u2) = Some e2
    /\ decodeURIComponent e2 = Normal (parseUrl bvid avid).
Proof.
  intros Hb Ha.
  pose proof (metaUrl_ascii bvid avid Hb Ha) as Hm.
  pose proof (parseUrl_ascii bvid avid Hb Ha) as Hp.
  destruct (encodeURIComponent_ascii _ Hm) as [e1 He1].
  destruct (encodeURIComponent_ascii _ Hp) as [e2 He2].
  pose proof (encode_decode _ e1 (ascii_codeUnits _ Hm) He1) as Hd1.
  pose proof (encode_decode _ e2 (ascii_codeUnits _ Hp) He2) as Hd2.
  apply decodesTo_decode in Hd1, Hd2.
  unfold parseBilibili. rewrite bind_run, fetchMetadata_run, He1.
  cbv beta iota zeta.
  rewrite bind_run, fetchDirectUrl_run, He2. cbv beta iota zeta.
  cbn [clockReads requests].
  exists (proxyUrlOf e1 (now host (clockReads w))),
         (proxyUrlOf e2 (now host (S (clockReads w)))), e1, e2.
  split.
  { destruct (streamOutcome _) as [directUrl pe]. unfold lift.
    cbn [snd requests]. rewrite <- app_assoc. reflexivity. }
  rewrite (queryParams_proxyUrl _ _ He1), (queryParams_proxyUrl _ _ He2).
  repeat split; try assumption; reflexivity.
Qed.

Lemma proxy_is_asked_for_the_api_urls_witness :
  exists u1 u2 e1 e2,
    requests (snd (parseBilibili offline (lit "BV1xx411c7mD") [] startWorld))
      = requests startWorld ++ [u1; u2]
    /\ startsWith PROXY_RAW u1 = true
    /\ paramValue "url" (queryParams u1) = Some e1
    /\ decodeURIComponent e1 = Normal (metaUrlOf (lit "BV1xx411c7mD") [])
    /\ startsWith PROXY_RAW u2 = true
    /\ paramValue "url" (queryParams u2) = Some e2
    /\ decodeURIComponent e2 = Normal (parseUrl (lit "BV1xx411c7mD") []).
Proof.
  apply (proxy_is_asked_for_the_api_urls offline (lit "BV1xx411c7mD") []
           startWorld); reflexivity.
Defined.


(** The output of [encodeURIComponent] holds nothing but unreserved
    characters and escapes. *)
Lemma hexDigit_not_slash (d : N) : hexDigit d <> 47.
Proof. unfold hexDigit. destruct (d <? 10); lia. Qed.

Lemma pctEncodeAll_no_slash (octets : list N) :
  Forall (fun c => c <> 47) (pctEncodeAll octets).
Proof.
  induction octets as [|o octets IH]; cbn; [constructor|].
  repeat constructor; try apply hexDigit_not_slash; try lia. exact IH.
Qed.

Lemma uriUnreserved_not_slash (c : N) : uriUnreserved c = true -> c <> 47.
Proof. intros H ->. vm_compute in H. discriminate. Qed.

Lemma encodeURIComponent_no_slash (s : jsstr) :
  forall enc,
  encodeURIComponent s = Normal enc -> Forall (fun c => c <> 47) enc.
Proof.
  remember (List.length s) as n eqn:Hn. revert s Hn.
  induction n as [n IH] using lt_wf_ind. intros s Hn enc.
  destruct s as [|c s]; cbn [encodeURIComponent].
  - intros H. injection H as <-. constructor.
  - destruct (uriUnreserved c) eqn:Hu.
    + destruct (encodeURIComponent s) as [r|] eqn:Hr; [|discriminate].
      intros H. injection H as <-. constructor.
      * apply uriUnreserved_not_slash. exact Hu.
      * apply (IH (List.length s)) with (s := s);
          [subst; cbn; lia | reflexivity | exact Hr].
    + destruct (isHighSurrogate c).
      * destruct s as [|d s]; [discriminate|].
        destruct (isLowSurrogate d); [|discriminate].
        destruct (encodeURIComponent s) as [r|] eqn:Hr; [|discriminate].
        intros H. injection H as <-. apply Forall_app. split.
        -- apply pctEncodeAll_no_slash.
        -- apply (IH (List.length s)) with (s := s);
             [subst; cbn; lia | reflexivity | exact Hr].
      * destruct (isLowSurrogate c); [discriminate|].
        destruct (encodeURIComponent s) as [r|] eqn:Hr; [|discriminate].
        intros H. injection H as <-. apply Forall_app. split.
        -- apply pctEncodeAll_no_slash.
        -- apply (IH (List.length s)) with (s := s);
             [subst; cbn; lia | reflexivity | exact Hr].
Qed.

Lemma encodeURIComponent_nonEmpty (s enc : jsstr) :
  encodeURIComponent s = Normal enc -> s <> [] -> enc <> [].
Proof.
  destruct s as [|c s]; [congruence|]. intros H _. cbn [encodeURIComponent] in H.
  destruct (uriUnreserved c).
  - destruct (encodeURIComponent s); [|discriminate].
    injection H as <-. discriminate.
  - assert (Hp : forall cp rest, pctEncodeAll (utf8 cp) ++ rest <> []).
    { intros cp rest. unfold utf8.
      destruct (cp <? 128); [discriminate|].
      destruct (cp <? 2048); [discriminate|].
      destruct (cp <? 65536); discriminate. }
    destruct (isHighSurrogate c).
    + destruct s as [|d s]; [discriminate|].
      destruct (isLowSurrogate d); [|discriminate].
      destruct (encodeURIComponent s); [|discriminate].
      injection H as <-. apply Hp.
    + destruct (isLowSurrogate c); [discriminate|].
      destruct (encodeURIComponent s); [|discriminate].
      injection H as <-. apply Hp.
Qed.

(** X20. The title of a direct file undoes the escaping of its name.
    When the last segment of the URL is what [encodeURIComponent] makes
    of a non-empty file name, [directResult] resolves, for the native
    player, with exactly that name as title and the URL as its only
    source. *)
Theorem direct_title_round_trip (dir name enc : jsstr) :
  codeUnits name -> name <> [] ->
  encodeURIComponent name = Normal enc ->
  exists r,
    directResult (dir ++ 47 :: enc) = Normal r
    /\ ParsedVideoData.title r = VStr name
    /\ ParsedVideoData.playerType r = native
    /\ map VideoSource.url (ParsedVideoData.sources r)
       = [VStr (dir ++ 47 :: enc)].
Proof.
  intros Hcu Hne Henc. unfold directResult.
  rewrite (pop_split_last 47 dir enc (encodeURIComponent_no_slash _ _ Henc)).
  pose proof (encodeURIComponent_nonEmpty _ _ Henc Hne) as Hn.
  assert (Hor : orElseStr enc [26410; 21629; 21517; 35270; 39057] = enc).
  { destruct enc; [congruence | reflexivity]. }
  rewrite Hor.
  pose proof (encode_decode _ _ Hcu Henc) as Hd.
  apply decodesTo_decode in Hd. rewrite Hd.
  eexists. split; [reflexivity|]. repeat split.
Qed.

Lemma direct_title_round_trip_witness :
  exists r,
    directResult (lit "https://cdn.example.com/media"
                  ++ 47 :: lit "caf%C3%A9%20%26%20bar.mp4") = Normal r
    /\ ParsedVideoData.title r
       = VStr (lit "caf" ++ [233] ++ lit " & bar.mp4")
    /\ ParsedVideoData.playerType r = native
    /\ map VideoSource.url (ParsedVideoData.sources r)
       = [VStr (lit "https://cdn.example.com/media"
                ++ 47 :: lit "caf%C3%A9%20%26%20bar.mp4")].
Proof.
  apply (direct_title_round_trip (lit "https://cdn.example.com/media")
           (lit "caf" ++ [233] ++ lit " & bar.mp4")
           (lit "caf%C3%A9%20%26%20bar.mp4")).
  - repeat constructor.
  - discriminate.
  - vm_compute. reflexivity.
Defined.

Close Scope N_scope.

Ltac Zify.zify_post_hook ::= idtac.

(** ** The application *)





Lemma trimStart_nil (s : jsstr) :
  trimStart s = [] -> forallb isWhiteSpace s = true.
Proof.
  induction s as [|c s IH]; cbn; [reflexivity|].
  destruct (isWhiteSpace c); [exact IH | discriminate].
Qed.

(** Only white space trims to nothing. *)
Lemma trim_nil (s : jsstr) : trim s = [] -> forallb isWhiteSpace s = true.
Proof.
  unfold trim, trimEnd. intros H.
  apply (f_equal (@rev N)) in H. rewrite rev_involutive in H. cbn in H.
  apply trimStart_nil in H. rewrite forallb_forall in H.
  pose proof (trimStart_head s) as Hh.
  destruct (trimStart s) as [|c t] eqn:E; [apply trimStart_nil; exact E|].
  rewrite (H c) in Hh; [discriminate Hh|].
  apply in_rev. rewrite rev_involutive. left. reflexivity.
Qed.

(** X22. An input that contains ["demo"] never ends in ERROR, whatever
    the parser does: when parsing rejects, the built-in demo entry is
    shown in the native player with [DEMO_VIDEO_URL] as its source. *)
Theorem demo_input_never_fails (parse : jsstr -> M ParsedVideoData.t)
  (demoUrl demoTitle : jsstr) (a : App.State) (w : World) :
  includes (App.inputUrl a) (lit "demo") = true ->
  App.status (fst (App.handleParse parse demoUrl demoTitle a w)) = App.SUCCESS
  /\ (forall e w', parse (App.inputUrl a) w = (Throw e, w') ->
        App.handleParse parse demoUrl demoTitle a w
          = (App.settle a App.SUCCESS
               (Some (App.demoData demoUrl demoTitle)) [], w')
        /\ App.playerProps
             (fst (App.handleParse parse demoUrl demoTitle a w))
           = Some (Normal (VStr demoUrl, native))).
Proof.
  intros Hd. unfold App.handleParse.
  assert (Hne : nonEmpty (trim (App.inputUrl a)) = true).
  { destruct (trim (App.inputUrl a)) as [|c t] eqn:E; [|reflexivity].
    exfalso. apply trim_nil in E.
    apply includes_infix in Hd. destruct Hd as [x [y Hxy]].
    rewrite Hxy, !forallb_app in E. apply andb_true_iff in E.
    destruct E as [_ E]. apply andb_true_iff in E. destruct E as [E _].
    discriminate E. }
  rewrite Hne. cbn [negb].
  destruct (parse (App.inputUrl a) w) as [[r|e] w1] eqn:E.
  - split; [reflexivity|]. intros e w' H. discriminate H.
  - rewrite Hd. split; [reflexivity|]. intros e' w' H.
    injection H as _ <-. split; reflexivity.
Qed.

Lemma demo_input_never_fails_witness :
  App.handleParse (parseVideoInput offline) (lit "https://x/demo.mp4")
    App.demoTitle1 (App.typed (lit "a demo")) startWorld
  = (App.settle (App.typed (lit "a demo")) App.SUCCESS
       (Some (App.demoData (lit "https://x/demo.mp4") App.demoTitle1)) [],
     startWorld).
Proof.
  apply (proj2 (demo_input_never_fails (parseVideoInput offline)
                  (lit "https://x/demo.mp4") App.demoTitle1
                  (App.typed (lit "a demo")) startWorld eq_refl)
           (Error (lit "Format not supported")) startWorld).
  vm_compute. reflexivity.
Defined.

(** ** The clock of the player *)


Lemma Qfloor_div_60 (time : Q) :
  Qfloor (time / 60) = (Qfloor time / 60)%Z.
Proof.
  destruct time as [n d]. unfold Qdiv, Qmult, Qinv, Qfloor. cbn [Qnum Qden].
  rewrite Z.mul_1_r, Pos2Z.inj_mul, Z.div_div by lia. reflexivity.
Qed.

Lemma Qfloor_jsRem_60 (time : Q) :
  (0 <= time)%Q -> Qfloor (jsRem time 60) = Z.rem (Qfloor time) 60.
Proof.
  intros H0.
  assert (Hf : (0 <= Qfloor time)%Z).
  { change 0%Z with (Qfloor 0). apply Qfloor_resp_le. exact H0. }
  assert (Hq : (0 <= time / 60)%Q).
  { unfold Qdiv. apply Qmult_le_0_compat; [exact H0 | discriminate]. }
  unfold jsRem, Qtrunc.
  destruct (Qlt_le_dec (time / 60) 0) as [Hlt | _].
  { exfalso. apply (Qlt_not_le _ _ Hlt Hq). }
  rewrite Qfloor_div_60, Z.rem_mod_nonneg by lia.
  destruct time as [n d]. unfold Qfloor in *. cbn [Qnum Qden] in *.
  unfold Qminus, Qplus, Qopp, Qmult, inject_Z. cbn [Qnum Qden].
  rewrite Z.mul_1_r. replace (d * (1 * 1))%positive with d by lia.
  rewrite Z.div_add by lia.
  pose proof (Z.div_mod (n / Zpos d) 60). lia.
Qed.

(** X23. The clock of the player shows whole seconds like the parser
    shows durations: for a time that is not negative, [formatTime]
    gives what [formatDuration] gives for the time rounded down, minutes,
    a colon and the seconds with two digits. *)
Theorem formatTime_floors (time : Q) :
  (0 <= time)%Q -> formatTime time = formatDuration (Qfloor time).
Proof.
  intros H0. unfold formatTime, formatDuration. cbv zeta.
  rewrite Qfloor_div_60, (Qfloor_jsRem_60 time H0). reflexivity.
Qed.

Lemma formatTime_floors_witness :
  formatTime (2509 # 20) = lit "2:05".
Proof.
  rewrite (formatTime_floors (2509 # 20)); [reflexivity|].
  discriminate.
Defined.

(** ** The request of the player *)


Lemma includes_char (s : jsstr) (c : N) :
  includes s [c] = match afterFirst c s with Some _ => true | None => false end.
Proof.
  induction s as [|x s IH]; [reflexivity|].
  cbn [includes startsWith afterFirst]. rewrite IH, andb_true_r.
  rewrite N.eqb_sym. destruct (N.eqb x c); reflexivity.
Qed.

Lemma afterFirst_app (sep : N) (a b q : jsstr) :
  afterFirst sep a = Some q -> afterFirst sep (a ++ b) = Some (q ++ b).
Proof.
  induction a as [|x a IH]; [discriminate|]. cbn [app afterFirst].
  destruct (N.eqb x sep); [intros H; injection H as <-; reflexivity | exact IH].
Qed.

Lemma afterFirst_none_app (sep : N) (a b : jsstr) :
  afterFirst sep a = None -> afterFirst sep (a ++ b) = afterFirst sep b.
Proof.
  induction a as [|x a IH]; [reflexivity|]. cbn [app afterFirst].
  destruct (N.eqb x sep); [discriminate | exact IH].
Qed.

(** Cutting at a separator cuts the two sides apart. *)
Lemma split_app_sep (sep : N) (a b : jsstr) :
  split sep (a ++ sep :: b) = split sep a ++ split sep b.
Proof.
  induction a as [|x a IH].
  - cbn [app split]. rewrite N.eqb_refl.
    destruct (split sep b) eqn:E; [|reflexivity].
    exfalso. exact (@split_nonempty sep b E).
  - cbn [app split]. rewrite IH.
    destruct (split sep a) as [|seg rest] eqn:E.
    + exfalso. exact (@split_nonempty sep a E).
    + cbn [app]. destruct (N.eqb x sep); reflexivity.
Qed.

Lemma beforeFirst_app_found (sep : N) (a b : jsstr) :
  includes a [sep] = true -> beforeFirst sep (a ++ b) = beforeFirst sep a.
Proof.
  induction a as [|x a IH]; [discriminate|].
  cbn [includes startsWith app beforeFirst]. rewrite andb_true_r.
  rewrite N.eqb_sym. destruct (N.eqb x sep); [reflexivity|].
  cbn [orb]. intros H. rewrite (IH H). reflexivity.
Qed.

Lemma beforeFirst_none (sep : N) (a : jsstr) :
  Forall (fun c => c <> sep) a -> beforeFirst sep a = a.
Proof.
  induction 1 as [|x a Hx _ IH]; [reflexivity|]. cbn [beforeFirst].
  apply N.eqb_neq in Hx. rewrite Hx, IH. reflexivity.
Qed.

Lemma not_includes_char (s : jsstr) (c : N) :
  includes s [c] = false -> Forall (fun x => x <> c) s.
Proof.
  induction s as [|x s IH]; [constructor|].
  cbn [includes startsWith]. rewrite andb_true_r.
  intros H. apply orb_false_iff in H. destruct H as [Hx Hs].
  constructor; [|exact (IH Hs)].
  intros ->. rewrite N.eqb_refl in Hx. discriminate.
Qed.

Lemma uint_chars_no_hash (u : Decimal.uint) :
  Forall (fun c => c <> 35%N) (uint_chars u).
Proof. induction u; cbn; constructor; try lia; assumption. Qed.

Lemma numberToString_no_hash (z : Z) :
  Forall (fun c => c <> 35%N) (numberToString z).
Proof.
  destruct z; cbn.
  - repeat constructor. lia.
  - apply uint_chars_no_hash.
  - constructor; [lia | apply uint_chars_no_hash].
Qed.

(** X24. For a reading [t] of the clock, the request of the player keeps
    every query parameter of the URL and adds [t] as the last one,
    whether or not the URL had a query, as long as the URL has no
    fragment.  When the URL has a fragment the timestamp is appended to
    the fragment, and the request carries the parameters of the URL and
    no timestamp.  The URL itself is always a prefix of what is
    fetched. *)
Theorem player_request_adds_timestamp (url : jsstr) (t : Z) :
  timeValue t ->
  (includes url (lit "#") = false ->
   sentParams (fetchUrl url t)
     = sentParams url ++ [(lit "t", numberToString t)])
  /\ (includes url (lit "#") = true ->
      sentParams (fetchUrl url t) = sentParams url)
  /\ exists rest, fetchUrl url t = url ++ rest.
Proof.
  intros _. split; [|split].
  - intros Hh. unfold sentParams.
    assert (Hu : Forall (fun c => c <> 35%N) url)
      by (apply not_includes_char; exact Hh).
    assert (Hf : Forall (fun c => c <> 35%N) (fetchUrl url t)).
    { unfold fetchUrl. destruct (includes url (lit "?"));
        apply Forall_app; (split; [exact Hu|]);
        apply Forall_app; (split; [repeat constructor; discriminate|]);
        apply numberToString_no_hash. }
    rewrite (beforeFirst_none 35 _ Hf), (beforeFirst_none 35 _ Hu).
    unfold fetchUrl, queryParams.
    change (lit "?") with [63%N]. rewrite includes_char.
    destruct (afterFirst 63 url) as [q|] eqn:E.
    + rewrite (afterFirst_app 63 url _ q E).
      change (lit "&t=" ++ numberToString t)
        with (38%N :: lit "t=" ++ numberToString t).
      rewrite split_app_sep, map_app. f_equal.
      rewrite (@split_no_sep 38 (lit "t=" ++ numberToString t)).
      * reflexivity.
      * repeat constructor; try (cbn; lia). apply numberToString_no_amp.
    + rewrite (afterFirst_none_app 63 url _ E).
      change (afterFirst 63 (lit "?t=" ++ numberToString t))
        with (Some (lit "t=" ++ numberToString t)).
      cbv beta iota.
      rewrite (@split_no_sep 38 (lit "t=" ++ numberToString t)).
      * reflexivity.
      * repeat constructor; try (cbn; lia). apply numberToString_no_amp.
  - intros Hh. unfold sentParams, fetchUrl.
    destruct (includes url (lit "?"));
      rewrite (beforeFirst_app_found 35 url _ Hh); reflexivity.
  - unfold fetchUrl. destruct (includes url (lit "?")); eexists; reflexivity.
Qed.

Lemma player_request_adds_timestamp_witness :
  sentParams (fetchUrl (lit "https://x/y.mp4?sig=abc") 1700000000000)
  = sentParams (lit "https://x/y.mp4?sig=abc")
    ++ [(lit "t", numberToString 1700000000000)]
  /\ sentParams (fetchUrl (lit "https://x/y.mp4#t=5") 1700000000000)
     = sentParams (lit "https://x/y.mp4#t=5").
Proof.
  assert (Ht : timeValue 1700000000000) by (unfold timeValue; lia).
  split.
  - apply (proj1 (player_request_adds_timestamp
                    (lit "https://x/y.mp4?sig=abc") 1700000000000 Ht)).
    reflexivity.
  - apply (proj1 (proj2 (player_request_adds_timestamp
                           (lit "https://x/y.mp4#t=5") 1700000000000 Ht))).
    reflexivity.
Defined.

(** ** Metadata that arrives *)


(** X25. Metadata that arrives is what the result shows.  When the
    metadata request is answered with [code] 0 and an object as [data]
    whose [duration] is missing or otherwise falsy, or is a whole number
    of seconds from 0 to below 2^53, the Bilibili branch resolves with
    the title, cover and description of that object, each replaced by
    its default when missing or empty, and with the duration formatted
    by [formatDuration]; a missing or zero duration shows as nothing. *)
Theorem metadata_is_shown (host : Host) (bvid avid : jsstr) (w : World)
  (enc : jsstr) (j : value) (fields : list (jsstr * value)) :
  encodeURIComponent (metaUrlOf bvid avid) = Normal enc ->
  respond host (List.length (requests w))
    (proxyUrlOf enc (now host (clockReads w))) = Response (Some j) ->
  isZero (optProp j "code") = true ->
  prop j "data" = VObj fields ->
  plainDuration (lookupField (lit "duration") fields) ->
  exists r w',
    parseBilibili host bvid avid w = (Normal r, w')
    /\ ParsedVideoData.title r
       = orElse (lookupField (lit "title") fields)
           (placeholderTitle (orElseStr bvid avid))
    /\ ParsedVideoData.thumbnailUrl r
       = Some (orElse (lookupField (lit "pic") fields) (VStr []))
    /\ ParsedVideoData.description r
       = Some (orElse (lookupField (lit "desc") fields) (VStr []))
    /\ ParsedVideoData.duration r
       = Some (shownDuration (lookupField (lit "duration") fields)).
Proof.
  intros Henc Hres Hcode Hdata Hdur. unfold parseBilibili.
  rewrite bind_run, fetchMetadata_run, Henc. cbv zeta. rewrite Hres.
  assert (Hm : metadataOutcome (Response (Some j)) = VObj fields).
  { unfold metadataOutcome. destruct j; try discriminate Hcode.
    cbn [getProp]. cbn [optProp] in Hcode. rewrite Hcode. exact Hdata. }
  rewrite Hm. cbv beta iota. rewrite bind_run.
  match goal with |- context [fetchDirectUrl host bvid avid ?w1] =>
    destruct (fetchDirectUrl_never_throws host bvid avid w1)
      as [[directUrl pe] [w2 ->]] end.
  unfold lift, constructResponse. cbn [getProp prop].
  assert (Hd : (if truthy (lookupField (lit "duration") fields)
                then formatDurationOf host (lookupField (lit "duration") fields)
                else [])
               = shownDuration (lookupField (lit "duration") fields)).
  { unfold plainDuration in Hdur. unfold shownDuration.
    destruct (lookupField (lit "duration") fields) as [| |b|n|s|l|o];
      try (rewrite Hdur; reflexivity).
    cbn [truthy formatDurationOf]. destruct (n =? 0)%Z; reflexivity. }
  destruct (truthy directUrl); eexists; eexists;
    (split; [reflexivity|]);
    cbn [ParsedVideoData.title ParsedVideoData.thumbnailUrl
         ParsedVideoData.description ParsedVideoData.duration];
    rewrite Hd; repeat split; reflexivity.
Qed.

Lemma metadata_is_shown_witness :
  exists r w',
    parseBilibili (scripted [Some metaSuccess; Some streamSuccess])
      (lit "BV1xx411c7mD") [] startWorld = (Normal r, w')
    /\ ParsedVideoData.title r = VStr (lit "Demo")
    /\ ParsedVideoData.duration r = Some (lit "2:05").
Proof.
  assert (Hp : plainDuration (VNum 125)).
  { unfold plainDuration. change (2 ^ 53)%Z with 9007199254740992%Z. lia. }
  destruct (metadata_is_shown (scripted [Some metaSuccess; Some streamSuccess])
              (lit "BV1xx411c7mD") [] startWorld
              (lit "https%3A%2F%2Fapi.bilibili.com%2Fx%2Fweb-interface%2Fview%3Fbvid%3DBV1xx411c7mD")
              metaSuccess
              [(lit "title", VStr (lit "Demo"));
               (lit "pic", VStr (lit "https://i/p.jpg"));
               (lit "desc", VStr (lit "d"));
               (lit "duration", VNum 125)]
              eq_refl eq_refl eq_refl eq_refl Hp)
    as [r [w' [Hrun [Ht [_ [_ Hd]]]]]].
  exists r, w'. split; [exact Hrun|]. split; [exact Ht | exact Hd].
Defined.

(** ** Rejections *)









